(** * LocalDatabase: the transactional overlay of upscaledb / hamsterdb

    A shallow embedding of [4db/db_local.cc] (the [LocalDatabase] facade)
    and of the flag macros of [0root/root.h].

    The facade arbitrates between the in-memory [TransactionIndex] and the
    persistent B-tree.  The B-tree, the journal, the changeset, the page
    manager and the transaction manager are collaborators whose code lives
    elsewhere: what the B-tree answers is a parameter ([Collaborators]),
    journal records are appended to the journal of the environment, and
    every other call made to a collaborator is recorded, in order, in the
    environment's trace. *)

From Stdlib Require Import ZArith List Bool Lia.
From stdpp Require Import base list.
Import ListNotations.

Local Open Scope Z_scope.

(** ** Status codes ([ham_status_t]) *)

Inductive ham_status_t :=
| HAM_SUCCESS
| HAM_INV_RECORD_SIZE
| HAM_INV_KEY_SIZE
| HAM_INV_PARAMETER
| HAM_KEY_NOT_FOUND
| HAM_DUPLICATE_KEY
| HAM_INTEGRITY_VIOLATED
| HAM_INTERNAL_ERROR
| HAM_IO_ERROR
| HAM_TXN_CONFLICT
| HAM_KEY_ERASED_IN_TXN
| HAM_TXN_STILL_OPEN
| HAM_CURSOR_IS_NIL.

Definition status_eqb (a b : ham_status_t) : bool :=
  match a, b with
  | HAM_SUCCESS, HAM_SUCCESS
  | HAM_INV_RECORD_SIZE, HAM_INV_RECORD_SIZE
  | HAM_INV_KEY_SIZE, HAM_INV_KEY_SIZE
  | HAM_INV_PARAMETER, HAM_INV_PARAMETER
  | HAM_KEY_NOT_FOUND, HAM_KEY_NOT_FOUND
  | HAM_DUPLICATE_KEY, HAM_DUPLICATE_KEY
  | HAM_INTEGRITY_VIOLATED, HAM_INTEGRITY_VIOLATED
  | HAM_INTERNAL_ERROR, HAM_INTERNAL_ERROR
  | HAM_IO_ERROR, HAM_IO_ERROR
  | HAM_TXN_CONFLICT, HAM_TXN_CONFLICT
  | HAM_KEY_ERASED_IN_TXN, HAM_KEY_ERASED_IN_TXN
  | HAM_TXN_STILL_OPEN, HAM_TXN_STILL_OPEN
  | HAM_CURSOR_IS_NIL, HAM_CURSOR_IS_NIL => true
  | _, _ => false
  end.

(** [if (st)]: a status is "true" in C when it is not [HAM_SUCCESS] (0). *)
Definition failed (st : ham_status_t) : bool := negb (status_eqb st HAM_SUCCESS).

(** ** The flag macros of root.h *)

(** [#define isset(f, b)  (((f) & (b)) == (b))] *)
Definition isset (f b : Z) : bool := Z.land f b =? b.
(** [#define issetany(f, b)  (((f) & (b)) != 0)]; also the plain C test
    [if (f & b)]. *)
Definition issetany (f b : Z) : bool := negb (Z.land f b =? 0).
(** [#define notset(f, b)  (((f) & (b)) == 0)] *)
Definition notset (f b : Z) : bool := Z.land f b =? 0.

(** 32-bit complement, [~m] on a [uint32_t]. *)
Definition not32 (m : Z) : Z := Z.lxor (m mod 2 ^ 32) (2 ^ 32 - 1).

(** ** Constants declared in headers outside this translation unit

    [ham/hamsterdb.h], [3btree/btree_flags.h], [4txn/txn_local.h],
    [4db/db_local.h] and [4cursor/cursor.h] give these names their values.
    The development is parametric in them; [hamsterdb_constants] below is
    an instance, one bit per flag, on which the model is run on concrete
    databases. *)

Class ham_constants := {
  (* environment and database flags *)
  HAM_ENABLE_FSYNC : Z;
  HAM_READ_ONLY : Z;
  HAM_IN_MEMORY : Z;
  HAM_DISABLE_MMAP : Z;
  HAM_RECORD_NUMBER32 : Z;
  HAM_RECORD_NUMBER64 : Z;
  HAM_ENABLE_RECOVERY : Z;
  HAM_AUTO_RECOVERY : Z;
  HAM_ENABLE_TRANSACTIONS : Z;
  HAM_CACHE_UNLIMITED : Z;
  HAM_FORCE_RECORDS_INLINE : Z;
  (* flags of insert, erase and find *)
  HAM_OVERWRITE : Z;
  HAM_DUPLICATE : Z;
  HAM_PARTIAL : Z;
  HAM_ERASE_ALL_DUPLICATES : Z;
  HAM_FIND_EXACT_MATCH : Z;
  HAM_FIND_LT_MATCH : Z;
  HAM_FIND_GT_MATCH : Z;
  HAM_TXN_TEMPORARY : Z;
  HAM_KEY_USER_ALLOC : Z;
  HAM_RECORD_USER_ALLOC : Z;
  (* key types and sizes *)
  HAM_TYPE_UINT8 : Z;
  HAM_TYPE_UINT16 : Z;
  HAM_TYPE_UINT32 : Z;
  HAM_TYPE_UINT64 : Z;
  HAM_TYPE_REAL32 : Z;
  HAM_TYPE_REAL64 : Z;
  HAM_KEY_SIZE_UNLIMITED : Z;
  HAM_RECORD_SIZE_UNLIMITED : Z;
  kInlineRecordThreshold : Z;
  (* TransactionOperation::k... *)
  kNop : Z;
  kInsert : Z;
  kInsertOverwrite : Z;
  kInsertDuplicate : Z;
  kErase : Z;
  kIsFlushed : Z;
  (* BtreeKey::kLower, kGreater, kApproximate *)
  kLower : Z;
  kGreater : Z;
  kApproximate : Z;
  (* Cursor::kLookupOrInsert *)
  kLookupOrInsert : Z
}.

#[export] Instance hamsterdb_constants : ham_constants := {|
  HAM_ENABLE_FSYNC := 0x1;
  HAM_READ_ONLY := 0x4;
  HAM_IN_MEMORY := 0x80;
  HAM_DISABLE_MMAP := 0x200;
  HAM_RECORD_NUMBER32 := 0x1000;
  HAM_RECORD_NUMBER64 := 0x2000;
  HAM_ENABLE_RECOVERY := 0x8000;
  HAM_AUTO_RECOVERY := 0x10000;
  HAM_ENABLE_TRANSACTIONS := 0x20000;
  HAM_CACHE_UNLIMITED := 0x40000;
  HAM_FORCE_RECORDS_INLINE := 0x800000;
  HAM_OVERWRITE := 0x1;
  HAM_DUPLICATE := 0x2;
  HAM_PARTIAL := 0x80;
  HAM_ERASE_ALL_DUPLICATES := 0x1;
  HAM_FIND_EXACT_MATCH := 0x4000;
  HAM_FIND_LT_MATCH := 0x1000;
  HAM_FIND_GT_MATCH := 0x2000;
  HAM_TXN_TEMPORARY := 0x2;
  HAM_KEY_USER_ALLOC := 0x1;
  HAM_RECORD_USER_ALLOC := 0x1;
  HAM_TYPE_UINT8 := 3;
  HAM_TYPE_UINT16 := 5;
  HAM_TYPE_UINT32 := 7;
  HAM_TYPE_UINT64 := 9;
  HAM_TYPE_REAL32 := 11;
  HAM_TYPE_REAL64 := 12;
  HAM_KEY_SIZE_UNLIMITED := 0xffff;
  HAM_RECORD_SIZE_UNLIMITED := 0xffffffff;
  kInlineRecordThreshold := 32;
  kNop := 0x0;
  kInsert := 0x10000;
  kInsertOverwrite := 0x20000;
  kInsertDuplicate := 0x40000;
  kErase := 0x80000;
  kIsFlushed := 0x100000;
  kLower := 0x1;
  kGreater := 0x2;
  kApproximate := 0x3;
  kLookupOrInsert := 0x10000
|}.

(** The argument of [Cursor::set_to_nil] and [Cursor::is_nil]:
    [Cursor::kBtree], [Cursor::kTxn], or the literal 0 ([kAny]) for both
    sides. *)
Inductive cursor_side := kAny | kBtree | kTxn.

(** ** Keys, records, transactions *)

(** [ham_key_t]: [size] is the length of [data]; [flags] are the caller's
    ([HAM_KEY_USER_ALLOC]), [_flags] are the internal ones, where the
    approximate-match bits live. *)
Record ham_key_t := mk_key {
  key_data : list Z;
  key_flags : Z;
  key_intflags : Z
}.

Definition key_size (k : ham_key_t) : Z := Z.of_nat (length (key_data k)).

(** [ham_key_get_intflags] / [ham_key_set_intflags] *)
Definition ham_key_get_intflags (k : ham_key_t) : Z := key_intflags k.
Definition ham_key_set_intflags (k : ham_key_t) (f : Z) : ham_key_t :=
  {| key_data := key_data k; key_flags := key_flags k; key_intflags := f |}.

Record ham_record_t := mk_record {
  record_data : list Z;
  record_flags : Z
}.

Definition record_size (r : ham_record_t) : Z := Z.of_nat (length (record_data r)).

(** A transaction as the facade sees it: its identity (the pointer), its
    flags and whether it was committed or aborted. *)
Record Transaction := mk_txn {
  txn_id : nat;
  txn_flags : Z;
  txn_committed : bool;
  txn_aborted : bool
}.

Definition is_committed (t : Transaction) : bool := txn_committed t.
Definition is_aborted (t : Transaction) : bool := txn_aborted t.

(** [txn == optxn]: pointer equality; [txn] may be null. *)
Definition same_txn (txn : option Transaction) (optxn : Transaction) : bool :=
  match txn with
  | Some t => Nat.eqb (txn_id t) (txn_id optxn)
  | None => false
  end.

(** ** Operations, nodes and the TransactionIndex *)

(** [TransactionOperation]: [op_flags] holds the kind ([kInsert], ...,
    [kErase], [kNop]) and the [kIsFlushed] bit; [op_orig_flags] the flags of
    the caller.  [op_node_key] is [get_node()->get_key()], the key of the
    node the operation hangs off; operations are addressed by their LSN. *)
Record TransactionOperation := mk_op {
  op_txn : Transaction;
  op_node_key : ham_key_t;
  op_flags : Z;
  op_orig_flags : Z;
  op_lsn : Z;
  op_referenced_dupe : Z;
  op_record : option ham_record_t
}.

Definition set_referenced_dupe (op : TransactionOperation) (d : Z)
  : TransactionOperation :=
  {| op_txn := op_txn op; op_node_key := op_node_key op;
     op_flags := op_flags op; op_orig_flags := op_orig_flags op;
     op_lsn := op_lsn op; op_referenced_dupe := d;
     op_record := op_record op |}.

(** [TransactionNode]: the key and the chain of operations, newest first
    ([get_newest_op] is the head, [get_previous_in_node] the tail). *)
Record TransactionNode := mk_node {
  node_key : ham_key_t;
  node_ops : list TransactionOperation
}.

(** [new TransactionNode(db, key)] *)
Definition new_TransactionNode (key : ham_key_t) : TransactionNode :=
  {| node_key := key; node_ops := [] |}.

(** The [TransactionIndex] as its in-order sequence of nodes; a node
    pointer is a position in this sequence, [get_previous_sibling] and
    [get_next_sibling] are the neighbouring positions. *)
Definition TransactionIndex := list TransactionNode.

(** ** Cursors *)

(** Modelled from the spec: a [Cursor] has a B-tree side (a slot in a leaf,
    here the key it points at, [None] when nil), a transactional side (the
    operation its [TransactionCursor] is coupled to, by LSN, [None] when
    nil) and the flag that says which side is the live one
    ([couple_to_txnop] / [couple_to_btree]); the class itself is declared in
    4cursor/cursor.h. *)
Record Cursor := mk_cursor {
  cursor_txn : option Transaction;
  cursor_coupled_to_txnop : bool;
  cursor_txn_coupled_op : option Z;
  cursor_btree : option ham_key_t;
  cursor_dupecache_index : Z;
  cursor_lastop : Z
}.

Definition is_null {A} (p : option A) : bool :=
  match p with Some _ => false | None => true end.

(** Modelled from the spec: [Cursor::is_nil(what)] of 4cursor/cursor.h; a
    cursor is nil when it is coupled to neither side (section 3). *)
Definition is_nil (what : cursor_side) (c : Cursor) : bool :=
  match what with
  | kBtree => is_null (cursor_btree c)
  | kTxn => is_null (cursor_txn_coupled_op c)
  | kAny => is_null (cursor_btree c) && is_null (cursor_txn_coupled_op c)
  end.

Definition is_coupled_to_txnop (c : Cursor) : bool := cursor_coupled_to_txnop c.
Definition is_coupled_to_btree (c : Cursor) : bool :=
  negb (cursor_coupled_to_txnop c).

Definition with_cursor_txn (c : Cursor) (t : option Transaction) : Cursor :=
  {| cursor_txn := t;
     cursor_coupled_to_txnop := cursor_coupled_to_txnop c;
     cursor_txn_coupled_op := cursor_txn_coupled_op c;
     cursor_btree := cursor_btree c;
     cursor_dupecache_index := cursor_dupecache_index c;
     cursor_lastop := cursor_lastop c |}.

Definition with_coupled_flag (c : Cursor) (b : bool) : Cursor :=
  {| cursor_txn := cursor_txn c;
     cursor_coupled_to_txnop := b;
     cursor_txn_coupled_op := cursor_txn_coupled_op c;
     cursor_btree := cursor_btree c;
     cursor_dupecache_index := cursor_dupecache_index c;
     cursor_lastop := cursor_lastop c |}.

Definition with_coupled_op (c : Cursor) (o : option Z) : Cursor :=
  {| cursor_txn := cursor_txn c;
     cursor_coupled_to_txnop := cursor_coupled_to_txnop c;
     cursor_txn_coupled_op := o;
     cursor_btree := cursor_btree c;
     cursor_dupecache_index := cursor_dupecache_index c;
     cursor_lastop := cursor_lastop c |}.

Definition with_btree_cursor (c : Cursor) (k : option ham_key_t) : Cursor :=
  {| cursor_txn := cursor_txn c;
     cursor_coupled_to_txnop := cursor_coupled_to_txnop c;
     cursor_txn_coupled_op := cursor_txn_coupled_op c;
     cursor_btree := k;
     cursor_dupecache_index := cursor_dupecache_index c;
     cursor_lastop := cursor_lastop c |}.

(** Modelled from the spec: [Cursor::set_dupecache_index]; the
    [dupecache_index] is a field of the cursor (section 3). *)
Definition set_dupecache_index (c : Cursor) (i : Z) : Cursor :=
  {| cursor_txn := cursor_txn c;
     cursor_coupled_to_txnop := cursor_coupled_to_txnop c;
     cursor_txn_coupled_op := cursor_txn_coupled_op c;
     cursor_btree := cursor_btree c;
     cursor_dupecache_index := i;
     cursor_lastop := cursor_lastop c |}.

(** Modelled from the spec: [Cursor::set_lastop]; [lastop] is a memo of
    the cursor (section 3). *)
Definition set_lastop (c : Cursor) (l : Z) : Cursor :=
  {| cursor_txn := cursor_txn c;
     cursor_coupled_to_txnop := cursor_coupled_to_txnop c;
     cursor_txn_coupled_op := cursor_txn_coupled_op c;
     cursor_btree := cursor_btree c;
     cursor_dupecache_index := cursor_dupecache_index c;
     cursor_lastop := l |}.

(** Modelled from the spec: [Cursor::couple_to_txnop] and
    [Cursor::couple_to_btree] say which side the cursor is coupled to
    (section 3, "coupling"); they do not touch the two sides. *)
Definition couple_to_txnop (c : Cursor) : Cursor := with_coupled_flag c true.
Definition couple_to_btree (c : Cursor) : Cursor := with_coupled_flag c false.

(** Modelled from the spec: [TransactionCursor::couple_to_op(op)] binds the
    transactional side of the cursor to the operation (glossary,
    "couple"). *)
Definition couple_to_op (c : Cursor) (op : TransactionOperation) : Cursor :=
  with_coupled_op c (Some (op_lsn op)).

(** Modelled from the spec: [Cursor::set_to_nil(what)] nils the B-tree
    side, the transactional side or both (I3). *)
Definition set_to_nil (what : cursor_side) (c : Cursor) : Cursor :=
  match what with
  | kBtree => with_btree_cursor c None
  | kTxn => with_coupled_op c None
  | kAny => with_btree_cursor (with_coupled_op c None) None
  end.

(** Modelled from the spec: [Cursor::clear_dupecache] drops the duplicate
    cache, and with it the position in it. *)
Definition clear_dupecache (c : Cursor) : Cursor := set_dupecache_index c 0.

(** ** The environment *)

Inductive JournalEntry :=
| JournalInsert (txn : nat) (key : ham_key_t) (record : ham_record_t)
                (flags lsn : Z)
| JournalErase (txn : nat) (key : ham_key_t) (dupe_index flags lsn : Z).

(** Calls into the collaborators, in the order they were made. *)
Inductive Event :=
| EvBtreeFind (key : ham_key_t) (flags : Z)
| EvBtreeInsert (key : ham_key_t) (flags : Z)
| EvBtreeErase (key : option ham_key_t) (dupe_index flags : Z)
| EvBtreeRelease
| EvChangesetClear
| EvChangesetFlush (lsn : Z)
| EvTxnBegin (id : nat)
| EvTxnCommit (id : nat)
| EvTxnAbort (id : nat)
| EvFlushCommittedTxns
| EvPurgeCache
| EvCloseDatabase.

Record LocalEnvironment := mk_env {
  env_flags : Z;
  env_page_size : Z;
  env_lsn : Z;
  env_journal : list JournalEntry;
  env_txn_manager : bool;      (* false: get_txn_manager() is null *)
  env_next_txn_id : nat;
  env_trace : list Event
}.

Definition env_log (e : Event) (env : LocalEnvironment) : LocalEnvironment :=
  {| env_flags := env_flags env; env_page_size := env_page_size env;
     env_lsn := env_lsn env; env_journal := env_journal env;
     env_txn_manager := env_txn_manager env;
     env_next_txn_id := env_next_txn_id env;
     env_trace := env_trace env ++ [e] |}.

Definition env_journal_append (j : JournalEntry) (env : LocalEnvironment)
  : LocalEnvironment :=
  {| env_flags := env_flags env; env_page_size := env_page_size env;
     env_lsn := env_lsn env; env_journal := env_journal env ++ [j];
     env_txn_manager := env_txn_manager env;
     env_next_txn_id := env_next_txn_id env;
     env_trace := env_trace env |}.

Definition env_set_lsn (l : Z) (env : LocalEnvironment) : LocalEnvironment :=
  {| env_flags := env_flags env; env_page_size := env_page_size env;
     env_lsn := l; env_journal := env_journal env;
     env_txn_manager := env_txn_manager env;
     env_next_txn_id := env_next_txn_id env;
     env_trace := env_trace env |}.

Definition env_set_next_txn_id (n : nat) (env : LocalEnvironment)
  : LocalEnvironment :=
  {| env_flags := env_flags env; env_page_size := env_page_size env;
     env_lsn := env_lsn env; env_journal := env_journal env;
     env_txn_manager := env_txn_manager env;
     env_next_txn_id := n;
     env_trace := env_trace env |}.

(** [DatabaseConfiguration] *)
Record DatabaseConfiguration := mk_config {
  cfg_key_type : Z;
  cfg_key_size : Z;
  cfg_record_size : Z;
  cfg_flags : Z
}.

(** ** The database handle *)

(** [LocalDatabase], together with the parts of its [LocalEnvironment] the
    facade touches.  [Btree] is the state of the persistent index
    ([BtreeIndex]), opaque here. *)
Record LocalDatabase (Btree : Type) := mk_db {
  m_env : LocalEnvironment;
  m_rt_flags : Z;                          (* get_rt_flags() *)
  m_config : DatabaseConfiguration;
  m_txn_index : option TransactionIndex;   (* null until create/open *)
  m_btree_index : option Btree;            (* null until create/open *)
  m_cursor_list : list Cursor;             (* a Cursor* is a position here *)
  m_error : ham_status_t
}.

Arguments mk_db {Btree}.
Arguments m_env {Btree}.
Arguments m_rt_flags {Btree}.
Arguments m_config {Btree}.
Arguments m_txn_index {Btree}.
Arguments m_btree_index {Btree}.
Arguments m_cursor_list {Btree}.
Arguments m_error {Btree}.

Section Setters.

Context {Btree : Type}.

Definition with_env (f : LocalEnvironment -> LocalEnvironment)
  (db : LocalDatabase Btree) : LocalDatabase Btree :=
  {| m_env := f (m_env db); m_rt_flags := m_rt_flags db;
     m_config := m_config db; m_txn_index := m_txn_index db;
     m_btree_index := m_btree_index db; m_cursor_list := m_cursor_list db;
     m_error := m_error db |}.

Definition with_config (c : DatabaseConfiguration) (db : LocalDatabase Btree)
  : LocalDatabase Btree :=
  {| m_env := m_env db; m_rt_flags := m_rt_flags db;
     m_config := c; m_txn_index := m_txn_index db;
     m_btree_index := m_btree_index db; m_cursor_list := m_cursor_list db;
     m_error := m_error db |}.

Definition with_txn_index (i : option TransactionIndex)
  (db : LocalDatabase Btree) : LocalDatabase Btree :=
  {| m_env := m_env db; m_rt_flags := m_rt_flags db;
     m_config := m_config db; m_txn_index := i;
     m_btree_index := m_btree_index db; m_cursor_list := m_cursor_list db;
     m_error := m_error db |}.

Definition with_btree_index (b : option Btree) (db : LocalDatabase Btree)
  : LocalDatabase Btree :=
  {| m_env := m_env db; m_rt_flags := m_rt_flags db;
     m_config := m_config db; m_txn_index := m_txn_index db;
     m_btree_index := b; m_cursor_list := m_cursor_list db;
     m_error := m_error db |}.

Definition with_cursor_list (cs : list Cursor) (db : LocalDatabase Btree)
  : LocalDatabase Btree :=
  {| m_env := m_env db; m_rt_flags := m_rt_flags db;
     m_config := m_config db; m_txn_index := m_txn_index db;
     m_btree_index := m_btree_index db; m_cursor_list := cs;
     m_error := m_error db |}.

Definition with_error (e : ham_status_t) (db : LocalDatabase Btree)
  : LocalDatabase Btree :=
  {| m_env := m_env db; m_rt_flags := m_rt_flags db;
     m_config := m_config db; m_txn_index := m_txn_index db;
     m_btree_index := m_btree_index db; m_cursor_list := m_cursor_list db;
     m_error := e |}.

End Setters.

(** ** The collaborators

    The classes the facade calls into and whose code is elsewhere: what they
    answer is a parameter of the development. *)

(** What [BtreeIndex::find] leaves behind: the status, the caller's key
    (holding the key found and its approximate bits after an approximate
    match) and the bytes of the record found. *)
Record btree_find_result := mk_find_result {
  bf_status : ham_status_t;
  bf_key : ham_key_t;
  bf_record : list Z
}.

Class Collaborators := {
  Btree : Type;
  (* m_btree_index->compare_keys(a, b): negative, zero or positive *)
  compare_keys : ham_key_t -> ham_key_t -> Z;
  (* BtreeIndex::find(cursor, key, key_arena, record, record_arena, flags) *)
  btree_find : Btree -> ham_key_t -> Z -> btree_find_result;
  (* BtreeIndex::insert(cursor, key, record, flags) *)
  btree_insert :
    Btree -> ham_key_t -> option ham_record_t -> Z -> ham_status_t * Btree;
  (* BtreeIndex::erase(cursor, key, duplicate_index, flags); the second
     argument is the slot of the cursor, when one is passed *)
  btree_erase :
    Btree -> option ham_key_t -> option ham_key_t -> Z -> Z
    -> ham_status_t * Btree;
  (* new BtreeIndex(db, descriptor, flags, key_type, key_size), then
     create(key_type, key_size, record_size) *)
  btree_create : Z -> Z -> Z -> Z -> Z -> Btree;
  (* Cursor::sync(Cursor::kSyncOnlyEqualKeys, &is_equal) *)
  cursor_sync : LocalDatabase Btree -> Cursor -> Cursor * bool;
  (* Cursor::get_dupecache_count() *)
  get_dupecache_count : LocalDatabase Btree -> Cursor -> Z
}.

(** ** The monad of the facade's methods *)

Section Monad.

Context {C : Collaborators}.

(** The outcome of a method: it returns, it throws a C++ [Exception], it
    dereferences a null or dangling pointer, or the bound this model puts on
    re-entries is used up. *)
Inductive Res (A : Type) :=
| Ok (a : A) (db : LocalDatabase Btree)
| Throw (st : ham_status_t) (db : LocalDatabase Btree)
| Undefined
| OutOfFuel.

Definition M (A : Type) : Type := LocalDatabase Btree -> Res A.

End Monad.

Arguments Ok {C A} a db.
Arguments Throw {C A} st db.
Arguments Undefined {C A}.
Arguments OutOfFuel {C A}.

Section MonadOps.

Context {C : Collaborators}.

Definition ret {A} (a : A) : M A := fun db => Ok a db.

Definition bind {A B} (m : M A) (k : A -> M B) : M B :=
  fun db =>
    match m db with
    | Ok a db' => k a db'
    | Throw st db' => Throw st db'
    | Undefined => Undefined
    | OutOfFuel => OutOfFuel
    end.

Definition gets {A} (f : LocalDatabase Btree -> A) : M A :=
  fun db => Ok (f db) db.
Definition modify (f : LocalDatabase Btree -> LocalDatabase Btree) : M unit :=
  fun db => Ok tt (f db).
Definition throw {A} (st : ham_status_t) : M A := fun db => Throw st db.
Definition undefined {A} : M A := fun _ => Undefined.
Definition out_of_fuel {A} : M A := fun _ => OutOfFuel.

(** Following a pointer that may be null. *)
Definition deref {A} (p : option A) : M A :=
  match p with Some a => ret a | None => undefined end.

Definition when (b : bool) (m : M unit) : M unit := if b then m else ret tt.

End MonadOps.

Declare Scope db_scope.
Delimit Scope db_scope with db.
Notation "x <- c1 ;; c2" := (bind c1 (fun x => c2))
  (at level 100, c1 at next level, right associativity) : db_scope.
Notation "c1 ;;; c2" := (bind c1 (fun _ => c2))
  (at level 100, right associativity) : db_scope.
Open Scope db_scope.

Section Methods.

Context {K : ham_constants} {C : Collaborators}.

(** A call into a collaborator, put on record. *)
Definition log (e : Event) : M unit := modify (with_env (env_log e)).

(** [cursor->...]: reading and writing the cursor behind a [Cursor*]. *)
Definition get_cursor (c : nat) : M Cursor :=
  cs <- gets m_cursor_list ;; deref (cs !! c).

Definition update_cursor (c : nat) (f : Cursor -> Cursor) : M unit :=
  cur <- get_cursor c ;;
  modify (fun db => with_cursor_list (<[c := f cur]> (m_cursor_list db)) db).

(** The same through a pointer that is null when the caller has no cursor:
    [if (cursor) cursor->...]. *)
Definition if_cursor (c : option nat) (f : Cursor -> Cursor) : M unit :=
  match c with Some i => update_cursor i f | None => ret tt end.

(** Modelled from the spec: [get_local_env()->get_incremented_lsn()] of
    the environment; LSNs are handed out strictly increasing, one per
    operation (I6, P8).  The counter is a [uint64_t]. *)
Definition get_incremented_lsn : M Z :=
  l <- gets (fun db => (env_lsn (m_env db) + 1) mod 2 ^ 64) ;;
  modify (with_env (env_set_lsn l)) ;;;
  ret l.

(** Modelled from the spec: [BtreeCursor::points_to(key)], "whose B-tree
    side points at this key" (I4): the slot holds a key that compares equal
    to [key]. *)
Definition points_to (c : Cursor) (key : ham_key_t) : bool :=
  match cursor_btree c with
  | Some k => compare_keys k key =? 0
  | None => false
  end.

(** *** The TransactionIndex *)

(** The position of the node whose key compares equal to [key]. *)
Fixpoint index_search (idx : TransactionIndex) (key : ham_key_t)
  : option nat :=
  match idx with
  | [] => None
  | n :: rest =>
      if compare_keys key (node_key n) =? 0 then Some 0%nat
      else S <$> index_search rest key
  end.

(** Modelled from the spec: [TransactionIndex::get(key, flags)], declared in
    4txn/txn_local.h.  The index is an ordered map that supports [get(key)]
    (section 3); [find_txn] uses it to "look up the TransactionNode for the
    given key (no creation)" (section 4.4, step 2).  The lookup is exact:
    the result is the node of this key, or null when the index has none.
    The key is flagged approximate by the walk across erased siblings
    (section 4.4, step 3: "came from an Lt/Gt traversal across erased
    siblings"), not by the lookup. *)
Definition txn_index_get (idx : TransactionIndex) (key : ham_key_t)
  (flags : Z) : option nat :=
  index_search idx key.

(** Where a new node goes: behind every node with a smaller key. *)
Fixpoint store_position (idx : TransactionIndex) (key : ham_key_t) : nat :=
  match idx with
  | [] => 0%nat
  | n :: rest =>
      if compare_keys (node_key n) key <? 0
      then S (store_position rest key)
      else 0%nat
  end.

(** Modelled from the spec: [TransactionIndex::store(node)]; insertion-time
    ordering uses the database's key comparator (section 3).  Returns the
    index and the pointer to the stored node. *)
Definition txn_index_store (idx : TransactionIndex) (node : TransactionNode)
  : TransactionIndex * nat :=
  let pos := store_position idx (node_key node) in
  (take pos idx ++ node :: drop pos idx, pos).

(** Modelled from the spec: [TransactionIndex::remove(node)] unlinks the
    node the pointer designates. *)
Definition txn_index_remove (idx : TransactionIndex) (node : nat)
  : TransactionIndex :=
  delete node idx.

(** [node->get_previous_sibling()], repeated: the nodes before [node],
    nearest first; and [node->get_next_sibling()], repeated. *)
Definition previous_siblings (idx : TransactionIndex) (node : nat)
  : list TransactionNode := reverse (take node idx).
Definition next_siblings (idx : TransactionIndex) (node : nat)
  : list TransactionNode := drop (S node) idx.

(** Modelled from the spec: [TransactionNode::append(txn, orig_flags, flags,
    lsn, key, record)] builds the operation and makes it the newest of the
    node (section 4.2, step 3). *)
Definition node_append (node : TransactionNode) (txn : Transaction)
  (orig_flags flags lsn : Z) (record : option ham_record_t)
  : TransactionNode * TransactionOperation :=
  let op := {| op_txn := txn; op_node_key := node_key node;
               op_flags := flags; op_orig_flags := orig_flags;
               op_lsn := lsn; op_referenced_dupe := 0;
               op_record := record |} in
  ({| node_key := node_key node; node_ops := op :: node_ops node |}, op).

(** Reading and writing [m_txn_index] through the pointer. *)
Definition get_txn_index : M TransactionIndex :=
  i <- gets m_txn_index ;; deref i.
Definition set_txn_index (idx : TransactionIndex) : M unit :=
  modify (with_txn_index (Some idx)).

(** [m_btree_index->find(cursor, key, key_arena, record, record_arena,
    flags)]: the call is traced and answered by the collaborator.  A cursor
    that is passed is coupled by the B-tree to the slot of the key found
    (section 3: the B-tree side is a slot in a leaf), and is nil on that
    side when nothing was found. *)
Definition btree_index_find (cursor : option nat) (key : ham_key_t)
  (flags : Z) : M btree_find_result :=
  bt <- gets m_btree_index ;;
  bt <- deref bt ;;
  log (EvBtreeFind key flags) ;;;
  let r := btree_find bt key flags in
  if_cursor cursor (fun c =>
    with_btree_cursor c
      (if failed (bf_status r) then None else Some (bf_key r))) ;;;
  ret r.

(** *** check_insert_conflicts *)

(** The [while (op)] loop of [check_insert_conflicts]; [None] when the loop
    runs off the oldest operation without a [return]. *)
Fixpoint check_insert_walk (txn : option Transaction)
  (ops : list TransactionOperation) (flags : Z) : option ham_status_t :=
  match ops with
  | [] => None
  | op :: previous_in_node =>
      let optxn := op_txn op in
      if is_aborted optxn then
        check_insert_walk txn previous_in_node flags
      else if is_committed optxn || same_txn txn optxn then
        if issetany (op_flags op) kIsFlushed then
          check_insert_walk txn previous_in_node flags
        else if issetany (op_flags op) kErase then
          Some HAM_SUCCESS
        else if issetany (op_flags op) kInsert
                || issetany (op_flags op) kInsertOverwrite
                || issetany (op_flags op) kInsertDuplicate then
          if issetany flags HAM_OVERWRITE || issetany flags HAM_DUPLICATE
          then Some HAM_SUCCESS
          else Some HAM_DUPLICATE_KEY
        else if negb (issetany (op_flags op) kNop) then
          Some HAM_DUPLICATE_KEY
        else check_insert_walk txn previous_in_node flags
      else Some HAM_TXN_CONFLICT
  end.

Definition check_insert_conflicts (txn : option Transaction)
  (node : TransactionNode) (key : ham_key_t) (flags : Z) : M ham_status_t :=
  match check_insert_walk txn (node_ops node) flags with
  | Some st => ret st
  | None =>
      rt_flags <- gets m_rt_flags ;;
      if issetany flags HAM_OVERWRITE
         || issetany flags HAM_DUPLICATE
         || issetany rt_flags (Z.lor HAM_RECORD_NUMBER32 HAM_RECORD_NUMBER64)
      then ret HAM_SUCCESS
      else
        r <- btree_index_find None key flags ;;
        match bf_status r with
        | HAM_KEY_NOT_FOUND => ret HAM_SUCCESS
        | HAM_SUCCESS => ret HAM_DUPLICATE_KEY
        | st => ret st
        end
  end.

(** *** check_erase_conflicts *)

Fixpoint check_erase_walk (txn : option Transaction)
  (ops : list TransactionOperation) : option ham_status_t :=
  match ops with
  | [] => None
  | op :: previous_in_node =>
      let optxn := op_txn op in
      if is_aborted optxn then
        check_erase_walk txn previous_in_node
      else if is_committed optxn || same_txn txn optxn then
        if issetany (op_flags op) kIsFlushed then
          check_erase_walk txn previous_in_node
        else if issetany (op_flags op) kErase then
          Some HAM_KEY_NOT_FOUND
        else if issetany (op_flags op) kInsert
                || issetany (op_flags op) kInsertOverwrite
                || issetany (op_flags op) kInsertDuplicate then
          Some HAM_SUCCESS
        else if negb (issetany (op_flags op) kNop) then
          Some HAM_KEY_NOT_FOUND
        else check_erase_walk txn previous_in_node
      else Some HAM_TXN_CONFLICT
  end.

Definition check_erase_conflicts (txn : option Transaction)
  (node : TransactionNode) (key : ham_key_t) (flags : Z) : M ham_status_t :=
  match check_erase_walk txn (node_ops node) with
  | Some st => ret st
  | None =>
      r <- btree_index_find None key flags ;;
      ret (bf_status r)
  end.

(** *** Cursor bookkeeping *)

(** [op->get_node()] for the operation a cursor is coupled to: the node that
    holds the operation with this LSN. *)
Fixpoint node_of_op (idx : TransactionIndex) (lsn : Z) : option nat :=
  match idx with
  | [] => None
  | n :: rest =>
      if existsb (fun op => op_lsn op =? lsn) (node_ops n) then Some 0%nat
      else S <$> node_of_op rest lsn
  end.

(** One turn of the [while (c)] loop of [increment_dupe_index]; [None] when
    the cursor claims to be coupled to an operation and is not. *)
Definition increment_dupe_index_step (idx : TransactionIndex) (node : nat)
  (key : ham_key_t) (skip : nat) (start : Z) (i : nat) (c : Cursor)
  : option Cursor :=
  let bump (hit : bool) :=
    if hit && (start <? cursor_dupecache_index c)
    then set_dupecache_index c ((cursor_dupecache_index c + 1) mod 2 ^ 32)
    else c in
  if Nat.eqb i skip || is_nil kAny c then Some c
  else if is_coupled_to_txnop c then
    match cursor_txn_coupled_op c with
    | Some lsn =>
        Some (bump (match node_of_op idx lsn with
                    | Some n => Nat.eqb n node
                    | None => false
                    end))
    | None => None
    end
  else Some (bump (points_to c key)).

Fixpoint increment_dupe_index_loop (idx : TransactionIndex) (node : nat)
  (key : ham_key_t) (skip : nat) (start : Z) (i : nat) (cs : list Cursor)
  : option (list Cursor) :=
  match cs with
  | [] => Some []
  | c :: next =>
      match increment_dupe_index_step idx node key skip start i c,
            increment_dupe_index_loop idx node key skip start (S i) next with
      | Some c', Some rest => Some (c' :: rest)
      | _, _ => None
      end
  end.

Definition increment_dupe_index (node : nat) (skip : nat) (start : Z)
  : M unit :=
  idx <- get_txn_index ;;
  n <- deref (idx !! node) ;;
  cs <- gets m_cursor_list ;;
  cs' <- deref (increment_dupe_index_loop idx node (node_key n) skip start
                  0%nat cs) ;;
  modify (with_cursor_list cs').

(** [op->get_cursor_list()]: the cursors coupled to the operation. *)
Fixpoint cursors_coupled_to (lsn : Z) (i : nat) (cs : list Cursor)
  : list nat :=
  match cs with
  | [] => []
  | c :: next =>
      match cursor_txn_coupled_op c with
      | Some l => if l =? lsn then i :: cursors_coupled_to lsn (S i) next
                  else cursors_coupled_to lsn (S i) next
      | None => cursors_coupled_to lsn (S i) next
      end
  end.

Definition get_cursor_list (op : TransactionOperation) (cs : list Cursor)
  : list nat := cursors_coupled_to (op_lsn op) 0%nat cs.

(** The inner [while (cursor)] loop of [nil_all_cursors_in_node], up to the
    point where a cursor is uncoupled and the loop starts over at the head
    of the list ([true]) or the list is exhausted ([false]).  [d] is
    [current->get_dupecache_index()], 0 also when there is no [current]. *)
Fixpoint nil_cursors_pass (d : Z) (coupled : list nat) (cs : list Cursor)
  : list Cursor * bool :=
  match coupled with
  | [] => (cs, false)
  | i :: coupled_next =>
      match cs !! i with
      | None => (cs, false)
      | Some parent =>
          if negb (d =? 0) && (d <? cursor_dupecache_index parent) then
            nil_cursors_pass d coupled_next
              (<[i := set_dupecache_index parent
                        (cursor_dupecache_index parent - 1)]> cs)
          else if negb (d =? 0) && (cursor_dupecache_index parent <? d) then
            nil_cursors_pass d coupled_next cs
          else
            (<[i := set_lastop (set_to_nil kTxn (couple_to_btree parent))
                      kLookupOrInsert]> cs, true)
      end
  end.

(** The loop over the cursors of one operation.  Every restart has taken one
    cursor off the list, so [fuel] restarts suffice when [fuel] is the
    number of cursors. *)
Fixpoint nil_op_cursors (fuel : nat) (d : Z) (op : TransactionOperation)
  (cs : list Cursor) : list Cursor :=
  match fuel with
  | O => cs
  | S fuel' =>
      let (cs', again) := nil_cursors_pass d (get_cursor_list op cs) cs in
      if again then nil_op_cursors fuel' d op cs' else cs'
  end.

Definition current_dupecache_index (current : option nat) : M Z :=
  match current with
  | Some i => c <- get_cursor i ;; ret (cursor_dupecache_index c)
  | None => ret 0
  end.

Definition nil_all_cursors_in_node (txn : Transaction) (current : option nat)
  (node : nat) : M unit :=
  idx <- get_txn_index ;;
  n <- deref (idx !! node) ;;
  d <- current_dupecache_index current ;;
  modify (fun db =>
    with_cursor_list
      (fold_left (fun cs op => nil_op_cursors (S (length cs)) d op cs)
                 (node_ops n) (m_cursor_list db))
      db).

(** One turn of the [while (c)] loop of [nil_all_cursors_in_btree]. *)
Definition nil_all_cursors_in_btree_step (current : option nat) (d : Z)
  (key : ham_key_t) (i : nat) (c : Cursor) : Cursor :=
  if is_nil kAny c
     || match current with Some j => Nat.eqb i j | None => false end
  then c
  else if is_coupled_to_txnop c then c
  else if points_to c key then
    if negb (d =? 0) && (d <? cursor_dupecache_index c) then
      set_dupecache_index c (cursor_dupecache_index c - 1)
    else if negb (d =? 0) && (cursor_dupecache_index c <? d) then c
    else set_to_nil kAny c
  else c.

Definition nil_all_cursors_in_btree (current : option nat) (key : ham_key_t)
  : M unit :=
  d <- current_dupecache_index current ;;
  modify (fun db =>
    with_cursor_list
      (imap (nil_all_cursors_in_btree_step current d key) (m_cursor_list db))
      db).

(** *** insert_txn *)

(** The operation in the node [node] that has this LSN, rewritten by [f]:
    [op->set_...] on an operation that hangs in the index. *)
Definition update_op (node : nat) (lsn : Z)
  (f : TransactionOperation -> TransactionOperation) : M unit :=
  idx <- get_txn_index ;;
  n <- deref (idx !! node) ;;
  set_txn_index
    (<[node := {| node_key := node_key n;
                  node_ops := map (fun op => if op_lsn op =? lsn then f op
                                             else op) (node_ops n) |}]> idx).

(** [m_txn_index->get(key, 0)], and when there is no node
    [new TransactionNode(this, key)] and [m_txn_index->store(node)]; with
    the node comes [node_created]. *)
Definition get_or_create_node (key : ham_key_t) : M (nat * bool) :=
  idx <- get_txn_index ;;
  match txn_index_get idx key 0 with
  | Some node => ret (node, false)
  | None =>
      let (idx', node) := txn_index_store idx (new_TransactionNode key) in
      set_txn_index idx' ;;;
      ret (node, true)
  end.

(** [m_txn_index->remove(node); delete node;] *)
Definition remove_node (node : nat) : M unit :=
  idx <- get_txn_index ;;
  set_txn_index (txn_index_remove idx node).

(** [node->append(...)] on the node in the index. *)
Definition append_op (node : nat) (txn : Transaction)
  (orig_flags flags lsn : Z) (record : option ham_record_t)
  : M TransactionOperation :=
  idx <- get_txn_index ;;
  n <- deref (idx !! node) ;;
  let (n', op) := node_append n txn orig_flags flags lsn record in
  set_txn_index (<[node := n']> idx) ;;;
  ret op.

Definition journal_enabled (env : LocalEnvironment) : bool :=
  issetany (env_flags env) HAM_ENABLE_RECOVERY
  && issetany (env_flags env) HAM_ENABLE_TRANSACTIONS.

Definition insert_txn (txn : Transaction) (key : ham_key_t)
  (record : ham_record_t) (flags : Z) (cursor : option nat)
  : M ham_status_t :=
  (* get (or create) the node for this key *)
  nc <- get_or_create_node key ;;
  let (node, node_created) := nc : nat * bool in
  (* check for conflicts of this key *)
  idx <- get_txn_index ;;
  n <- deref (idx !! node) ;;
  st <- check_insert_conflicts (Some txn) n key flags ;;
  if failed st then
    when node_created (remove_node node) ;;;
    ret st
  else
    (* append a new operation to this node *)
    lsn <- get_incremented_lsn ;;
    op <- append_op node txn flags
            (Z.lor (Z.land flags HAM_PARTIAL)
               (if issetany flags HAM_DUPLICATE then kInsertDuplicate
                else if issetany flags HAM_OVERWRITE then kInsertOverwrite
                else kInsert))
            lsn (Some record) ;;
    (* if there's a cursor then couple it to the op *)
    match cursor with
    | Some c =>
        cur <- get_cursor c ;;
        when (negb (cursor_dupecache_index cur =? 0))
          (update_op node (op_lsn op)
             (fun o => set_referenced_dupe o (cursor_dupecache_index cur))) ;;;
        update_cursor c (fun cur => couple_to_op cur op) ;;;
        increment_dupe_index node c (cursor_dupecache_index cur)
    | None => ret tt
    end ;;;
    (* append journal entry *)
    env <- gets m_env ;;
    when (journal_enabled env)
      (modify (with_env (env_journal_append
         (JournalInsert (txn_id txn) key record
            (if issetany flags HAM_DUPLICATE then flags
             else Z.lor flags HAM_OVERWRITE)
            (op_lsn op))))) ;;;
    ret HAM_SUCCESS.

(** *** erase_txn *)

Definition erase_txn (txn : Transaction) (key : ham_key_t) (flags : Z)
  (cursor : option nat) : M ham_status_t :=
  let pc := cursor in
  (* get (or create) the node for this key *)
  nc <- get_or_create_node key ;;
  let (node, node_created) := nc : nat * bool in
  (* check for conflicts of this key - but only if we're not erasing a
     duplicate key *)
  pc_dupecache_index <- current_dupecache_index pc ;;
  st <- (if is_null pc || (pc_dupecache_index =? 0) then
           idx <- get_txn_index ;;
           n <- deref (idx !! node) ;;
           check_erase_conflicts (Some txn) n key flags
         else ret HAM_SUCCESS) ;;
  if failed st then
    when node_created (remove_node node) ;;;
    ret st
  else
    (* append a new operation to this node *)
    lsn <- get_incremented_lsn ;;
    op <- append_op node txn flags kErase lsn None ;;
    (* is this function called through ham_cursor_erase? then add the
       duplicate ID *)
    when (negb (is_null cursor) && negb (pc_dupecache_index =? 0))
      (update_op node (op_lsn op)
         (fun o => set_referenced_dupe o pc_dupecache_index)) ;;;
    nil_all_cursors_in_node txn pc node ;;;
    (* in addition we nil all btree cursors which are coupled to this key *)
    idx <- get_txn_index ;;
    n <- deref (idx !! node) ;;
    nil_all_cursors_in_btree pc (node_key n) ;;;
    (* append journal entry *)
    env <- gets m_env ;;
    when (journal_enabled env)
      (modify (with_env (env_journal_append
         (JournalErase (txn_id txn) key 0
            (Z.lor flags HAM_ERASE_ALL_DUPLICATES) (op_lsn op))))) ;;;
    ret HAM_SUCCESS.

(** *** find_txn *)

(** What [find_txn] hands back: the status, and the caller's key and record
    as the call leaves them. *)
Record find_result := mk_found {
  fr_status : ham_status_t;
  fr_key : ham_key_t;
  fr_record : option ham_record_t
}.

(** [LocalDatabase::copy_record]: the bytes of the operation's record go to
    the caller's record (to the arena, or to the caller's buffer with
    [HAM_RECORD_USER_ALLOC]: the same bytes either way). *)
Definition copy_record (txn : option Transaction) (op : TransactionOperation)
  (record : ham_record_t) : M (ham_status_t * ham_record_t) :=
  r <- deref (op_record op) ;;
  ret (HAM_SUCCESS,
       {| record_data := record_data r; record_flags := record_flags record |}).

(** [m_btree_index->find(cursor, key, key_arena, record, record_arena,
    flags)] with the caller's key and record written back. *)
Definition btree_find_into (cursor : option nat) (key : ham_key_t)
  (record : option ham_record_t) (flags : Z) : M find_result :=
  r <- btree_index_find cursor key flags ;;
  ret {| fr_status := bf_status r;
         fr_key := bf_key r;
         fr_record :=
           match record with
           | Some rec =>
               if failed (bf_status r) then Some rec
               else Some {| record_data := bf_record r;
                            record_flags := record_flags rec |}
           | None => None
           end |}.

(** The first operation of a chain that decides the [while (op)] loop of
    [find_txn], going from the newest to the oldest. *)
Inductive op_verdict :=
| VisibleErase (op : TransactionOperation)
| VisibleInsert (op : TransactionOperation)
| Unexpected          (* the branch behind ham_assert(!"shouldn't be here") *)
| Conflict            (* the txn is still active *)
| OffChain.           (* op == 0: nothing visible in this node *)

Fixpoint find_walk_ops (txn : option Transaction)
  (ops : list TransactionOperation) : op_verdict :=
  match ops with
  | [] => OffChain
  | op :: previous_in_node =>
      let optxn := op_txn op in
      if is_aborted optxn then find_walk_ops txn previous_in_node
      else if is_committed optxn || same_txn txn optxn then
        if issetany (op_flags op) kIsFlushed then
          find_walk_ops txn previous_in_node
        else if issetany (op_flags op) kErase then VisibleErase op
        else if issetany (op_flags op) kInsert
                || issetany (op_flags op) kInsertOverwrite
                || issetany (op_flags op) kInsertDuplicate then
          VisibleInsert op
        else if negb (issetany (op_flags op) kNop) then Unexpected
        else find_walk_ops txn previous_in_node
      else Conflict
  end.

(** How the walk over the nodes ([retry:] ... [goto retry]) ends. *)
Inductive walk_end :=
| WalkOffChain                              (* left the loop with op == 0 *)
| WalkNoSibling (op : TransactionOperation) (* erased, no sibling: break *)
| WalkErased (op : TransactionOperation)    (* erased, exact lookup *)
| WalkInsert (op : TransactionOperation)    (* a visible Insert* *)
| WalkUnexpected
| WalkConflict.

(** The variables the walk carries from node to node. *)
Record walk_state := mk_walk {
  ws_key : ham_key_t;
  ws_first_loop : bool;
  ws_exact_is_erased : bool
}.

(** The walk.  [siblings] are the nodes [get_previous_sibling()] yields with
    [HAM_FIND_LT_MATCH], else those [get_next_sibling()] yields. *)
Fixpoint find_walk (txn : option Transaction) (flags : Z)
  (siblings : list TransactionNode) (node : TransactionNode)
  (ws : walk_state) : walk_end * walk_state :=
  match find_walk_ops txn (node_ops node) with
  | OffChain => (WalkOffChain, ws)
  | Conflict => (WalkConflict, ws)
  | Unexpected => (WalkUnexpected, ws)
  | VisibleInsert op => (WalkInsert op, ws)
  | VisibleErase op =>
      let ws1 :=
        {| ws_key := ws_key ws;
           ws_first_loop := false;
           ws_exact_is_erased :=
             if ws_first_loop ws
                && negb (issetany (ham_key_get_intflags (ws_key ws))
                           kApproximate)
             then true else ws_exact_is_erased ws |} in
      if issetany flags HAM_FIND_LT_MATCH || issetany flags HAM_FIND_GT_MATCH
      then
        match siblings with
        | [] => (WalkNoSibling op, ws1)
        | sibling :: siblings' =>
            find_walk txn flags siblings' sibling
              {| ws_key :=
                   ham_key_set_intflags (ws_key ws1)
                     (Z.lor (ham_key_get_intflags (ws_key ws1))
                        kApproximate);
                 ws_first_loop := ws_first_loop ws1;
                 ws_exact_is_erased := ws_exact_is_erased ws1 |}
        end
      else (WalkErased op, ws1)
  end.

(** [cursor->get_txn_cursor()->couple_to_op(op); cursor->couple_to_txnop();] *)
Definition couple_cursor_to_op (c : Cursor) (op : TransactionOperation)
  : Cursor := couple_to_txnop (couple_to_op c op).

(** The exact lookup found the key erased (the tail of the [kErase] branch,
    from [st = HAM_KEY_NOT_FOUND] to [return (st)]; the two lines of merge
    markers in between are no code). *)
Definition find_txn_erased (cursor : option nat) (op : TransactionOperation)
  (key : ham_key_t) (record : option ham_record_t) : M find_result :=
  if_cursor cursor (fun c => couple_cursor_to_op c op) ;;;
  st <- (if 1 <? op_referenced_dupe op then
           (* not the first dupe - there are other dupes *)
           ret HAM_SUCCESS
         else if op_referenced_dupe op =? 1 then
           (* check if there are other dupes *)
           c <- deref cursor ;;
           cur <- get_cursor c ;;
           db <- gets id ;;
           let (cur', is_equal) := cursor_sync db cur in
           update_cursor c (fun _ => cur') ;;;
           when (negb is_equal) (update_cursor c (set_to_nil kBtree)) ;;;
           cur <- get_cursor c ;;
           db <- gets id ;;
           ret (if get_dupecache_count db cur =? 0 then HAM_KEY_NOT_FOUND
                else HAM_SUCCESS)
         else ret HAM_KEY_NOT_FOUND) ;;
  (if status_eqb st HAM_SUCCESS then
     c <- deref cursor ;;
     update_cursor c (fun c => couple_cursor_to_op c op)
   else ret tt) ;;;
  ret {| fr_status := st; fr_key := key; fr_record := record |}.

(** "use txn": the overlay's candidate goes back to the caller.  The bytes
    of [txnkey] are copied to the caller's key (into the arena, or into the
    caller's buffer with [HAM_KEY_USER_ALLOC]: the same bytes either way),
    [_flags] is the one of [txnkey]. *)
Definition find_txn_use_txn (cursor : option nat) (txn : option Transaction)
  (op : TransactionOperation) (key txnkey : ham_key_t)
  (record : option ham_record_t) : M find_result :=
  let key := {| key_data := key_data txnkey;
                key_flags := key_flags key;
                key_intflags := key_intflags txnkey |} in
  if_cursor cursor (fun c => couple_cursor_to_op c op) ;;;
  match record with
  | Some rec =>
      sr <- copy_record txn op rec ;;
      ret {| fr_status := fst sr; fr_key := key; fr_record := Some (snd sr) |}
  | None => ret {| fr_status := HAM_SUCCESS; fr_key := key; fr_record := None |}
  end.

(** [bool use_btree]: is the B-tree's key the closer one? *)
Definition use_btree (flags cmp : Z) : bool :=
  if issetany flags HAM_FIND_GT_MATCH then cmp <? 0
  else if issetany flags HAM_FIND_LT_MATCH then 0 <? cmp
  else false.

(** [ham_key_t txnkey]: the snapshot of the overlay's candidate. *)
Definition snapshot_txnkey (op : TransactionOperation) : ham_key_t :=
  {| key_data := key_data (op_node_key op);
     key_flags := 0;
     key_intflags := kApproximate |}.

(** The block behind [if (op && ham_key_get_intflags(key) &
    BtreeKey::kApproximate)]: the B-tree is asked for a better match.
    [reenter] is [find_txn] itself. *)
Definition find_txn_approx
  (reenter : option nat -> option Transaction -> ham_key_t
             -> option ham_record_t -> Z -> M find_result)
  (cursor : option nat) (txn : option Transaction)
  (op : TransactionOperation) (key : ham_key_t)
  (record : option ham_record_t) (flags : Z) (exact_is_erased : bool)
  : M find_result :=
  let txnkey := snapshot_txnkey op in
  let key := ham_key_set_intflags key 0 in
  (* the "exact match" key was erased? then don't fetch it again *)
  let flags := if exact_is_erased
               then Z.land flags (not32 HAM_FIND_EXACT_MATCH) else flags in
  (* now lookup in the btree *)
  if_cursor cursor (set_to_nil kBtree) ;;;
  r <- btree_find_into cursor key record flags ;;
  if status_eqb (fr_status r) HAM_KEY_NOT_FOUND then
    find_txn_use_txn cursor txn op (fr_key r) txnkey (fr_record r)
  else if failed (fr_status r) then ret r
  (* the btree key is a direct match? then return it *)
  else if negb (issetany (ham_key_get_intflags (fr_key r)) kApproximate)
          && issetany flags HAM_FIND_EXACT_MATCH then
    if_cursor cursor couple_to_btree ;;;
    ret {| fr_status := HAM_SUCCESS; fr_key := fr_key r;
           fr_record := fr_record r |}
  else
    let cmp := compare_keys (fr_key r) txnkey in
    if use_btree flags cmp then
      (* lookup again, with the same flags and the btree key *)
      r2 <- reenter cursor txn (fr_key r) (fr_record r)
              (Z.lor flags HAM_FIND_EXACT_MATCH) ;;
      ret (if status_eqb (fr_status r2) HAM_SUCCESS
           then {| fr_status := fr_status r2;
                   fr_key := ham_key_set_intflags (fr_key r2)
                               (Z.lor (ham_key_get_intflags (fr_key r2))
                                  kApproximate);
                   fr_record := fr_record r2 |}
           else r2)
    else find_txn_use_txn cursor txn op (fr_key r) txnkey (fr_record r).

(** The walk of one call: the key with its approximate bits cleared goes to
    the index, the chains are walked from the node the index answers. *)
Definition find_txn_walk (idx : TransactionIndex) (txn : option Transaction)
  (key : ham_key_t) (flags : Z) : option (walk_end * walk_state) :=
  let key := ham_key_set_intflags key
               (Z.land (ham_key_get_intflags key) (not32 kApproximate)) in
  let node := txn_index_get idx key flags in
  let ws := {| ws_key := key; ws_first_loop := true;
               ws_exact_is_erased := false |} in
  match node with
  | None => Some (WalkOffChain, ws)
  | Some n =>
      match idx !! n with
      | None => None
      | Some nd =>
          Some (find_walk txn flags
                  (if issetany flags HAM_FIND_LT_MATCH
                   then previous_siblings idx n else next_siblings idx n)
                  nd ws)
      end
  end.

Definition find_txn_body
  (reenter : option nat -> option Transaction -> ham_key_t
             -> option ham_record_t -> Z -> M find_result)
  (cursor : option nat) (txn : option Transaction) (key : ham_key_t)
  (record : option ham_record_t) (flags : Z) : M find_result :=
  idx <- get_txn_index ;;
  w <- deref (find_txn_walk idx txn key flags) ;;
  let key := ws_key (snd w) in
  let approximate := issetany (ham_key_get_intflags key) kApproximate in
  match fst w with
  | WalkConflict =>
      ret {| fr_status := HAM_TXN_CONFLICT; fr_key := key;
             fr_record := record |}
  | WalkUnexpected =>
      ret {| fr_status := HAM_KEY_NOT_FOUND; fr_key := key;
             fr_record := record |}
  | WalkErased op => find_txn_erased cursor op key record
  | WalkInsert op =>
      if_cursor cursor (fun c => couple_cursor_to_op c op) ;;;
      (* approx match? leave the loop and continue with the btree *)
      if approximate then
        find_txn_approx reenter cursor txn op key record flags
          (ws_exact_is_erased (snd w))
      else
        (* otherwise copy the record and return *)
        match record with
        | Some rec =>
            sr <- copy_record txn op rec ;;
            ret {| fr_status := fst sr; fr_key := key;
                   fr_record := Some (snd sr) |}
        | None =>
            ret {| fr_status := HAM_SUCCESS; fr_key := key;
                   fr_record := None |}
        end
  | WalkNoSibling op =>
      if approximate then
        find_txn_approx reenter cursor txn op key record flags
          (ws_exact_is_erased (snd w))
      else btree_find_into cursor key record flags
  | WalkOffChain => btree_find_into cursor key record flags
  end.

(** [find_txn]; [fuel] bounds the depth of the re-entries. *)
Fixpoint find_txn (fuel : nat) (cursor : option nat)
  (txn : option Transaction) (key : ham_key_t)
  (record : option ham_record_t) (flags : Z) : M find_result :=
  match fuel with
  | O => out_of_fuel
  | S fuel' => find_txn_body (find_txn fuel') cursor txn key record flags
  end.

(** *** create *)

(** [uint32_t persistent_flags] of [create], as it is handed to the
    [BtreeIndex]: the run-time flags without the per-session ones, with
    [HAM_FORCE_RECORDS_INLINE] for small fixed-length records. *)
Definition records_inline (page_size key_size record_size : Z) : bool :=
  negb (record_size =? HAM_RECORD_SIZE_UNLIMITED)
  && ((record_size <=? 8)
      || ((record_size <=? kInlineRecordThreshold)
          && (500 <? page_size / ((key_size + record_size) mod 2 ^ 32)))).

Definition stripped_flags (rt_flags : Z) : Z :=
  Z.land rt_flags
    (not32 (Z.lor HAM_CACHE_UNLIMITED
           (Z.lor HAM_DISABLE_MMAP
           (Z.lor HAM_ENABLE_FSYNC
           (Z.lor HAM_READ_ONLY
           (Z.lor HAM_ENABLE_RECOVERY
           (Z.lor HAM_AUTO_RECOVERY HAM_ENABLE_TRANSACTIONS))))))).

Definition create_persistent_flags (rt_flags page_size key_size record_size : Z)
  : Z :=
  if records_inline page_size key_size record_size
  then Z.lor (stripped_flags rt_flags) HAM_FORCE_RECORDS_INLINE
  else stripped_flags rt_flags.

(** [switch (m_config.key_type)]: the fixed-width types set the key size. *)
Definition create_key_size (cfg : DatabaseConfiguration) : Z :=
  if cfg_key_type cfg =? HAM_TYPE_UINT8 then 1
  else if cfg_key_type cfg =? HAM_TYPE_UINT16 then 2
  else if (cfg_key_type cfg =? HAM_TYPE_REAL32)
          || (cfg_key_type cfg =? HAM_TYPE_UINT32) then 4
  else if (cfg_key_type cfg =? HAM_TYPE_REAL64)
          || (cfg_key_type cfg =? HAM_TYPE_UINT64) then 8
  else cfg_key_size cfg.

Definition create (descriptor : Z) : M ham_status_t :=
  rt_flags <- gets m_rt_flags ;;
  cfg <- gets m_config ;;
  let key_size := create_key_size cfg in
  modify (with_config {| cfg_key_type := cfg_key_type cfg;
                         cfg_key_size := key_size;
                         cfg_record_size := cfg_record_size cfg;
                         cfg_flags := cfg_flags cfg |}) ;;;
  page_size <- gets (fun db => env_page_size (m_env db)) ;;
  (* if we cannot fit at least 10 keys in a page then refuse to continue *)
  if negb (key_size =? HAM_KEY_SIZE_UNLIMITED)
     && (page_size / (key_size + 8) <? 10)
  then ret HAM_INV_KEY_SIZE
  else
    let record_size := cfg_record_size cfg in
    when (records_inline page_size key_size record_size)
      (modify (with_config
         {| cfg_key_type := cfg_key_type cfg;
            cfg_key_size := key_size;
            cfg_record_size := record_size;
            cfg_flags := Z.lor (cfg_flags cfg) HAM_FORCE_RECORDS_INLINE |})) ;;;
    (* create the btree *)
    modify (with_btree_index
      (Some (btree_create descriptor
               (create_persistent_flags rt_flags page_size key_size
                  record_size)
               (cfg_key_type cfg) key_size record_size))) ;;;
    (* and the TransactionIndex *)
    modify (with_txn_index (Some [])) ;;;
    ret HAM_SUCCESS.

(** *** close_impl *)

(** Modelled from the spec: [Database::set_error], declared in 4db/db.h,
    stores the status in the handle and hands it back; closing with an open
    transaction "yields TxnStillOpen" (P9). *)
Definition set_error (st : ham_status_t) : M ham_status_t :=
  modify (with_error st) ;;; ret st.

(** The inner loop of [close_impl]: is there an operation in the chain whose
    transaction is neither committed nor aborted? *)
Fixpoint close_walk_ops (ops : list TransactionOperation) : bool :=
  match ops with
  | [] => false
  | op :: previous_in_node =>
      let optxn := op_txn op in
      if negb (is_committed optxn) && negb (is_aborted optxn) then true
      else close_walk_ops previous_in_node
  end.

(** The outer loop, from [get_first()] along [get_next_sibling()]. *)
Fixpoint close_walk_nodes (nodes : list TransactionNode) : bool :=
  match nodes with
  | [] => false
  | node :: next_sibling =>
      if close_walk_ops (node_ops node) then true
      else close_walk_nodes next_sibling
  end.

Definition close_impl (flags : Z) : M ham_status_t :=
  (* check if this database is modified by an active transaction *)
  idx <- gets m_txn_index ;;
  if match idx with Some nodes => close_walk_nodes nodes | None => false end
  then set_error HAM_TXN_STILL_OPEN
  else
    env <- gets m_env ;;
    (* flush all committed transactions *)
    when (env_txn_manager env) (log EvFlushCommittedTxns) ;;;
    (* in-memory-database: free all allocated blobs *)
    bt <- gets m_btree_index ;;
    when (negb (is_null bt) && issetany (env_flags env) HAM_IN_MEMORY)
      (log EvBtreeRelease) ;;;
    (* flush all pages of this database *)
    log EvCloseDatabase ;;;
    ret HAM_SUCCESS.

(** *** flush_txn_operation *)

(** [m_btree_index->insert(cursor, key, record, flags)]; a cursor that is
    passed ends up coupled to the slot of the key. *)
Definition btree_index_insert (cursor : option nat) (key : ham_key_t)
  (record : option ham_record_t) (flags : Z) : M ham_status_t :=
  bt <- gets m_btree_index ;;
  bt <- deref bt ;;
  log (EvBtreeInsert key flags) ;;;
  let (st, bt') := btree_insert bt key record flags in
  modify (with_btree_index (Some bt')) ;;;
  when (negb (failed st))
    (if_cursor cursor (fun c => with_btree_cursor c (Some key))) ;;;
  ret st.

(** [m_btree_index->erase(cursor, key, duplicate_index, flags)] *)
Definition btree_index_erase (cursor : option nat) (key : option ham_key_t)
  (duplicate_index flags : Z) : M ham_status_t :=
  bt <- gets m_btree_index ;;
  bt <- deref bt ;;
  slot <- match cursor with
          | Some c => cur <- get_cursor c ;; ret (cursor_btree cur)
          | None => ret None
          end ;;
  log (EvBtreeErase key duplicate_index flags) ;;;
  let (st, bt') := btree_erase bt slot key duplicate_index flags in
  modify (with_btree_index (Some bt')) ;;;
  ret st.

Definition flush_txn_operation (txn : Transaction)
  (op : TransactionOperation) : M ham_status_t :=
  let key := op_node_key op in      (* node->get_key() *)
  if issetany (op_flags op) kInsert
     || issetany (op_flags op) kInsertOverwrite
     || issetany (op_flags op) kInsertDuplicate
  then
    let additional_flag :=
      if issetany (op_flags op) kInsertDuplicate
      then HAM_DUPLICATE else HAM_OVERWRITE in
    cs <- gets m_cursor_list ;;
    match get_cursor_list op cs with
    | [] =>
        btree_index_insert None key (op_record op)
          (Z.lor (op_orig_flags op) additional_flag)
    | c1 :: _ =>
        (* pick the first cursor and insert the key/record pair in the
           btree; the btree cursor then will be coupled to this item *)
        st <- btree_index_insert (Some c1) key (op_record op)
                (Z.lor (op_orig_flags op) additional_flag) ;;
        when (negb (failed st))
          ((* uncouple the cursor from the txn-op, and remove it *)
           update_cursor c1 (fun c => set_to_nil kTxn (couple_to_btree c)) ;;;
           (* all other (btree) cursors need to be coupled to the same
              item as the first one *)
           cur1 <- get_cursor c1 ;;
           modify (fun db =>
             with_cursor_list
               (map (fun c2 =>
                       match cursor_txn_coupled_op c2 with
                       | Some l =>
                           if l =? op_lsn op
                           then set_to_nil kTxn
                                  (couple_to_btree
                                     (with_btree_cursor c2
                                        (cursor_btree cur1)))
                           else c2
                       | None => c2
                       end) (m_cursor_list db))
               db)) ;;;
        ret st
    end
  else if issetany (op_flags op) kErase then
    st <- btree_index_erase None (Some key) (op_referenced_dupe op)
            (op_flags op) ;;
    ret (if status_eqb st HAM_KEY_NOT_FOUND then HAM_SUCCESS else st)
  else ret HAM_SUCCESS.

(** *** finalize *)

Definition with_txn_state (committed aborted : bool) (id : nat)
  (op : TransactionOperation) : TransactionOperation :=
  if Nat.eqb (txn_id (op_txn op)) id then
    {| op_txn := {| txn_id := id; txn_flags := txn_flags (op_txn op);
                    txn_committed := committed; txn_aborted := aborted |};
       op_node_key := op_node_key op; op_flags := op_flags op;
       op_orig_flags := op_orig_flags op; op_lsn := op_lsn op;
       op_referenced_dupe := op_referenced_dupe op;
       op_record := op_record op |}
  else op.

(** Modelled from the spec: the transaction manager ([TxnManager], behind
    [env->get_txn_manager()]).  [begin] hands out a fresh transaction;
    [commit] and [abort] terminate it, which every operation of the
    transaction shows from then on (section 5: "an abort drops every op
    belonging to that transaction from visibility instantly ... without
    editing node op chains"). *)
Definition txn_manager : M unit :=
  env <- gets m_env ;;
  if env_txn_manager env then ret tt else undefined.

Definition txn_manager_begin (flags : Z) : M Transaction :=
  txn_manager ;;;
  id <- gets (fun db => env_next_txn_id (m_env db)) ;;
  modify (with_env (env_set_next_txn_id (S id))) ;;;
  log (EvTxnBegin id) ;;;
  ret {| txn_id := id; txn_flags := flags;
         txn_committed := false; txn_aborted := false |}.

Definition txn_manager_terminate (committed aborted : bool)
  (txn : Transaction) : M unit :=
  txn_manager ;;;
  modify (fun db =>
    with_txn_index
      (map (fun n =>
              {| node_key := node_key n;
                 node_ops := map (with_txn_state committed aborted
                                    (txn_id txn)) (node_ops n) |})
         <$> m_txn_index db)
      db).

Definition txn_manager_commit (txn : Transaction) : M unit :=
  txn_manager_terminate true false txn ;;; log (EvTxnCommit (txn_id txn)).

Definition txn_manager_abort (txn : Transaction) : M unit :=
  txn_manager_terminate false true txn ;;; log (EvTxnAbort (txn_id txn)).

Definition finalize (status : ham_status_t) (local_txn : option Transaction)
  : M ham_status_t :=
  if failed status then
    match local_txn with
    | Some t => log EvChangesetClear ;;; txn_manager_abort t
    | None => ret tt
    end ;;;
    ret status
  else
    env <- gets m_env ;;
    match local_txn with
    | Some t => log EvChangesetClear ;;; txn_manager_commit t
    | None =>
        if issetany (env_flags env) HAM_ENABLE_RECOVERY
           && negb (issetany (env_flags env) HAM_ENABLE_TRANSACTIONS)
        then
          lsn <- get_incremented_lsn ;;
          log (EvChangesetFlush lsn)
        else ret tt
    end ;;;
    ret HAM_SUCCESS.

(** [FINALIZE_ON_SCOPE_EXIT(db, st, txn)]: when the scope is left,
    [db->finalize(st, txn)] runs once more.  BOOST_SCOPE_EXIT captures [st]
    and [txn] by value where the macro stands, at the top of the function,
    where both are 0. *)
Definition FINALIZE_ON_SCOPE_EXIT {A} (body : M A) : M A :=
  fun db =>
    match body db with
    | Ok a db' =>
        match finalize HAM_SUCCESS None db' with
        | Ok _ db'' => Ok a db''
        | Throw st db'' => Throw st db''
        | Undefined => Undefined
        | OutOfFuel => OutOfFuel
        end
    | Throw st db' =>
        match finalize HAM_SUCCESS None db' with
        | Ok _ db'' => Throw st db''
        | Throw st' db'' => Throw st' db''
        | Undefined => Undefined
        | OutOfFuel => OutOfFuel
        end
    | Undefined => Undefined
    | OutOfFuel => OutOfFuel
    end.

(** *** erase_impl and cursor_erase *)

(** The operation with this LSN: following the pointer of a cursor's
    transactional side. *)
Fixpoint find_op (idx : TransactionIndex) (lsn : Z)
  : option TransactionOperation :=
  match idx with
  | [] => None
  | n :: rest =>
      match find (fun op => op_lsn op =? lsn) (node_ops n) with
      | Some op => Some op
      | None => find_op rest lsn
      end
  end.

Definition get_coupled_op (c : Cursor) : M TransactionOperation :=
  lsn <- deref (cursor_txn_coupled_op c) ;;
  idx <- get_txn_index ;;
  deref (find_op idx lsn).

Definition erase_impl (cursor : option nat) (htxn : option Transaction)
  (key : option ham_key_t) (flags : Z) : M ham_status_t :=
  FINALIZE_ON_SCOPE_EXIT
   (let txn := htxn in
    cfg <- gets m_config ;;
    if match key with
       | Some k => negb (cfg_key_size cfg =? HAM_KEY_SIZE_UNLIMITED)
                   && negb (key_size k =? cfg_key_size cfg)
       | None => false
       end
    then ret HAM_INV_KEY_SIZE
    else
      rt_flags <- gets m_rt_flags ;;
      local_txn <-
        (if is_null txn && issetany rt_flags HAM_ENABLE_TRANSACTIONS then
           t <- txn_manager_begin HAM_TXN_TEMPORARY ;;
           if_cursor cursor (fun c => with_cursor_txn c (Some t)) ;;;
           ret (Some t)
         else ret None) ;;
      let txn := if is_null txn && issetany rt_flags HAM_ENABLE_TRANSACTIONS
                 then local_txn else txn in
      (* if transactions are enabled: append a 'erase key' operation into
         the txn tree; otherwise immediately erase the key from disk *)
      st <- match txn with
            | None => btree_index_erase cursor key 0 flags
            | Some t =>
                match cursor with
                | Some c =>
                    cur <- get_cursor c ;;
                    st <- (if is_coupled_to_btree cur then
                             (* case 1: coupled to a btree item *)
                             update_cursor c (set_to_nil kTxn) ;;;
                             k <- deref (cursor_btree cur) ;;
                             erase_txn t k 0 (Some c)
                           else
                             (* case 2: coupled to a txn-op *)
                             op <- get_coupled_op cur ;;
                             erase_txn t (op_node_key op) 0 (Some c)) ;;
                    when (negb (is_null local_txn))
                      (update_cursor c (fun c => with_cursor_txn c None)) ;;;
                    ret st
                | None =>
                    k <- deref key ;;
                    erase_txn t k flags None
                end
            end ;;
      (* on success: verify that cursor is now nil *)
      when (negb (failed st))
        (if_cursor cursor
           (fun c => clear_dupecache (couple_to_btree (set_to_nil kAny c)))) ;;;
      finalize st local_txn).

Definition cursor_erase (cursor : nat) (flags : Z) : M ham_status_t :=
  cur <- get_cursor cursor ;;
  if is_nil kAny cur then throw HAM_CURSOR_IS_NIL
  else
    key <- (if is_coupled_to_txnop cur then
              op <- get_coupled_op cur ;;
              ret (Some (op_node_key op))
            else ret None) ;;
    erase_impl (Some cursor) (cursor_txn cur) key flags.

End Methods.

(** ** More of the facade: find_impl and cursor_move *)

(** The directions of [ham_cursor_move]; [ham/hamsterdb.h] gives these names
    their values.  The development is parametric in them;
    [hamsterdb_cursor_constants] is an instance, one bit per direction. *)
Class cursor_constants := {
  HAM_CURSOR_FIRST : Z;
  HAM_CURSOR_LAST : Z;
  HAM_CURSOR_NEXT : Z;
  HAM_CURSOR_PREVIOUS : Z
}.

#[export] Instance hamsterdb_cursor_constants : cursor_constants := {|
  HAM_CURSOR_FIRST := 0x1;
  HAM_CURSOR_LAST := 0x2;
  HAM_CURSOR_NEXT := 0x4;
  HAM_CURSOR_PREVIOUS := 0x8
|}.

(** What a cursor movement leaves behind: the status, the caller's key and
    record, and the database (the cursor moved inside it). *)
Record move_result {C : Collaborators} := mk_moved {
  mv_status : ham_status_t;
  mv_key : ham_key_t;
  mv_record : option ham_record_t;
  mv_db : LocalDatabase Btree
}.

(** The movers [cursor_move] hands the work to; their code is in
    4cursor/cursor.cc and 3btree/btree_cursor.cc. *)
Class Movers {C : Collaborators} := {
  (* Cursor::is_first_use() *)
  is_first_use : LocalDatabase Btree -> nat -> bool;
  (* Cursor::move(key, record, flags) *)
  cursor_move_both :
    LocalDatabase Btree -> nat -> ham_key_t -> option ham_record_t -> Z
    -> move_result;
  (* BtreeCursor::move(key, key_arena, record, record_arena, flags) *)
  btree_cursor_move :
    LocalDatabase Btree -> nat -> ham_key_t -> option ham_record_t -> Z
    -> move_result
}.

Section Facade.

Context {K : ham_constants} {KC : cursor_constants}.
Context {C : Collaborators} {MV : Movers}.

(** [get_local_env()->get_page_manager()->purge_cache()] *)
Definition purge_cache : M unit := log EvPurgeCache.

(** *** find_impl *)

(** [find_impl] (the definition that leaves through [finalize]); [fuel]
    bounds the re-entries of [find_txn]. *)
Definition find_impl (fuel : nat) (cursor : option nat)
  (htxn : option Transaction) (key : ham_key_t)
  (record : option ham_record_t) (flags : Z) : M find_result :=
  FINALIZE_ON_SCOPE_EXIT
   (let txn := htxn in
    cfg <- gets m_config ;;
    if negb (cfg_key_size cfg =? HAM_KEY_SIZE_UNLIMITED)
       && negb (key_size key =? cfg_key_size cfg)
    then ret {| fr_status := HAM_INV_KEY_SIZE; fr_key := key;
                fr_record := record |}
    else
      (* purge cache if necessary *)
      purge_cache ;;;
      rt_flags <- gets m_rt_flags ;;
      local_txn <-
        (if is_null txn && issetany rt_flags HAM_ENABLE_TRANSACTIONS then
           t <- txn_manager_begin HAM_TXN_TEMPORARY ;;
           if_cursor cursor (fun c => with_cursor_txn c (Some t)) ;;;
           ret (Some t)
         else ret None) ;;
      let txn := if is_null txn && issetany rt_flags HAM_ENABLE_TRANSACTIONS
                 then local_txn else txn in
      (* if transactions are enabled: read keys from transaction trees,
         otherwise read immediately from disk *)
      r <- match txn with
           | Some t => find_txn fuel cursor (Some t) key record flags
           | None => btree_find_into cursor key record flags
           end ;;
      when (negb (is_null local_txn))
        (if_cursor cursor (fun c => with_cursor_txn c None)) ;;;
      st <- finalize (fr_status r) local_txn ;;
      ret {| fr_status := st; fr_key := fr_key r;
             fr_record := fr_record r |}).

(** *** cursor_move *)

(** The flags [cursor_move] works with: on a nil cursor NEXT becomes FIRST
    (the cursor was never used) or LAST, and PREVIOUS becomes LAST or
    FIRST. *)
Definition cursor_move_flags (nil first_use : bool) (flags : Z) : Z :=
  if nil then
    if issetany flags HAM_CURSOR_NEXT then
      let flags := Z.land flags (not32 HAM_CURSOR_NEXT) in
      if first_use then Z.lor flags HAM_CURSOR_FIRST
      else Z.lor flags HAM_CURSOR_LAST
    else if issetany flags HAM_CURSOR_PREVIOUS then
      let flags := Z.land flags (not32 HAM_CURSOR_PREVIOUS) in
      if first_use then Z.lor flags HAM_CURSOR_LAST
      else Z.lor flags HAM_CURSOR_FIRST
    else flags
  else flags.

(** "store the direction" *)
Definition direction (flags : Z) : Z :=
  if issetany flags HAM_CURSOR_NEXT then HAM_CURSOR_NEXT
  else if issetany flags HAM_CURSOR_PREVIOUS then HAM_CURSOR_PREVIOUS
  else 0.

(** A call of a mover: its answer is taken over. *)
Definition moved (r : move_result) : M find_result :=
  modify (fun _ => mv_db r) ;;;
  ret {| fr_status := mv_status r; fr_key := mv_key r;
         fr_record := mv_record r |}.

Definition cursor_move (cursor : nat) (key : ham_key_t)
  (record : option ham_record_t) (flags : Z) : M find_result :=
  (* purge cache if necessary *)
  purge_cache ;;;
  cur <- get_cursor cursor ;;
  db <- gets id ;;
  let flags := cursor_move_flags (is_nil kAny cur) (is_first_use db cursor)
                 flags in
  rt_flags <- gets m_rt_flags ;;
  (* in non-transactional mode - just call the btree function and return *)
  if negb (issetany rt_flags HAM_ENABLE_TRANSACTIONS) then
    db <- gets id ;;
    moved (btree_cursor_move db cursor key record flags)
  else
    (* everything else is handled by the cursor function *)
    db <- gets id ;;
    r <- moved (cursor_move_both db cursor key record flags) ;;
    (* store the direction *)
    update_cursor cursor (fun c => set_lastop c (direction flags)) ;;;
    if failed (fr_status r) then
      (* trigger a sync when the function is called again *)
      update_cursor cursor (fun c => set_lastop c 0) ;;;
      ret {| fr_status :=
               if status_eqb (fr_status r) HAM_KEY_ERASED_IN_TXN
               then HAM_KEY_NOT_FOUND else fr_status r;
             fr_key := fr_key r; fr_record := fr_record r |}
    else
      ret {| fr_status := HAM_SUCCESS; fr_key := fr_key r;
             fr_record := fr_record r |}.

End Facade.

(** ** A reference implementation of the collaborators

    A B-tree over one-byte keys, kept as a sorted association list, with the
    lookups the facade asks for.  It instantiates the development on
    concrete databases. *)

Module Reference.

Definition key_value (k : ham_key_t) : Z := hd 0 (key_data k).

Definition compare (a b : ham_key_t) : Z := key_value a - key_value b.

Definition tree := list (Z * list Z).

Definition found (key : ham_key_t) (bit : Z) (hit : option (Z * list Z))
  : btree_find_result :=
  match hit with
  | Some (k, r) =>
      {| bf_status := HAM_SUCCESS;
         bf_key := {| key_data := [k]; key_flags := key_flags key;
                      key_intflags := Z.lor (key_intflags key) bit |};
         bf_record := r |}
  | None =>
      {| bf_status := HAM_KEY_NOT_FOUND; bf_key := key; bf_record := [] |}
  end.

Definition find (bt : tree) (key : ham_key_t) (flags : Z)
  : btree_find_result :=
  let k := key_value key in
  let exact := List.find (fun p => fst p =? k) bt in
  let greater := List.find (fun p => k <? fst p) bt in
  let lower := List.find (fun p => fst p <? k) (rev bt) in
  let lt := issetany flags HAM_FIND_LT_MATCH in
  let gt := issetany flags HAM_FIND_GT_MATCH in
  if (issetany flags HAM_FIND_EXACT_MATCH || negb (lt || gt))
     && negb (is_null exact)
  then found key 0 exact
  else if gt then found key kGreater greater
  else if lt then found key kLower lower
  else found key 0 None.

Fixpoint put (bt : tree) (k : Z) (r : list Z) : tree :=
  match bt with
  | [] => [(k, r)]
  | (k', r') :: rest =>
      if k <? k' then (k, r) :: bt
      else if k =? k' then (k, r) :: rest
      else (k', r') :: put rest k r
  end.

Definition insert (bt : tree) (key : ham_key_t)
  (record : option ham_record_t) (flags : Z) : ham_status_t * tree :=
  let k := key_value key in
  let r := match record with Some rec => record_data rec | None => [] end in
  if negb (is_null (List.find (fun p => fst p =? k) bt))
     && negb (issetany flags HAM_OVERWRITE)
  then (HAM_DUPLICATE_KEY, bt)
  else (HAM_SUCCESS, put bt k r).

Definition erase (bt : tree) (slot key : option ham_key_t)
  (duplicate_index flags : Z) : ham_status_t * tree :=
  match (match key with Some k => Some k | None => slot end) with
  | Some key =>
      let k := key_value key in
      if is_null (List.find (fun p => fst p =? k) bt)
      then (HAM_KEY_NOT_FOUND, bt)
      else (HAM_SUCCESS, filter (fun p => negb (fst p =? k)) bt)
  | None => (HAM_KEY_NOT_FOUND, bt)
  end.

#[global] Instance collaborators : Collaborators := {|
  Btree := tree;
  compare_keys := compare;
  btree_find := find;
  btree_insert := insert;
  btree_erase := erase;
  btree_create := fun _ _ _ _ _ => [];
  cursor_sync := fun _ c => (c, true);
  get_dupecache_count := fun _ _ => 0
|}.

(** Keys, records and transactions of the examples. *)
Definition key (k : Z) : ham_key_t :=
  {| key_data := [k]; key_flags := 0; key_intflags := 0 |}.

Definition record (r : Z) : ham_record_t :=
  {| record_data := [r]; record_flags := 0 |}.

Definition committed (id : nat) : Transaction :=
  {| txn_id := id; txn_flags := 0; txn_committed := true;
     txn_aborted := false |}.

Definition active (id : nat) : Transaction :=
  {| txn_id := id; txn_flags := 0; txn_committed := false;
     txn_aborted := false |}.

Definition op (t : Transaction) (k flags lsn dupe : Z)
  (r : option ham_record_t) : TransactionOperation :=
  {| op_txn := t; op_node_key := key k; op_flags := flags;
     op_orig_flags := 0; op_lsn := lsn; op_referenced_dupe := dupe;
     op_record := r |}.

Definition nil_cursor : Cursor :=
  {| cursor_txn := None; cursor_coupled_to_txnop := false;
     cursor_txn_coupled_op := None; cursor_btree := None;
     cursor_dupecache_index := 0; cursor_lastop := 0 |}.

Definition env (flags : Z) : LocalEnvironment :=
  {| env_flags := flags; env_page_size := 16384; env_lsn := 10;
     env_journal := []; env_txn_manager := true; env_next_txn_id := 100;
     env_trace := [] |}.

Definition config : DatabaseConfiguration :=
  {| cfg_key_type := 0; cfg_key_size := 1;
     cfg_record_size := HAM_RECORD_SIZE_UNLIMITED; cfg_flags := 0 |}.

Definition db (env_flags : Z) (idx : TransactionIndex) (bt : tree)
  (cursors : list Cursor) : LocalDatabase tree :=
  {| m_env := env env_flags; m_rt_flags := env_flags; m_config := config;
     m_txn_index := Some idx; m_btree_index := Some bt;
     m_cursor_list := cursors; m_error := HAM_SUCCESS |}.

End Reference.


(** ** Databases of the examples *)

Module Scenario.

Import Reference.


Definition insert7 : TransactionOperation :=
  op (committed 1) 7 kInsert 5 0 (Some (record 70)).

(** Key 3 is in the B-tree and erased, all duplicates, by a committed
    transaction; the database has one cursor, which is nil. *)
Definition erase3 : TransactionOperation :=
  op (committed 1) 3 kErase 5 0 None.
Definition overlay_erased3 : TransactionIndex :=
  [ {| node_key := key 3; node_ops := [erase3] |} ].
Definition db_erased3 : LocalDatabase tree :=
  db HAM_ENABLE_TRANSACTIONS overlay_erased3 [(3, [30])] [nil_cursor].

(** Key 5 is in the B-tree only. *)
Definition db_btree5 : LocalDatabase tree :=
  db HAM_ENABLE_TRANSACTIONS [] [(5, [50])] [].

(** Recovery and transactions are enabled; a cursor stands on the second
    duplicate of key 3 in the B-tree. *)
Definition cursor_on_dupe2 : Cursor :=
  {| cursor_txn := None; cursor_coupled_to_txnop := false;
     cursor_txn_coupled_op := None; cursor_btree := Some (key 3);
     cursor_dupecache_index := 2; cursor_lastop := 0 |}.
Definition db_journaled : LocalDatabase tree :=
  db (Z.lor HAM_ENABLE_RECOVERY HAM_ENABLE_TRANSACTIONS) [] [(3, [30])]
     [cursor_on_dupe2].

(** Recovery without transactions. *)
Definition db_recovery : LocalDatabase tree := db HAM_ENABLE_RECOVERY [] [] [].

(** A transaction that is still active has inserted key 3. *)
Definition insert3_active : TransactionOperation :=
  op (active 2) 3 kInsert 6 0 (Some (record 1)).
Definition node3_active : TransactionNode :=
  {| node_key := key 3; node_ops := [insert3_active] |}.
Definition db_active : LocalDatabase tree :=
  db HAM_ENABLE_TRANSACTIONS [node3_active] [] [].

(** A database about to be created: pages of 64 KB, binary keys of 122
    bytes, records of 9 bytes; 65536 / (122 + 9) = 500. *)
Definition db_to_create : LocalDatabase tree :=
  {| m_env := {| env_flags := 0; env_page_size := 65536; env_lsn := 0;
                 env_journal := []; env_txn_manager := true;
                 env_next_txn_id := 0; env_trace := [] |};
     m_rt_flags := 0;
     m_config := {| cfg_key_type := 0; cfg_key_size := 122;
                    cfg_record_size := 9; cfg_flags := 0 |};
     m_txn_index := None; m_btree_index := None;
     m_cursor_list := []; m_error := HAM_SUCCESS |}.

End Scenario.

(** ** The vocabulary of the statements *)

Section Vocabulary.

Context {K : ham_constants} {C : Collaborators}.

(** "Uniqueness matters": no [Overwrite], no [Duplicate], not a
    record-number database. *)
Definition uniqueness_matters (flags rt_flags : Z) : bool :=
  notset flags HAM_OVERWRITE && notset flags HAM_DUPLICATE
  && notset rt_flags HAM_RECORD_NUMBER32
  && notset rt_flags HAM_RECORD_NUMBER64.

(** What a B-tree status becomes for the insert. *)
Definition insert_verdict (st : ham_status_t) : ham_status_t :=
  match st with
  | HAM_KEY_NOT_FOUND => HAM_SUCCESS
  | HAM_SUCCESS => HAM_DUPLICATE_KEY
  | other => other
  end.

(** The kind of the operation is Erase: the erase bit and none of the
    insert bits. *)
Definition is_erase_op (op : TransactionOperation) : bool :=
  issetany (op_flags op) kErase
  && negb (issetany (op_flags op) kInsert)
  && negb (issetany (op_flags op) kInsertOverwrite)
  && negb (issetany (op_flags op) kInsertDuplicate).

(** What a step leaves of the environment: the journal, the flags and the
    LSN counter. *)
Definition same_journal (db db' : LocalDatabase Btree) : Prop :=
  env_journal (m_env db') = env_journal (m_env db)
  /\ env_flags (m_env db') = env_flags (m_env db)
  /\ env_lsn (m_env db') = env_lsn (m_env db).

(** The cursor behind a [Cursor*] that may be null, rewritten in place. *)
Definition set_cursor (cursor : option nat) (f : Cursor -> Cursor)
  (db : LocalDatabase Btree) : LocalDatabase Btree :=
  match cursor with
  | Some c =>
      match m_cursor_list db !! c with
      | Some cur => with_cursor_list (<[c := f cur]> (m_cursor_list db)) db
      | None => db
      end
  | None => db
  end.

(** The pointer is null or points to a cursor of the database. *)
Definition valid_cursor (cursor : option nat) (db : LocalDatabase Btree)
  : Prop :=
  match cursor with
  | Some c => is_Some (m_cursor_list db !! c)
  | None => True
  end.



(** The record as the B-tree lookup leaves it. *)
Definition record_after_find (record : option ham_record_t)
  (r : btree_find_result) : option ham_record_t :=
  match record with
  | Some rec =>
      if failed (bf_status r) then Some rec
      else Some {| record_data := bf_record r;
                   record_flags := record_flags rec |}
  | None => None
  end.

(** The transactional side of the cursor is coupled to the operation with
    this LSN. *)
Definition coupled_to (lsn : Z) (c : Cursor) : bool :=
  match cursor_txn_coupled_op c with
  | Some l => l =? lsn
  | None => false
  end.



End Vocabulary.

(** ** More vocabulary: what the statements about the rest of the facade
    speak of *)

Section MoreVocabulary.

Context {K : ham_constants} {KC : cursor_constants} {C : Collaborators}.

(** An operation the walks step over: its transaction was aborted, or it is
    visible to the caller and was flushed to the B-tree already. *)
Definition is_skipped (txn : option Transaction) (op : TransactionOperation)
  : bool :=
  is_aborted (op_txn op)
  || ((is_committed (op_txn op) || same_txn txn (op_txn op))
      && issetany (op_flags op) kIsFlushed).

(** An operation of somebody else's transaction that is still running. *)
Definition is_foreign_active (txn : option Transaction)
  (op : TransactionOperation) : bool :=
  negb (is_aborted (op_txn op))
  && negb (is_committed (op_txn op) || same_txn txn (op_txn op)).

(** The transaction of the operation has ended. *)
Definition is_terminated (op : TransactionOperation) : bool :=
  is_committed (op_txn op) || is_aborted (op_txn op).

(** No operation in the index belongs to a running transaction; also when
    there is no index yet. *)
Definition no_active_txn (idx : option TransactionIndex) : bool :=
  match idx with
  | Some nodes =>
      forallb (fun n => forallb is_terminated (node_ops n)) nodes
  | None => true
  end.

(** The calls [close_impl] makes when it closes the database. *)
Definition closing_events (db : LocalDatabase Btree) : list Event :=
  (if env_txn_manager (m_env db) then [EvFlushCommittedTxns] else [])
  ++ (if negb (is_null (m_btree_index db))
         && issetany (env_flags (m_env db)) HAM_IN_MEMORY
      then [EvBtreeRelease] else [])
  ++ [EvCloseDatabase].

(** The flags of one session, which [create] and [open] keep away from the
    B-tree. *)
Definition session_flags : list Z :=
  [HAM_CACHE_UNLIMITED; HAM_DISABLE_MMAP; HAM_ENABLE_FSYNC; HAM_READ_ONLY;
   HAM_ENABLE_RECOVERY; HAM_AUTO_RECOVERY; HAM_ENABLE_TRANSACTIONS].

(** Every result of the computation is related to the state it started
    from. *)
Definition keeps {A} (R : LocalDatabase Btree -> LocalDatabase Btree -> Prop)
  (m : M A) : Prop :=
  forall db a db', m db = Ok a db' -> R db db'.

Definition is_btree_find (e : Event) : bool :=
  match e with EvBtreeFind _ _ => true | _ => false end.

(** The database without its cursors and without the trace of calls; of the
    cursors, their number. *)
Definition beyond_cursors (db : LocalDatabase Btree) :=
  (m_txn_index db, m_btree_index db, m_config db, m_rt_flags db, m_error db,
   (env_flags (m_env db), env_page_size (m_env db), env_lsn (m_env db),
    env_journal (m_env db), env_txn_manager (m_env db),
    env_next_txn_id (m_env db)),
   length (m_cursor_list db)).

(** From [db] to [db'] nothing happened but lookups in the B-tree and
    changes to cursors. *)
Definition only_looks_up (db db' : LocalDatabase Btree) : Prop :=
  beyond_cursors db' = beyond_cursors db
  /\ exists lookups,
       env_trace (m_env db') = env_trace (m_env db) ++ lookups
       /\ forallb is_btree_find lookups = true.

(** The TransactionIndex after the transaction manager has ended the
    transaction [id]. *)
Definition end_txn (committed aborted : bool) (id : nat)
  (idx : option TransactionIndex) : option TransactionIndex :=
  map (fun n => {| node_key := node_key n;
                   node_ops := map (with_txn_state committed aborted id)
                                 (node_ops n) |}) <$> idx.

(** The kinds of an operation tell it apart only when they are bits of their
    own: none of them empty, the insert kinds and [HAM_PARTIAL] (which
    [insert_txn] passes on into the operation's flags) apart from [kErase]
    and from [kIsFlushed]. *)
Definition op_kinds_are_bits : Prop :=
  kErase <> 0 /\ kInsert <> 0 /\ kInsertOverwrite <> 0
  /\ kInsertDuplicate <> 0
  /\ Z.land kErase kIsFlushed = 0
  /\ Z.land kInsert kIsFlushed = 0
  /\ Z.land kInsertOverwrite kIsFlushed = 0
  /\ Z.land kInsertDuplicate kIsFlushed = 0
  /\ Z.land kInsert kErase = 0
  /\ Z.land kInsertOverwrite kErase = 0
  /\ Z.land kInsertDuplicate kErase = 0
  /\ Z.land HAM_PARTIAL kIsFlushed = 0
  /\ Z.land HAM_PARTIAL kErase = 0.

(** The operation counts for the caller: its transaction was not aborted,
    is committed or the caller's own, and the operation was not flushed. *)
Definition is_visible (txn : option Transaction) (op : TransactionOperation)
  : bool :=
  negb (is_aborted (op_txn op))
  && (is_committed (op_txn op) || same_txn txn (op_txn op))
  && negb (issetany (op_flags op) kIsFlushed).

Definition has_insert_kind (op : TransactionOperation) : bool :=
  issetany (op_flags op) kInsert
  || issetany (op_flags op) kInsertOverwrite
  || issetany (op_flags op) kInsertDuplicate.

Definition is_visible_erase (txn : option Transaction)
  (op : TransactionOperation) : bool :=
  is_visible txn op && issetany (op_flags op) kErase.

Definition is_visible_insert (txn : option Transaction)
  (op : TransactionOperation) : bool :=
  is_visible txn op && negb (issetany (op_flags op) kErase)
  && has_insert_kind op.

(** The newest operation on [key]: the head of the chain of the node the
    TransactionIndex holds for the key. *)
Definition newest_op (db : LocalDatabase Btree) (key : ham_key_t)
  : option TransactionOperation :=
  match m_txn_index db with
  | Some idx =>
      match index_search idx key with
      | Some node =>
          match idx !! node with
          | Some n => hd_error (node_ops n)
          | None => None
          end
      | None => None
      end
  | None => None
  end.

(** The kind [insert_txn] gives its operation. *)
Definition insert_kind (flags : Z) : Z :=
  Z.lor (Z.land flags HAM_PARTIAL)
    (if issetany flags HAM_DUPLICATE then kInsertDuplicate
     else if issetany flags HAM_OVERWRITE then kInsertOverwrite
     else kInsert).

(** The record a lookup hands back for the bytes [data]. *)
Definition record_found (record : option ham_record_t) (data : list Z)
  : option ham_record_t :=
  match record with
  | Some rec => Some {| record_data := data; record_flags := record_flags rec |}
  | None => None
  end.

(** The environment is what it was. *)
Definition same_env (db db' : LocalDatabase Btree) : Prop :=
  m_env db' = m_env db.

(** Apart from the TransactionIndex, nothing happened but lookups in the
    B-tree; the cursors are what they were. *)
Definition quiet (db db' : LocalDatabase Btree) : Prop :=
  only_looks_up (with_txn_index None db) (with_txn_index None db')
  /\ m_cursor_list db' = m_cursor_list db.

(** The flags of the journal's record of an insert. *)
Definition journal_insert_flags (flags : Z) : Z :=
  if issetany flags HAM_DUPLICATE then flags else Z.lor flags HAM_OVERWRITE.

(** The flags [flush_txn_operation] hands to the B-tree with an insert. *)
Definition flush_insert_flags (op : TransactionOperation) : Z :=
  Z.lor (op_orig_flags op)
    (if issetany (op_flags op) kInsertDuplicate
     then HAM_DUPLICATE else HAM_OVERWRITE).

(** A cursor that [flush_txn_operation] has moved over to the B-tree: its
    transactional side is nil, it is coupled to the B-tree and stands on the
    key. *)
Definition moved_to_btree (key : ham_key_t) (c : Cursor) : Prop :=
  cursor_txn_coupled_op c = None
  /\ is_coupled_to_btree c = true
  /\ cursor_btree c = Some key.

(** The cursors after a successful flush of an insert. *)
Definition flushed_cursor (lsn : Z) (key : ham_key_t) (c2 : Cursor) : Cursor :=
  match cursor_txn_coupled_op c2 with
  | Some l =>
      if l =? lsn
      then set_to_nil kTxn (couple_to_btree (with_btree_cursor c2 (Some key)))
      else c2
  | None => c2
  end.

(** Recovery is enabled and transactions are not: the mode in which
    [finalize] flushes the changeset. *)
Definition recovery_without_transactions (env : LocalEnvironment) : bool :=
  issetany (env_flags env) HAM_ENABLE_RECOVERY
  && negb (issetany (env_flags env) HAM_ENABLE_TRANSACTIONS).

(** The LSN after [lsn]. *)
Definition next_lsn (lsn : Z) : Z := (lsn + 1) mod 2 ^ 64.

(** What [finalize(0, 0)] does, the call [FINALIZE_ON_SCOPE_EXIT] makes when
    the scope is left: with recovery and without transactions the changeset
    is flushed under a new LSN, otherwise nothing happens. *)
Definition scope_exit (db : LocalDatabase Btree) : LocalDatabase Btree :=
  if recovery_without_transactions (m_env db)
  then with_env (env_log (EvChangesetFlush (next_lsn (env_lsn (m_env db)))))
         (with_env (env_set_lsn (next_lsn (env_lsn (m_env db)))) db)
  else db.

(** The key has the size the database is configured for. *)
Definition key_size_fits (cfg : DatabaseConfiguration) (key : ham_key_t)
  : bool :=
  (cfg_key_size cfg =? HAM_KEY_SIZE_UNLIMITED)
  || (key_size key =? cfg_key_size cfg).

(** The four directions of a cursor movement are bits of a [uint32_t], and
    NEXT and PREVIOUS are apart from each other and from FIRST and LAST. *)
Definition directions_are_bits : Prop :=
  Z.land HAM_CURSOR_FIRST HAM_CURSOR_NEXT = 0
  /\ Z.land HAM_CURSOR_LAST HAM_CURSOR_NEXT = 0
  /\ Z.land HAM_CURSOR_FIRST HAM_CURSOR_PREVIOUS = 0
  /\ Z.land HAM_CURSOR_LAST HAM_CURSOR_PREVIOUS = 0
  /\ Z.land HAM_CURSOR_NEXT HAM_CURSOR_PREVIOUS = 0
  /\ HAM_CURSOR_FIRST <> 0 /\ HAM_CURSOR_LAST <> 0
  /\ 0 <= HAM_CURSOR_NEXT < 2 ^ 32
  /\ 0 <= HAM_CURSOR_PREVIOUS < 2 ^ 32.

(** A nil cursor turns around: where NEXT and PREVIOUS lead to. *)
Definition turned (first_use : bool) (flags : Z) : Z :=
  if issetany flags HAM_CURSOR_NEXT
  then if first_use then HAM_CURSOR_FIRST else HAM_CURSOR_LAST
  else if first_use then HAM_CURSOR_LAST else HAM_CURSOR_FIRST.

(** The cursor is nil on both sides, coupled to the B-tree, and has no
    position among duplicates. *)
Definition is_reset (c : Cursor) : Prop :=
  is_nil kAny c = true
  /\ is_coupled_to_btree c = true
  /\ cursor_dupecache_index c = 0.

(** Every operation in the index has the property; also when there is no
    index yet. *)
Definition every_op (P : TransactionOperation -> bool)
  (idx : option TransactionIndex) : bool :=
  match idx with
  | Some nodes => forallb (fun n => forallb P (node_ops n)) nodes
  | None => true
  end.

(** The operation belongs to a transaction that has ended, or to the
    transaction [id]. *)
Definition ended_or_of (id : nat) (op : TransactionOperation) : bool :=
  is_terminated op || Nat.eqb (txn_id (op_txn op)) id.

(** From [db] to [db'] the configuration, the flags and the transaction
    manager are what they were, and the operations in the index still have
    the property [P] if they had it. *)
Definition runs_with (P : TransactionOperation -> bool)
  (db db' : LocalDatabase Btree) : Prop :=
  m_config db' = m_config db
  /\ m_rt_flags db' = m_rt_flags db
  /\ env_flags (m_env db') = env_flags (m_env db)
  /\ env_txn_manager (m_env db') = env_txn_manager (m_env db)
  /\ env_next_txn_id (m_env db') = env_next_txn_id (m_env db)
  /\ (every_op P (m_txn_index db) = true ->
      every_op P (m_txn_index db') = true).

End MoreVocabulary.

(** ** A reference implementation of the movers

    Cursor movements over the reference B-tree: FIRST and LAST go to the
    ends, NEXT and PREVIOUS to the neighbours of the key the cursor stands
    on.  The move of the whole cursor is the move in the B-tree, and reports
    a key whose newest operation in the overlay is a committed erase as
    erased.  In the examples a cursor counts as never used while it
    remembers no operation. *)

Module ReferenceMovers.

Import Reference.

Definition land_on (db : LocalDatabase tree) (c : nat) (key : ham_key_t)
  (record : option ham_record_t) (hit : option (Z * list Z)) : move_result :=
  match hit with
  | Some (k, r) =>
      {| mv_status := HAM_SUCCESS;
         mv_key := Reference.key k;
         mv_record :=
           match record with
           | Some rec => Some {| record_data := r;
                                 record_flags := record_flags rec |}
           | None => None
           end;
         mv_db := set_cursor (Some c)
                    (fun cur => with_btree_cursor cur (Some (Reference.key k)))
                    db |}
  | None =>
      {| mv_status := HAM_KEY_NOT_FOUND; mv_key := key; mv_record := record;
         mv_db := db |}
  end.

Definition move_btree (db : LocalDatabase tree) (c : nat) (key : ham_key_t)
  (record : option ham_record_t) (flags : Z) : move_result :=
  let bt := match m_btree_index db with Some bt => bt | None => [] end in
  let here := match m_cursor_list db !! c with
              | Some cur =>
                  match cursor_btree cur with
                  | Some k => Some (key_value k)
                  | None => None
                  end
              | None => None
              end in
  land_on db c key record
    (if issetany flags HAM_CURSOR_FIRST then hd_error bt
     else if issetany flags HAM_CURSOR_LAST then hd_error (rev bt)
     else match here with
          | Some k =>
              if issetany flags HAM_CURSOR_NEXT
              then List.find (fun p => k <? fst p) bt
              else if issetany flags HAM_CURSOR_PREVIOUS
              then List.find (fun p => fst p <? k) (rev bt)
              else List.find (fun p => fst p =? k) bt
          | None => None
          end).

Definition erased_in_overlay (db : LocalDatabase tree) (key : ham_key_t)
  : bool :=
  match m_txn_index db with
  | Some idx =>
      existsb (fun n =>
                 (compare (node_key n) key =? 0)
                 && match node_ops n with
                    | op :: _ => issetany (op_flags op) kErase
                                 && is_committed (op_txn op)
                    | [] => false
                    end) idx
  | None => false
  end.

Definition move_both (db : LocalDatabase tree) (c : nat) (key : ham_key_t)
  (record : option ham_record_t) (flags : Z) : move_result :=
  let r := move_btree db c key record flags in
  if failed (mv_status r) then r
  else if erased_in_overlay db (mv_key r)
  then {| mv_status := HAM_KEY_ERASED_IN_TXN; mv_key := key;
          mv_record := record; mv_db := mv_db r |}
  else r.

#[global] Instance movers : @Movers collaborators := {|
  is_first_use := fun db c =>
    match m_cursor_list db !! c with
    | Some cur => cursor_lastop cur =? 0
    | None => true
    end;
  cursor_move_both := move_both;
  btree_cursor_move := move_btree
|}.

End ReferenceMovers.

(** ** More databases of the examples *)

Module Scenario2.

Import Reference.

(** A key of two bytes, for a database whose keys have one. *)
Definition long_key : ham_key_t :=
  {| key_data := [1; 2]; key_flags := 0; key_intflags := 0 |}.

(** Recovery without transactions; key 3 is in the B-tree, and the one
    cursor is nil. *)
Definition db_recovery3 : LocalDatabase tree :=
  db HAM_ENABLE_RECOVERY [] [(3, [30])] [nil_cursor].

(** Transactions; the overlay is empty, key 3 is in the B-tree, and the one
    cursor stands on it. *)
Definition cursor_on3 : Cursor :=
  {| cursor_txn := None; cursor_coupled_to_txnop := false;
     cursor_txn_coupled_op := None; cursor_btree := Some (key 3);
     cursor_dupecache_index := 0; cursor_lastop := 0 |}.
Definition db_cursor_on3 : LocalDatabase tree :=
  db HAM_ENABLE_TRANSACTIONS [] [(3, [30])] [cursor_on3].

(** The overlay holds key 7, inserted and committed; the B-tree holds
    key 5. *)
Definition overlay7 : TransactionIndex :=
  [ {| node_key := key 7; node_ops := [Scenario.insert7] |} ].
Definition db_overlay7_btree5 : LocalDatabase tree :=
  db HAM_ENABLE_TRANSACTIONS overlay7 [(5, [50])] [nil_cursor].

End Scenario2.

(** * Properties *)

Section Properties.

Context {K : ham_constants} {C : Collaborators}.

(** ** Running the monad *)

Lemma bind_Ok {A B} (m : M A) (k : A -> M B) db b db' :
  bind m k db = Ok b db' ->
  exists a db1, m db = Ok a db1 /\ k a db1 = Ok b db'.
Proof.
  unfold bind. destruct (m db) as [a db1| | |]; try discriminate.
  intros H. exists a, db1. split; [reflexivity | exact H].
Qed.

Lemma bind_eq {A B} (m : M A) (k : A -> M B) db a db1 :
  m db = Ok a db1 -> bind m k db = k a db1.
Proof. unfold bind. intros ->. reflexivity. Qed.

Lemma deref_Ok {A} (p : option A) db a db' :
  deref p db = Ok a db' -> p = Some a /\ db' = db.
Proof.
  destruct p as [x|]; simpl; [|discriminate].
  unfold ret. intros H. injection H as -> ->. split; reflexivity.
Qed.

Lemma failed_true st : failed st = true <-> st <> HAM_SUCCESS.
Proof.
  destruct st; simpl; split; intros H; try reflexivity; try discriminate;
    exfalso; apply H; reflexivity.
Qed.

Lemma failed_false st : failed st = false <-> st = HAM_SUCCESS.
Proof.
  destruct st; simpl; split; intros H; try reflexivity; discriminate.
Qed.

(** ** The flag tests *)

Lemma issetany_lor f a b :
  issetany f (Z.lor a b) = issetany f a || issetany f b.
Proof.
  unfold issetany. rewrite Z.land_lor_distr_r.
  destruct (Z.eqb_spec (Z.land f a) 0) as [Ha|Ha];
    destruct (Z.eqb_spec (Z.land f b) 0) as [Hb|Hb]; simpl.
  - rewrite Ha, Hb. reflexivity.
  - destruct (Z.eqb_spec (Z.lor (Z.land f a) (Z.land f b)) 0) as [E|E];
      [apply Z.lor_eq_0_iff in E; tauto | reflexivity].
  - destruct (Z.eqb_spec (Z.lor (Z.land f a) (Z.land f b)) 0) as [E|E];
      [apply Z.lor_eq_0_iff in E; tauto | reflexivity].
  - destruct (Z.eqb_spec (Z.lor (Z.land f a) (Z.land f b)) 0) as [E|E];
      [apply Z.lor_eq_0_iff in E; tauto | reflexivity].
Qed.

Lemma notset_issetany f b : notset f b = negb (issetany f b).
Proof. unfold notset, issetany. rewrite negb_involutive. reflexivity. Qed.

Lemma isset_lor f b : isset (Z.lor f b) b = true.
Proof.
  unfold isset. apply Z.eqb_eq. apply Z.bits_inj'. intros n _.
  rewrite Z.land_spec, Z.lor_spec.
  destruct (Z.testbit f n), (Z.testbit b n); reflexivity.
Qed.

(** ** check_insert_conflicts: the fall-through to the B-tree (C2) *)

(** C2.  When the walk over the node's operations ends without a verdict,
    [check_insert_conflicts] asks the B-tree exactly when uniqueness
    matters.  If it does not, the result is success and nothing was asked
    (the database, trace included, is as before).  If it does, the one call
    made is the B-tree lookup of the key; a hit becomes [HAM_DUPLICATE_KEY],
    [HAM_KEY_NOT_FOUND] becomes success and every other status is handed
    back as it is. *)
Theorem check_insert_conflicts_btree_fallthrough
  (txn : option Transaction) (node : TransactionNode) (key : ham_key_t)
  (flags : Z) (db : LocalDatabase Btree) :
  check_insert_walk txn (node_ops node) flags = None ->
  (uniqueness_matters flags (m_rt_flags db) = false ->
     check_insert_conflicts txn node key flags db = Ok HAM_SUCCESS db)
  /\ (forall bt, uniqueness_matters flags (m_rt_flags db) = true ->
        m_btree_index db = Some bt ->
        check_insert_conflicts txn node key flags db
        = Ok (insert_verdict (bf_status (btree_find bt key flags)))
             (with_env (env_log (EvBtreeFind key flags)) db)
        /\ (bf_status (btree_find bt key flags) = HAM_SUCCESS ->
            insert_verdict (bf_status (btree_find bt key flags))
            = HAM_DUPLICATE_KEY)
        /\ (bf_status (btree_find bt key flags) = HAM_KEY_NOT_FOUND ->
            insert_verdict (bf_status (btree_find bt key flags))
            = HAM_SUCCESS)
        /\ (bf_status (btree_find bt key flags) <> HAM_SUCCESS ->
            bf_status (btree_find bt key flags) <> HAM_KEY_NOT_FOUND ->
            insert_verdict (bf_status (btree_find bt key flags))
            = bf_status (btree_find bt key flags))).
Proof.
  intros Hwalk. unfold check_insert_conflicts. rewrite Hwalk.
  unfold uniqueness_matters. rewrite !notset_issetany.
  rewrite (bind_eq _ _ db (m_rt_flags db) db) by reflexivity.
  rewrite issetany_lor.
  split.
  - intros Hu.
    destruct (issetany flags HAM_OVERWRITE), (issetany flags HAM_DUPLICATE),
      (issetany (m_rt_flags db) HAM_RECORD_NUMBER32),
      (issetany (m_rt_flags db) HAM_RECORD_NUMBER64);
      simpl in *; try reflexivity; discriminate.
  - intros bt Hu Hbt. repeat split.
    + destruct (issetany flags HAM_OVERWRITE), (issetany flags HAM_DUPLICATE),
        (issetany (m_rt_flags db) HAM_RECORD_NUMBER32),
        (issetany (m_rt_flags db) HAM_RECORD_NUMBER64);
        simpl in *; try discriminate.
      unfold btree_index_find, bind, gets, deref, ret, log, modify, if_cursor.
      rewrite Hbt. simpl.
      destruct (bf_status (btree_find bt key flags)); reflexivity.
    + intros ->. reflexivity.
    + intros ->. reflexivity.
    + intros H1 H2.
      destruct (bf_status (btree_find bt key flags)); simpl; congruence.
Qed.

(** ** insert_txn and erase_txn: a failed conflict check leaves the
       TransactionIndex as it was (C4) *)

Tactic Notation "bind_inv" hyp(H) "as" ident(a) ident(d) ident(H1) ident(H2) :=
  apply bind_Ok in H; destruct H as (a & d & H1 & H2).

Lemma gets_Ok {A} (f : LocalDatabase Btree -> A) db a db' :
  gets f db = Ok a db' -> a = f db /\ db' = db.
Proof. unfold gets. intros H. injection H as <- <-. split; reflexivity. Qed.

Lemma ret_Ok {A} (x : A) db a db' :
  ret x db = Ok a db' -> a = x /\ db' = db.
Proof. unfold ret. intros H. injection H as <- <-. split; reflexivity. Qed.

Lemma modify_Ok (f : LocalDatabase Btree -> LocalDatabase Btree) db a db' :
  modify f db = Ok a db' -> db' = f db.
Proof. unfold modify. intros H. injection H as _ <-. reflexivity. Qed.

Lemma get_txn_index_Ok db idx db' :
  get_txn_index db = Ok idx db' -> m_txn_index db = Some idx /\ db' = db.
Proof.
  unfold get_txn_index. intros H. bind_inv H as i d Hi Hd.
  apply gets_Ok in Hi as [-> ->]. apply deref_Ok in Hd as [-> ->].
  split; reflexivity.
Qed.

Lemma store_position_le idx key : (store_position idx key <= length idx)%nat.
Proof.
  induction idx as [|n rest IH]; simpl; [lia|].
  destruct (compare_keys (node_key n) key <? 0); lia.
Qed.

(** Storing a node and removing it again gives the index back. *)
Lemma txn_index_remove_store idx node :
  txn_index_remove (fst (txn_index_store idx node))
                   (snd (txn_index_store idx node)) = idx.
Proof.
  unfold txn_index_remove, txn_index_store. simpl.
  set (pos := store_position idx (node_key node)).
  assert (Hlen : length (take pos idx) = pos)
    by (apply length_take_le, store_position_le).
  transitivity (delete (length (take pos idx))
                  (take pos idx ++ node :: drop pos idx)).
  - rewrite Hlen. reflexivity.
  - rewrite delete_middle. apply take_drop.
Qed.

Lemma get_or_create_node_Ok key db node created db' :
  get_or_create_node key db = Ok (node, created) db' ->
  exists idx, m_txn_index db = Some idx
  /\ ((created = false /\ db' = db)
      \/ (created = true
          /\ node = snd (txn_index_store idx (new_TransactionNode key))
          /\ db' = with_txn_index
                     (Some (fst (txn_index_store idx
                                   (new_TransactionNode key)))) db)).
Proof.
  unfold get_or_create_node. intros H. bind_inv H as idx d Hidx Hrest.
  apply get_txn_index_Ok in Hidx as [Hidx ->]. exists idx.
  split; [exact Hidx|].
  destruct (txn_index_get idx key 0) as [n|].
  - apply ret_Ok in Hrest as [E ->]. injection E as <- <-. left. auto.
  - destruct (txn_index_store idx (new_TransactionNode key))
      as [idx' pos] eqn:Es.
    bind_inv Hrest as u d Hset Hret. apply modify_Ok in Hset.
    apply ret_Ok in Hret as [E ->].
    injection E as <- <-. right. simpl. auto.
Qed.

Lemma btree_index_find_None_Ok key flags db r db' :
  btree_index_find None key flags db = Ok r db' ->
  exists bt, m_btree_index db = Some bt
  /\ r = btree_find bt key flags
  /\ db' = with_env (env_log (EvBtreeFind key flags)) db.
Proof.
  unfold btree_index_find, bind, gets, deref, ret, log, modify, if_cursor.
  destruct (m_btree_index db) as [bt|]; [|discriminate].
  intros H. injection H as <- <-. exists bt. auto.
Qed.

Lemma check_insert_conflicts_index txn n key flags db st db' :
  check_insert_conflicts txn n key flags db = Ok st db' ->
  m_txn_index db' = m_txn_index db.
Proof.
  unfold check_insert_conflicts.
  destruct (check_insert_walk txn (node_ops n) flags).
  - intros H. apply ret_Ok in H as [_ ->]. reflexivity.
  - intros H. bind_inv H as rt d Hrt Hrest. apply gets_Ok in Hrt as [-> ->].
    destruct (_ || _).
    + apply ret_Ok in Hrest as [_ ->]. reflexivity.
    + bind_inv Hrest as r d Hfind Hret.
      apply btree_index_find_None_Ok in Hfind as (bt & _ & _ & ->).
      destruct (bf_status r); apply ret_Ok in Hret as [_ ->]; reflexivity.
Qed.

Lemma check_erase_conflicts_index txn n key flags db st db' :
  check_erase_conflicts txn n key flags db = Ok st db' ->
  m_txn_index db' = m_txn_index db.
Proof.
  unfold check_erase_conflicts.
  destruct (check_erase_walk txn (node_ops n)).
  - intros H. apply ret_Ok in H as [_ ->]. reflexivity.
  - intros H. bind_inv H as r d Hfind Hret.
    apply btree_index_find_None_Ok in Hfind as (bt & _ & _ & ->).
    apply ret_Ok in Hret as [_ ->]. reflexivity.
Qed.

Lemma get_cursor_Ok c db cur db' :
  get_cursor c db = Ok cur db' -> m_cursor_list db !! c = Some cur /\ db' = db.
Proof.
  unfold get_cursor. intros H. bind_inv H as cs d Hcs Hd.
  apply gets_Ok in Hcs as [-> ->]. apply deref_Ok in Hd. exact Hd.
Qed.

Lemma current_dupecache_index_Ok current db d db' :
  current_dupecache_index current db = Ok d db' -> db' = db.
Proof.
  unfold current_dupecache_index. destruct current as [i|].
  - intros H. bind_inv H as c d0 Hc Hret. apply get_cursor_Ok in Hc as [_ ->].
    apply ret_Ok in Hret as [_ ->]. reflexivity.
  - intros H. apply ret_Ok in H as [_ ->]. reflexivity.
Qed.

(** A chain of steps that ends in [ret x] returns [x]. *)
Lemma bind_ret_value {A B} (m : M A) (x : B) db b db' :
  (m ;;; ret x) db = Ok b db' -> b = x.
Proof.
  intros H. bind_inv H as a d Hm Hret. apply ret_Ok in Hret as [-> _].
  reflexivity.
Qed.

(** The rollback of [insert_txn] and [erase_txn]: the node is removed when
    it was created by this call. *)
Lemma rollback_restores_index key db0 node created db1 db2
  (st st' : ham_status_t) db' :
  get_or_create_node key db0 = Ok (node, created) db1 ->
  m_txn_index db2 = m_txn_index db1 ->
  (when created (remove_node node) ;;; ret st) db2 = Ok st' db' ->
  m_txn_index db' = m_txn_index db0.
Proof.
  intros Hnode Hsame H.
  apply get_or_create_node_Ok in Hnode
    as (idx & Hidx & [[-> ->]|(-> & -> & ->)]).
  - bind_inv H as u d Hwhen Hret. apply ret_Ok in Hwhen as [_ ->].
    apply ret_Ok in Hret as [_ ->]. exact Hsame.
  - bind_inv H as u d Hwhen Hret. apply ret_Ok in Hret as [_ ->].
    unfold when, remove_node in Hwhen. bind_inv Hwhen as i d' Hi Hset.
    apply get_txn_index_Ok in Hi as [Hidx2 ->].
    apply modify_Ok in Hset. subst d. simpl.
    rewrite Hsame in Hidx2. simpl in Hidx2. injection Hidx2 as <-.
    rewrite Hidx. f_equal.
    exact (txn_index_remove_store idx (new_TransactionNode key)).
Qed.

(** C4.  Whenever [insert_txn] or [erase_txn] returns an error, the
    TransactionIndex is the one the call started with: a node that was
    created for the key is removed again before the status of the failed
    conflict check is handed back. *)
Theorem conflict_rollback_restores_index
  (txn : Transaction) (key : ham_key_t) (record : ham_record_t) (flags : Z)
  (cursor : option nat) (db db' : LocalDatabase Btree) (st : ham_status_t) :
  st <> HAM_SUCCESS ->
  insert_txn txn key record flags cursor db = Ok st db'
  \/ erase_txn txn key flags cursor db = Ok st db' ->
  m_txn_index db' = m_txn_index db.
Proof.
  intros Hst [H|H].
  - unfold insert_txn in H. bind_inv H as nc db1 Hnode H.
    destruct nc as [node created].
    bind_inv H as idx d Hidx H. apply get_txn_index_Ok in Hidx as [Hidx ->].
    bind_inv H as n d Hn H. apply deref_Ok in Hn as [Hn ->].
    bind_inv H as st1 db2 Hcheck H.
    pose proof (check_insert_conflicts_index _ _ _ _ _ _ _ Hcheck) as Hsame.
    destruct (failed st1) eqn:Hf.
    + eapply rollback_restores_index; eauto.
    + exfalso. apply Hst.
      bind_inv H as lsn d3 Hlsn H. bind_inv H as op d4 Hop H.
      bind_inv H as u d5 Hcur H. bind_inv H as env d6 Henv H.
      eapply bind_ret_value; eauto.
  - unfold erase_txn in H. bind_inv H as nc db1 Hnode H.
    destruct nc as [node created].
    bind_inv H as dupe d Hdupe H.
    apply current_dupecache_index_Ok in Hdupe as ->.
    bind_inv H as st1 db2 Hcheck H.
    assert (Hsame : m_txn_index db2 = m_txn_index db1).
    { destruct (is_null cursor || (dupe =? 0)).
      - bind_inv Hcheck as idx d Hidx Hcheck.
        apply get_txn_index_Ok in Hidx as [_ ->].
        bind_inv Hcheck as n d Hn Hcheck. apply deref_Ok in Hn as [_ ->].
        eapply check_erase_conflicts_index; eauto.
      - apply ret_Ok in Hcheck as [_ ->]. reflexivity. }
    destruct (failed st1) eqn:Hf.
    + eapply rollback_restores_index; eauto.
    + exfalso. apply Hst.
      bind_inv H as lsn d3 Hlsn H. bind_inv H as op d4 Hop H.
      bind_inv H as u d5 Hdup H. bind_inv H as u1 d6 Hnil H.
      bind_inv H as idx d7 Hidx H. bind_inv H as n d8 Hn H.
      bind_inv H as u2 d9 Hnil2 H. bind_inv H as env d10 Henv H.
      eapply bind_ret_value; eauto.
Qed.

(** ** close_impl with a transaction still open (C8) *)

Lemma close_walk_ops_true ops op :
  In op ops ->
  is_committed (op_txn op) = false -> is_aborted (op_txn op) = false ->
  close_walk_ops ops = true.
Proof.
  intros Hin Hc Ha. induction ops as [|o ops IH]; [destruct Hin|].
  simpl. destruct Hin as [->|Hin].
  - rewrite Hc, Ha. reflexivity.
  - destruct (negb (is_committed (op_txn o)) && negb (is_aborted (op_txn o)));
      [reflexivity | apply IH, Hin].
Qed.

Lemma close_walk_nodes_true nodes node :
  In node nodes -> close_walk_ops (node_ops node) = true ->
  close_walk_nodes nodes = true.
Proof.
  intros Hin Hops. induction nodes as [|n nodes IH]; [destruct Hin|].
  simpl. destruct Hin as [->|Hin].
  - rewrite Hops. reflexivity.
  - destruct (close_walk_ops (node_ops n)); [reflexivity | apply IH, Hin].
Qed.

(** C8.  If some operation in the TransactionIndex belongs to a transaction
    that is neither committed nor aborted, [close_impl] returns
    [HAM_TXN_STILL_OPEN] and does nothing of the closing: the environment
    (its trace of calls to the transaction manager, the B-tree and the page
    manager included), the TransactionIndex, the B-tree and the cursors are
    as before; the handle only records the status as its last error. *)
Theorem close_impl_txn_still_open
  (flags : Z) (db : LocalDatabase Btree) (idx : TransactionIndex)
  (node : TransactionNode) (op : TransactionOperation) :
  m_txn_index db = Some idx ->
  In node idx -> In op (node_ops node) ->
  is_committed (op_txn op) = false -> is_aborted (op_txn op) = false ->
  exists db',
    close_impl flags db = Ok HAM_TXN_STILL_OPEN db'
    /\ m_env db' = m_env db
    /\ m_txn_index db' = m_txn_index db
    /\ m_btree_index db' = m_btree_index db
    /\ m_cursor_list db' = m_cursor_list db
    /\ m_config db' = m_config db
    /\ m_rt_flags db' = m_rt_flags db
    /\ m_error db' = HAM_TXN_STILL_OPEN.
Proof.
  intros Hidx Hnode Hop Hc Ha.
  exists (with_error HAM_TXN_STILL_OPEN db).
  split; [|repeat split].
  unfold close_impl.
  rewrite (bind_eq _ _ db (m_txn_index db) db) by reflexivity.
  rewrite Hidx.
  rewrite (close_walk_nodes_true idx node Hnode
             (close_walk_ops_true _ op Hop Hc Ha)).
  reflexivity.
Qed.

(** ** cursor_erase on a nil cursor (C10) *)

(** C10.  [cursor_erase] on a cursor that is coupled neither to an operation
    nor to a B-tree slot throws [HAM_CURSOR_IS_NIL] at once: the database,
    the cursor included, is the one the call started with, no key was
    resolved and no erase was attempted. *)
Theorem cursor_erase_nil_cursor
  (cursor : nat) (flags : Z) (db : LocalDatabase Btree) (cur : Cursor) :
  m_cursor_list db !! cursor = Some cur ->
  cursor_txn_coupled_op cur = None -> cursor_btree cur = None ->
  cursor_erase cursor flags db = Throw HAM_CURSOR_IS_NIL db.
Proof.
  intros Hcur Htxn Hbtree. unfold cursor_erase.
  assert (Hget : get_cursor cursor db = Ok cur db).
  { unfold get_cursor. rewrite (bind_eq _ _ db (m_cursor_list db) db)
      by reflexivity. rewrite Hcur. reflexivity. }
  rewrite (bind_eq _ _ _ _ _ Hget).
  unfold is_nil. rewrite Htxn, Hbtree. reflexivity.
Qed.

(** ** flush_txn_operation on an erase (C7) *)

(** C7.  Flushing an Erase operation makes one call, the B-tree erase of the
    node's key with the duplicate index the operation references; what the
    B-tree answers is handed back, except [HAM_KEY_NOT_FOUND], which becomes
    success: [HAM_KEY_NOT_FOUND] is never the result. *)
Theorem flush_txn_operation_erase
  (txn : Transaction) (op : TransactionOperation)
  (db : LocalDatabase Btree) (bt : Btree) :
  is_erase_op op = true ->
  m_btree_index db = Some bt ->
  let answer := btree_erase bt None (Some (op_node_key op))
                  (op_referenced_dupe op) (op_flags op) in
  exists st,
    flush_txn_operation txn op db
    = Ok st (with_btree_index (Some (snd answer))
               (with_env (env_log (EvBtreeErase (Some (op_node_key op))
                                     (op_referenced_dupe op) (op_flags op)))
                  db))
    /\ st = (if status_eqb (fst answer) HAM_KEY_NOT_FOUND
             then HAM_SUCCESS else fst answer)
    /\ st <> HAM_KEY_NOT_FOUND.
Proof.
  intros Hkind Hbt answer. unfold is_erase_op in Hkind.
  apply andb_true_iff in Hkind as [Hkind Hdup].
  apply andb_true_iff in Hkind as [Hkind Hovw].
  apply andb_true_iff in Hkind as [Herase Hins].
  apply negb_true_iff in Hdup, Hovw, Hins.
  eexists. split; [|split; [reflexivity|]].
  - unfold flush_txn_operation. rewrite Hins, Hovw, Hdup, Herase. simpl.
    unfold btree_index_erase, bind, gets, deref, ret, log, modify.
    rewrite Hbt. simpl. fold answer.
    destruct answer as [st bt']. reflexivity.
  - destruct (fst answer); simpl; discriminate.
Qed.

(** ** finalize after a failure without a temporary transaction (C5) *)

(** C5, as the code has it.  Leaving through the finalizer with a failure
    status and no temporary transaction hands the status back as it is; the
    finalizer does not flush the changeset, whether or not recovery is
    enabled, takes no LSN and does not call the transaction manager. *)
Theorem finalize_failure_without_local_txn
  (status : ham_status_t) (db : LocalDatabase Btree) :
  status <> HAM_SUCCESS ->
  exists db' events,
    finalize status None db = Ok status db'
    /\ env_trace (m_env db') = env_trace (m_env db) ++ events
    /\ (forall lsn, ~ In (EvChangesetFlush lsn) events)
    /\ (forall id, ~ In (EvTxnAbort id) events /\ ~ In (EvTxnCommit id) events)
    /\ env_lsn (m_env db') = env_lsn (m_env db).
Proof.
  intros Hst. apply failed_true in Hst.
  exists db, []. unfold finalize. rewrite Hst.
  split; [reflexivity|]. split; [symmetry; apply app_nil_r|].
  split; [intros lsn H; destruct H|].
  split; [intros id; split; intros H; destruct H|].
  reflexivity.
Qed.

(** ** nil_all_cursors_in_node: the restarts of the inner loop end *)

Lemma cursors_coupled_to_cons lsn i c cs :
  cursors_coupled_to lsn i (c :: cs)
  = if coupled_to lsn c then i :: cursors_coupled_to lsn (S i) cs
    else cursors_coupled_to lsn (S i) cs.
Proof.
  unfold coupled_to. simpl. destruct (cursor_txn_coupled_op c); reflexivity.
Qed.

Lemma cursors_coupled_to_lookup lsn cs : forall i j,
  In j (cursors_coupled_to lsn i cs) ->
  exists c, (i <= j)%nat /\ cs !! (j - i)%nat = Some c
            /\ coupled_to lsn c = true.
Proof.
  induction cs as [|c cs IH]; intros i j Hin; [destruct Hin|].
  rewrite cursors_coupled_to_cons in Hin.
  destruct (coupled_to lsn c) eqn:Hc.
  - destruct Hin as [<-|Hin].
    + exists c. replace (i - i)%nat with 0%nat by lia. auto.
    + destruct (IH _ _ Hin) as (c' & Hle & Hl & Hc').
      exists c'. replace (j - i)%nat with (S (j - S i)) by lia.
      split; [lia|]. auto.
  - destruct (IH _ _ Hin) as (c' & Hle & Hl & Hc').
    exists c'. replace (j - i)%nat with (S (j - S i)) by lia.
    split; [lia|]. auto.
Qed.

Lemma cursors_coupled_to_insert_same lsn cs : forall i j c c',
  cs !! j = Some c -> coupled_to lsn c' = coupled_to lsn c ->
  cursors_coupled_to lsn i (<[j := c']> cs) = cursors_coupled_to lsn i cs.
Proof.
  induction cs as [|x cs IH]; intros i j c c' Hl Hc; [discriminate|].
  destruct j as [|j]; simpl in Hl.
  - injection Hl as ->. simpl (<[_ := _]> _).
    rewrite !cursors_coupled_to_cons, Hc. reflexivity.
  - simpl (<[_ := _]> _). rewrite !cursors_coupled_to_cons.
    rewrite (IH (S i) j c c' Hl Hc). reflexivity.
Qed.

Lemma cursors_coupled_to_insert_nil lsn cs : forall i j c c',
  cs !! j = Some c -> coupled_to lsn c = true -> coupled_to lsn c' = false ->
  (length (cursors_coupled_to lsn i (<[j := c']> cs))
   < length (cursors_coupled_to lsn i cs))%nat.
Proof.
  induction cs as [|x cs IH]; intros i j c c' Hl Hc Hc'; [discriminate|].
  destruct j as [|j]; simpl in Hl.
  - injection Hl as ->. simpl (<[_ := _]> _).
    rewrite !cursors_coupled_to_cons, Hc, Hc'. simpl. lia.
  - simpl (<[_ := _]> _). rewrite !cursors_coupled_to_cons.
    pose proof (IH (S i) j c c' Hl Hc Hc') as Hlt.
    destruct (coupled_to lsn x); simpl; lia.
Qed.

(** A pass that ends in a restart has taken a cursor off the list of the
    operation. *)
Lemma nil_cursors_pass_restart d op : forall coupled cs cs',
  (forall j, In j coupled ->
     exists c, cs !! j = Some c /\ coupled_to (op_lsn op) c = true) ->
  nil_cursors_pass d coupled cs = (cs', true) ->
  (length (get_cursor_list op cs') < length (get_cursor_list op cs))%nat.
Proof.
  unfold get_cursor_list.
  induction coupled as [|i coupled IH]; intros cs cs' Hall Hpass;
    [discriminate|].
  simpl in Hpass.
  destruct (Hall i (or_introl eq_refl)) as (parent & Hi & Hc).
  rewrite Hi in Hpass.
  destruct (negb (d =? 0) && (d <? cursor_dupecache_index parent)).
  - rewrite <- (cursors_coupled_to_insert_same (op_lsn op) cs 0%nat i parent
                  (set_dupecache_index parent
                     (cursor_dupecache_index parent - 1)) Hi eq_refl).
    apply IH; [|exact Hpass].
    intros j Hj. destruct (Hall j (or_intror Hj)) as (c & Hl & Hcj).
    destruct (Nat.eq_dec i j) as [->|Hne].
    + eexists. split.
      * apply list_lookup_insert_eq. eapply lookup_lt_Some; eauto.
      * exact Hc.
    + exists c. rewrite list_lookup_insert_ne by exact Hne. auto.
  - destruct (negb (d =? 0) && (cursor_dupecache_index parent <? d)).
    + apply IH; [|exact Hpass]. intros j Hj. apply Hall. right. exact Hj.
    + injection Hpass as <-.
      eapply cursors_coupled_to_insert_nil; eauto.
Qed.

(** More fuel than the operation has cursors is never used up: the loop over
    the cursors of an operation ends, and [nil_all_cursors_in_node] gives it
    enough. *)
Lemma nil_op_cursors_fuel d op : forall fuel cs,
  (length (get_cursor_list op cs) < fuel)%nat ->
  nil_op_cursors (S fuel) d op cs = nil_op_cursors fuel d op cs.
Proof.
  induction fuel as [|fuel IH]; intros cs Hlt; [lia|].
  change (nil_op_cursors (S (S fuel)) d op cs)
    with (let (cs', again) := nil_cursors_pass d (get_cursor_list op cs) cs in
          if again then nil_op_cursors (S fuel) d op cs' else cs').
  change (nil_op_cursors (S fuel) d op cs)
    with (let (cs', again) := nil_cursors_pass d (get_cursor_list op cs) cs in
          if again then nil_op_cursors fuel d op cs' else cs').
  destruct (nil_cursors_pass d (get_cursor_list op cs) cs) as [cs' again] eqn:E.
  destruct again; [|reflexivity].
  apply IH.
  assert (length (get_cursor_list op cs') < length (get_cursor_list op cs))%nat.
  { eapply nil_cursors_pass_restart; [|exact E].
    intros j Hj. unfold get_cursor_list in Hj.
    destruct (cursors_coupled_to_lookup _ _ _ _ Hj) as (c & _ & Hl & Hc).
    replace (j - 0)%nat with j in Hl by lia. eauto. }
  lia.
Qed.

Lemma get_cursor_list_length op cs :
  (length (get_cursor_list op cs) <= length cs)%nat.
Proof.
  unfold get_cursor_list. generalize 0%nat.
  induction cs as [|c cs IH]; intros i; [simpl; lia|].
  rewrite cursors_coupled_to_cons. specialize (IH (S i)).
  destruct (coupled_to (op_lsn op) c); simpl; lia.
Qed.

Lemma nil_op_cursors_enough d op cs extra :
  nil_op_cursors (S (length cs) + extra) d op cs
  = nil_op_cursors (S (length cs)) d op cs.
Proof.
  induction extra as [|extra IH].
  - rewrite Nat.add_0_r. reflexivity.
  - rewrite <- IH. rewrite Nat.add_succ_r. apply nil_op_cursors_fuel.
    pose proof (get_cursor_list_length op cs). lia.
Qed.

(** ** The journal entry of erase_txn (C6) *)



Lemma get_or_create_node_journal key db nc db' :
  get_or_create_node key db = Ok nc db' -> same_journal db db'.
Proof.
  destruct nc as [node created]. intros H.
  apply get_or_create_node_Ok in H as (idx & _ & [[_ ->]|(_ & _ & ->)]);
    repeat split.
Qed.



Lemma set_txn_index_Ok idx db u db' :
  set_txn_index idx db = Ok u db' -> db' = with_txn_index (Some idx) db.
Proof. unfold set_txn_index. apply modify_Ok. Qed.

Lemma append_op_Ok node txn orig_flags flags lsn record db op db' :
  append_op node txn orig_flags flags lsn record db = Ok op db' ->
  op_lsn op = lsn /\ m_env db' = m_env db.
Proof.
  unfold append_op. intros H. bind_inv H as idx d Hidx H.
  apply get_txn_index_Ok in Hidx as [_ ->].
  bind_inv H as n d Hn H. apply deref_Ok in Hn as [_ ->].
  unfold node_append in H. bind_inv H as u d Hset Hret.
  apply set_txn_index_Ok in Hset as ->. apply ret_Ok in Hret as [-> ->].
  split; reflexivity.
Qed.






(** ** find_txn *)

Lemma if_cursor_eq cursor f db :
  valid_cursor cursor db ->
  if_cursor cursor f db = Ok tt (set_cursor cursor f db).
Proof.
  destruct cursor as [c|]; simpl; [|reflexivity].
  intros [cur Hcur]. unfold update_cursor, get_cursor, bind, gets, deref,
    ret, modify. rewrite Hcur. reflexivity.
Qed.




(** An exact lookup is the only one that stops at an erase. *)
Lemma find_walk_erased_exact txn flags siblings node ws op ws' :
  find_walk txn flags siblings node ws = (WalkErased op, ws') ->
  issetany flags HAM_FIND_LT_MATCH = false
  /\ issetany flags HAM_FIND_GT_MATCH = false.
Proof.
  revert node ws. induction siblings as [|sib siblings IH]; intros node ws;
    simpl; destruct (find_walk_ops txn (node_ops node)); try discriminate;
    destruct (issetany flags HAM_FIND_LT_MATCH),
             (issetany flags HAM_FIND_GT_MATCH);
    simpl; try discriminate; try (intros _; split; reflexivity);
    try apply IH.
Qed.

Lemma find_txn_walk_erased_exact idx txn key flags op ws :
  find_txn_walk idx txn key flags = Some (WalkErased op, ws) ->
  issetany flags HAM_FIND_LT_MATCH = false
  /\ issetany flags HAM_FIND_GT_MATCH = false.
Proof.
  unfold find_txn_walk.
  destruct (txn_index_get idx _ flags) as [n|]; [|discriminate].
  destruct (idx !! n); [|discriminate].
  intros H. injection H as H. eapply find_walk_erased_exact; eauto.
Qed.

Lemma find_txn_unfold fuel cursor txn key record flags db idx w :
  m_txn_index db = Some idx ->
  find_txn_walk idx txn key flags = Some w ->
  find_txn (S fuel) cursor txn key record flags db
  = (let key := ws_key (snd w) in
     let approximate := issetany (ham_key_get_intflags key) kApproximate in
     match fst w with
     | WalkConflict =>
         ret {| fr_status := HAM_TXN_CONFLICT; fr_key := key;
                fr_record := record |}
     | WalkUnexpected =>
         ret {| fr_status := HAM_KEY_NOT_FOUND; fr_key := key;
                fr_record := record |}
     | WalkErased op => find_txn_erased cursor op key record
     | WalkInsert op =>
         if_cursor cursor (fun c => couple_cursor_to_op c op) ;;;
         if approximate then
           find_txn_approx (find_txn fuel) cursor txn op key record flags
             (ws_exact_is_erased (snd w))
         else
           match record with
           | Some rec =>
               sr <- copy_record txn op rec ;;
               ret {| fr_status := fst sr; fr_key := key;
                      fr_record := Some (snd sr) |}
           | None =>
               ret {| fr_status := HAM_SUCCESS; fr_key := key;
                      fr_record := None |}
           end
     | WalkNoSibling op =>
         if approximate then
           find_txn_approx (find_txn fuel) cursor txn op key record flags
             (ws_exact_is_erased (snd w))
         else btree_find_into cursor key record flags
     | WalkOffChain => btree_find_into cursor key record flags
     end) db.
Proof.
  intros Hidx Hwalk. simpl. unfold find_txn_body.
  assert (E : get_txn_index db = Ok idx db).
  { unfold get_txn_index, bind, gets. rewrite Hidx. reflexivity. }
  rewrite (bind_eq _ _ _ _ _ E). rewrite Hwalk.
  unfold deref. rewrite (bind_eq _ _ db w db) by reflexivity.
  reflexivity.
Qed.

(** C3, at the code.  An exact lookup that reaches a visible Erase whose
    [referenced_dupe] is 0 returns [HAM_KEY_NOT_FOUND]; a cursor that was
    passed is by then coupled to the erase operation (the unconditional
    [couple_to_op] / [couple_to_txnop] in front of the test of
    [referenced_dupe]), and stays so. *)
Theorem find_txn_exact_erased_couples_cursor
  (fuel : nat) (c : nat) (cur : Cursor) (txn : option Transaction)
  (key : ham_key_t) (record : option ham_record_t) (flags : Z)
  (db : LocalDatabase Btree) (idx : TransactionIndex)
  (op : TransactionOperation) (ws : walk_state) :
  m_txn_index db = Some idx ->
  m_cursor_list db !! c = Some cur ->
  find_txn_walk idx txn key flags = Some (WalkErased op, ws) ->
  op_referenced_dupe op = 0 ->
  issetany flags HAM_FIND_LT_MATCH = false
  /\ issetany flags HAM_FIND_GT_MATCH = false
  /\ find_txn (S fuel) (Some c) txn key record flags db
     = Ok {| fr_status := HAM_KEY_NOT_FOUND; fr_key := ws_key ws;
             fr_record := record |}
          (with_cursor_list
             (<[c := couple_cursor_to_op cur op]> (m_cursor_list db)) db)
  /\ <[c := couple_cursor_to_op cur op]> (m_cursor_list db) !! c
     = Some (couple_cursor_to_op cur op)
  /\ cursor_txn_coupled_op (couple_cursor_to_op cur op) = Some (op_lsn op)
  /\ is_coupled_to_txnop (couple_cursor_to_op cur op) = true.
Proof.
  intros Hidx Hcur Hwalk Hdupe.
  destruct (find_txn_walk_erased_exact _ _ _ _ _ _ Hwalk) as [Hlt Hgt].
  split; [exact Hlt|]. split; [exact Hgt|].
  split; [|split; [|split; reflexivity]].
  - rewrite (find_txn_unfold _ _ _ _ _ _ _ _ _ Hidx Hwalk). simpl.
    unfold find_txn_erased.
    rewrite (bind_eq _ _ _ _ _
               (if_cursor_eq (Some c) _ db (ex_intro _ cur Hcur))).
    rewrite Hdupe. simpl. rewrite Hcur. reflexivity.
  - apply list_lookup_insert_eq. eapply lookup_lt_Some; eauto.
Qed.


(** *** The walk and the approximate flag *)

Lemma not32_spec m n :
  0 <= n -> Z.testbit (not32 m) n = (n <? 32) && negb (Z.testbit m n).
Proof.
  intros Hn. unfold not32. rewrite Z.lxor_spec.
  replace (2 ^ 32 - 1) with (Z.ones 32) by reflexivity.
  destruct (Z.ltb_spec n 32) as [Hlt|Hge].
  - rewrite Z.mod_pow2_bits_low by lia.
    rewrite Z.ones_spec_low by lia. simpl. apply xorb_true_r.
  - rewrite Z.mod_pow2_bits_high by lia.
    rewrite Z.ones_spec_high by lia. reflexivity.
Qed.

(** [f & ~m] has no bit of [m]. *)
Lemma issetany_land_not32 a m : issetany (Z.land a (not32 m)) m = false.
Proof.
  unfold issetany. apply negb_false_iff, Z.eqb_eq.
  apply Z.bits_inj'. intros n Hn.
  rewrite !Z.land_spec, not32_spec, Z.bits_0 by exact Hn.
  destruct (Z.testbit a n), (n <? 32), (Z.testbit m n); reflexivity.
Qed.

(** [f & ~m] has the bits of [f] that are apart from [m]. *)
Lemma issetany_land_not32_other a m b :
  Z.land m b = 0 -> 0 <= b < 2 ^ 32 ->
  issetany (Z.land a (not32 m)) b = issetany a b.
Proof.
  intros Hmb Hb. unfold issetany. f_equal. f_equal.
  apply Z.bits_inj'. intros n Hn.
  rewrite !Z.land_spec, not32_spec by exact Hn.
  assert (Hbit : Z.testbit (Z.land m b) n = false)
    by (rewrite Hmb; apply Z.bits_0).
  rewrite Z.land_spec in Hbit.
  destruct (Z.ltb_spec n 32) as [Hlt|Hge].
  - destruct (Z.testbit a n), (Z.testbit m n), (Z.testbit b n);
      simpl in *; congruence.
  - assert (Hhigh : Z.testbit b n = false).
    { destruct (Z.eq_dec b 0) as [->|Hne]; [apply Z.bits_0|].
      apply Z.bits_above_log2; [lia|].
      apply Z.lt_le_trans with 32; [|exact Hge].
      apply Z.log2_lt_pow2; lia. }
    rewrite Hhigh. rewrite !andb_false_r. reflexivity.
Qed.






(** ** create: records stored in the leaf (C9) *)

(** C9, at the code.  A fixed record size above 8 and up to
    [kInlineRecordThreshold], on a page that holds exactly 500 key+record
    pairs: "at least 500 keys AND records" in the words of the comment in
    [create], and 500 or more in the words of the claim.  The test is
    [> 500]: the records are not stored inline and [create] adds nothing to
    the stripped run-time flags. *)
Theorem create_inline_threshold_at_500
  (rt_flags page_size key_size record_size : Z) :
  record_size <> HAM_RECORD_SIZE_UNLIMITED ->
  8 < record_size <= kInlineRecordThreshold ->
  page_size / ((key_size + record_size) mod 2 ^ 32) = 500 ->
  records_inline page_size key_size record_size = false
  /\ create_persistent_flags rt_flags page_size key_size record_size
     = stripped_flags rt_flags.
Proof.
  intros Hunl [Hlo Hhi] Hpairs.
  assert (E : records_inline page_size key_size record_size = false).
  { unfold records_inline. rewrite Hpairs.
    destruct (Z.eqb_spec record_size HAM_RECORD_SIZE_UNLIMITED) as [E|_];
      [contradiction|].
    destruct (Z.leb_spec record_size 8) as [H8|_]; [lia|].
    simpl. apply andb_false_r. }
  split; [exact E|]. unfold create_persistent_flags. rewrite E. reflexivity.
Qed.

End Properties.

(** * The facade on concrete databases *)

(** Instance of C2: key 5 is in the B-tree, the overlay has nothing on it,
    and the insert asks for a unique key. *)
Lemma check_insert_conflicts_btree_fallthrough_witness :
  check_insert_walk None
    (node_ops (new_TransactionNode (Reference.key 5))) 0 = None
  /\ check_insert_conflicts None (new_TransactionNode (Reference.key 5))
       (Reference.key 5) 0 Scenario.db_btree5
     = Ok HAM_DUPLICATE_KEY
          (with_env (env_log (EvBtreeFind (Reference.key 5) 0))
             Scenario.db_btree5).
Proof.
  split; [reflexivity|].
  destruct (check_insert_conflicts_btree_fallthrough (K := hamsterdb_constants) (C := Reference.collaborators) None
              (new_TransactionNode (Reference.key 5)) (Reference.key 5) 0
              Scenario.db_btree5 eq_refl) as [_ H].
  destruct (H [(5, [50])] eq_refl eq_refl) as [E _]. exact E.
Defined.

(** Instance of C4: the insert of key 5 creates the node, fails with
    [HAM_DUPLICATE_KEY] against the B-tree, and the index is empty again. *)
Lemma conflict_rollback_restores_index_witness :
  HAM_DUPLICATE_KEY <> HAM_SUCCESS
  /\ insert_txn (Reference.active 2) (Reference.key 5) (Reference.record 1)
       0 None Scenario.db_btree5
     = Ok HAM_DUPLICATE_KEY
          (with_env (env_log (EvBtreeFind (Reference.key 5) 0))
             Scenario.db_btree5)
  /\ m_txn_index (with_env (env_log (EvBtreeFind (Reference.key 5) 0))
                    Scenario.db_btree5)
     = m_txn_index Scenario.db_btree5.
Proof.
  split; [discriminate|]. split; [reflexivity|].
  apply (conflict_rollback_restores_index (K := hamsterdb_constants) (C := Reference.collaborators) (Reference.active 2)
           (Reference.key 5) (Reference.record 1) 0 None
           Scenario.db_btree5 _ HAM_DUPLICATE_KEY).
  - discriminate.
  - left. reflexivity.
Defined.

(** Instance of C5 (as the code has it). *)
Lemma finalize_failure_without_local_txn_witness :
  HAM_KEY_NOT_FOUND <> HAM_SUCCESS
  /\ exists db' events,
       finalize HAM_KEY_NOT_FOUND None Scenario.db_recovery
       = Ok HAM_KEY_NOT_FOUND db'
       /\ env_trace (m_env db')
          = env_trace (m_env Scenario.db_recovery) ++ events
       /\ (forall lsn, ~ In (EvChangesetFlush lsn) events)
       /\ (forall id, ~ In (EvTxnAbort id) events
                      /\ ~ In (EvTxnCommit id) events)
       /\ env_lsn (m_env db') = env_lsn (m_env Scenario.db_recovery).
Proof.
  split; [discriminate|].
  apply (finalize_failure_without_local_txn (K := hamsterdb_constants) (C := Reference.collaborators) HAM_KEY_NOT_FOUND
           Scenario.db_recovery).
  discriminate.
Defined.

(** C5 as stated fails.  Recovery and transactions are enabled.  A call of
    the finalizer with [HAM_KEY_NOT_FOUND] and no temporary transaction
    hands the status back and leaves the environment as it is: the
    changeset is neither cleared nor flushed.  So does the whole operation:
    an erase, in the caller's transaction, of a key that is nowhere, comes
    back with [HAM_KEY_NOT_FOUND] after a single collaborator call, the
    B-tree lookup of the conflict check. *)
Lemma finalize_failure_leaves_changeset :
  issetany (env_flags (m_env Scenario.db_journaled)) HAM_ENABLE_RECOVERY
  = true
  /\ finalize HAM_KEY_NOT_FOUND None Scenario.db_journaled
     = Ok HAM_KEY_NOT_FOUND Scenario.db_journaled
  /\ env_trace (m_env Scenario.db_journaled) = []
  /\ exists db',
       erase_impl None (Some (Reference.active 2)) (Some (Reference.key 9)) 0
         Scenario.db_journaled = Ok HAM_KEY_NOT_FOUND db'
       /\ env_trace (m_env db') = [EvBtreeFind (Reference.key 9) 0]
       /\ ~ In EvChangesetClear (env_trace (m_env db'))
       /\ forall lsn, ~ In (EvChangesetFlush lsn) (env_trace (m_env db')).
Proof.
  split; [reflexivity|]. split; [reflexivity|]. split; [reflexivity|].
  eexists. split; [lazy; reflexivity|]. split; [reflexivity|].
  split.
  - intros [H|[]]. discriminate.
  - intros lsn [H|[]]. discriminate.
Qed.



(** Instance of C7: the key of the erase is not in the B-tree; the B-tree
    answers [HAM_KEY_NOT_FOUND], the flush succeeds. *)
Lemma flush_txn_operation_erase_witness :
  is_erase_op Scenario.erase3 = true
  /\ exists st,
       flush_txn_operation (Reference.committed 1) Scenario.erase3
         Scenario.db_active
       = Ok st
           (with_btree_index (Some [])
              (with_env (env_log (EvBtreeErase (Some (Reference.key 3)) 0
                                    kErase))
                 Scenario.db_active))
       /\ st = HAM_SUCCESS
       /\ st <> HAM_KEY_NOT_FOUND.
Proof.
  split; [reflexivity|].
  exact (flush_txn_operation_erase (K := hamsterdb_constants) (C := Reference.collaborators) (Reference.committed 1) Scenario.erase3
           Scenario.db_active [] eq_refl eq_refl).
Defined.

(** Instance of C8: a transaction that is still active holds an insert. *)
Lemma close_impl_txn_still_open_witness :
  exists db',
    close_impl 0 Scenario.db_active = Ok HAM_TXN_STILL_OPEN db'
    /\ m_env db' = m_env Scenario.db_active
    /\ m_txn_index db' = m_txn_index Scenario.db_active
    /\ m_btree_index db' = m_btree_index Scenario.db_active
    /\ m_cursor_list db' = m_cursor_list Scenario.db_active
    /\ m_config db' = m_config Scenario.db_active
    /\ m_rt_flags db' = m_rt_flags Scenario.db_active
    /\ m_error db' = HAM_TXN_STILL_OPEN.
Proof.
  exact (close_impl_txn_still_open (K := hamsterdb_constants) (C := Reference.collaborators) 0 Scenario.db_active
           [Scenario.node3_active] Scenario.node3_active
           Scenario.insert3_active eq_refl (or_introl eq_refl)
           (or_introl eq_refl) eq_refl eq_refl).
Defined.

(** Instance of C10. *)
Lemma cursor_erase_nil_cursor_witness :
  cursor_erase 0 0 Scenario.db_erased3
  = Throw HAM_CURSOR_IS_NIL Scenario.db_erased3.
Proof.
  exact (cursor_erase_nil_cursor (K := hamsterdb_constants) (C := Reference.collaborators) 0%nat 0 Scenario.db_erased3
           Reference.nil_cursor eq_refl eq_refl eq_refl).
Defined.

(** C3 at a concrete input: an exact lookup of key 3, which a committed
    transaction erased with all its duplicates, through a cursor.  The call
    returns [HAM_KEY_NOT_FOUND] and the cursor is left coupled to the erase
    operation (LSN 5). *)
Lemma find_txn_exact_erased_couples_cursor_witness :
  find_txn 1 (Some 0%nat) (Some (Reference.active 2)) (Reference.key 3)
    (Some (Reference.record 0)) 0 Scenario.db_erased3
  = Ok {| fr_status := HAM_KEY_NOT_FOUND; fr_key := Reference.key 3;
          fr_record := Some (Reference.record 0) |}
       (with_cursor_list
          [couple_cursor_to_op Reference.nil_cursor Scenario.erase3]
          Scenario.db_erased3)
  /\ cursor_txn_coupled_op
       (couple_cursor_to_op Reference.nil_cursor Scenario.erase3) = Some 5
  /\ is_coupled_to_txnop
       (couple_cursor_to_op Reference.nil_cursor Scenario.erase3) = true.
Proof.
  destruct (find_txn_exact_erased_couples_cursor (K := hamsterdb_constants) (C := Reference.collaborators) 0%nat 0%nat
              Reference.nil_cursor (Some (Reference.active 2))
              (Reference.key 3) (Some (Reference.record 0)) 0
              Scenario.db_erased3 Scenario.overlay_erased3 Scenario.erase3
              {| ws_key := Reference.key 3; ws_first_loop := false;
                 ws_exact_is_erased := true |}
              eq_refl eq_refl eq_refl eq_refl)
    as (_ & _ & E & _ & Hop & Hflag).
  split; [exact E|]. split; [exact Hop | exact Hflag].
Defined.

(** C9 at a concrete input: pages of 65536 bytes, keys of 122 and records
    of 9 bytes, 65536 / (122 + 9) = 500.  [create] succeeds and
    [HAM_FORCE_RECORDS_INLINE] is neither in the flags handed to the B-tree
    nor in the configuration. *)
Lemma create_inline_threshold_at_500_witness :
  9 <> HAM_RECORD_SIZE_UNLIMITED
  /\ 8 < 9 <= kInlineRecordThreshold
  /\ 65536 / ((122 + 9) mod 2 ^ 32) = 500
  /\ (records_inline 65536 122 9 = false
      /\ create_persistent_flags 0 65536 122 9 = stripped_flags 0)
  /\ exists db',
       create 1 Scenario.db_to_create = Ok HAM_SUCCESS db'
       /\ m_btree_index db'
          = Some (btree_create 1 (stripped_flags 0) 0 122 9)
       /\ notset (cfg_flags (m_config db')) HAM_FORCE_RECORDS_INLINE = true
       /\ notset (stripped_flags 0) HAM_FORCE_RECORDS_INLINE = true.
Proof.
  split; [discriminate|].
  split; [split; [reflexivity | discriminate]|].
  split; [reflexivity|].
  split.
  - apply (create_inline_threshold_at_500 (K := hamsterdb_constants)
             0 65536 122 9).
    + discriminate.
    + split; [reflexivity | discriminate].
    + reflexivity.
  - eexists. split; [lazy; reflexivity|].
    split; [reflexivity|]. split; reflexivity.
Defined.


(** * More properties of the facade *)

Section MoreProperties.

Context {K : ham_constants} {KC : cursor_constants}.
Context {C : Collaborators} {MV : Movers}.

Tactic Notation "bind_inv" hyp(H) "as" ident(a) ident(d) ident(H1) ident(H2) :=
  apply bind_Ok in H; destruct H as (a & d & H1 & H2).

(** ** The flag macros of root.h *)

Lemma testbit_of_eq a b :
  a = b -> forall n, Z.testbit a n = Z.testbit b n.
Proof. intros ->. reflexivity. Qed.

Lemma isset_union f a b : isset f (Z.lor a b) = isset f a && isset f b.
Proof.
  unfold isset.
  destruct (Z.eqb_spec (Z.land f a) a) as [Ha|Ha];
    destruct (Z.eqb_spec (Z.land f b) b) as [Hb|Hb]; simpl.
  - apply Z.eqb_eq. rewrite Z.land_lor_distr_r, Ha, Hb. reflexivity.
  - apply Z.eqb_neq. intros E. apply Hb. apply Z.bits_inj'. intros n Hn.
    pose proof (testbit_of_eq _ _ E n) as En.
    rewrite Z.land_spec, Z.lor_spec in En. rewrite Z.land_spec.
    destruct (Z.testbit f n), (Z.testbit a n), (Z.testbit b n);
      simpl in *; congruence.
  - apply Z.eqb_neq. intros E. apply Ha. apply Z.bits_inj'. intros n Hn.
    pose proof (testbit_of_eq _ _ E n) as En.
    rewrite Z.land_spec, Z.lor_spec in En. rewrite Z.land_spec.
    destruct (Z.testbit f n), (Z.testbit a n), (Z.testbit b n);
      simpl in *; congruence.
  - apply Z.eqb_neq. intros E. apply Ha. apply Z.bits_inj'. intros n Hn.
    pose proof (testbit_of_eq _ _ E n) as En.
    rewrite Z.land_spec, Z.lor_spec in En. rewrite Z.land_spec.
    destruct (Z.testbit f n), (Z.testbit a n), (Z.testbit b n);
      simpl in *; congruence.
Qed.

(** X1 (root.h).  On a mask that is the union of two masks, [isset] asks
    for both, [issetany] for either and [notset] for neither; on the empty
    mask [isset] and [notset] both hold and [issetany] does not; and a mask
    that is set and not empty is set in part. *)
Theorem flag_macros_on_masks (f a b : Z) :
  isset f (Z.lor a b) = isset f a && isset f b
  /\ issetany f (Z.lor a b) = issetany f a || issetany f b
  /\ notset f (Z.lor a b) = notset f a && notset f b
  /\ isset f 0 = true /\ issetany f 0 = false /\ notset f 0 = true
  /\ (isset f a = true -> a <> 0 -> issetany f a = true).
Proof.
  split; [apply isset_union|].
  split; [apply issetany_lor|].
  split.
  { rewrite !notset_issetany, issetany_lor. apply negb_orb. }
  unfold isset, issetany, notset. rewrite Z.land_0_r.
  split; [reflexivity|]. split; [reflexivity|]. split; [reflexivity|].
  intros Hset Hne. apply Z.eqb_eq in Hset. rewrite Hset.
  apply negb_true_iff, Z.eqb_neq, Hne.
Qed.

(** ** The walks over a node's operations *)

Lemma check_insert_walk_skipped txn op ops flags :
  is_skipped txn op = true ->
  check_insert_walk txn (op :: ops) flags = check_insert_walk txn ops flags.
Proof.
  unfold is_skipped. simpl.
  destruct (is_aborted (op_txn op)); [reflexivity|]. simpl.
  destruct (is_committed (op_txn op) || same_txn txn (op_txn op));
    [|discriminate].
  simpl. intros ->. reflexivity.
Qed.

Lemma check_erase_walk_skipped txn op ops :
  is_skipped txn op = true ->
  check_erase_walk txn (op :: ops) = check_erase_walk txn ops.
Proof.
  unfold is_skipped. simpl.
  destruct (is_aborted (op_txn op)); [reflexivity|]. simpl.
  destruct (is_committed (op_txn op) || same_txn txn (op_txn op));
    [|discriminate].
  simpl. intros ->. reflexivity.
Qed.

Lemma find_walk_ops_skipped txn op ops :
  is_skipped txn op = true ->
  find_walk_ops txn (op :: ops) = find_walk_ops txn ops.
Proof.
  unfold is_skipped. simpl.
  destruct (is_aborted (op_txn op)); [reflexivity|]. simpl.
  destruct (is_committed (op_txn op) || same_txn txn (op_txn op));
    [|discriminate].
  simpl. intros ->. reflexivity.
Qed.

(** X2.  Operations of aborted transactions, and operations that are
    visible to the caller and already flushed, count for nothing: the
    conflict check of an insert, the conflict check of an erase and the
    lookup reach the same verdict on the chain without them. *)
Theorem skipped_ops_do_not_count
  (txn : option Transaction) (ops : list TransactionOperation) (flags : Z) :
  let visible := List.filter (fun op => negb (is_skipped txn op)) ops in
  check_insert_walk txn visible flags = check_insert_walk txn ops flags
  /\ check_erase_walk txn visible = check_erase_walk txn ops
  /\ find_walk_ops txn visible = find_walk_ops txn ops.
Proof.
  induction ops as [|op ops (IHi & IHe & IHf)]; [repeat split|].
  cbn zeta in *. simpl List.filter.
  destruct (is_skipped txn op) eqn:Hs; simpl negb; cbv iota.
  - rewrite check_insert_walk_skipped, check_erase_walk_skipped,
      find_walk_ops_skipped by exact Hs.
    auto.
  - unfold is_skipped in Hs. apply orb_false_iff in Hs as [Ha Hv].
    simpl. rewrite Ha, IHi, IHe, IHf.
    destruct (is_committed (op_txn op) || same_txn txn (op_txn op));
      [|auto].
    simpl in Hv. rewrite Hv. auto.
Qed.

(** X3.  When the newest operation that is not stepped over belongs to a
    transaction that is still running and is not the caller's, both conflict
    checks answer [HAM_TXN_CONFLICT] whatever the flags, [HAM_OVERWRITE]
    included, and the B-tree is not asked: the database is untouched. *)
Theorem foreign_active_op_is_a_conflict
  (txn : option Transaction) (node : TransactionNode) (key : ham_key_t)
  (flags : Z) (db : LocalDatabase Btree)
  (skipped rest : list TransactionOperation) (op : TransactionOperation) :
  node_ops node = skipped ++ op :: rest ->
  forallb (is_skipped txn) skipped = true ->
  is_foreign_active txn op = true ->
  check_insert_conflicts txn node key flags db = Ok HAM_TXN_CONFLICT db
  /\ check_erase_conflicts txn node key flags db = Ok HAM_TXN_CONFLICT db.
Proof.
  intros Hops Hskip Hact.
  unfold is_foreign_active in Hact. apply andb_true_iff in Hact as [Ha Hv].
  apply negb_true_iff in Ha, Hv.
  assert (Hi : check_insert_walk txn (node_ops node) flags
               = Some HAM_TXN_CONFLICT).
  { rewrite Hops. clear Hops.
    induction skipped as [|s skipped IH]; simpl app.
    - simpl. rewrite Ha, Hv. reflexivity.
    - simpl in Hskip. apply andb_true_iff in Hskip as [Hs Hskip].
      rewrite check_insert_walk_skipped by exact Hs. apply IH, Hskip. }
  assert (He : check_erase_walk txn (node_ops node) = Some HAM_TXN_CONFLICT).
  { rewrite Hops. clear Hops Hi.
    induction skipped as [|s skipped IH]; simpl app.
    - simpl. rewrite Ha, Hv. reflexivity.
    - simpl in Hskip. apply andb_true_iff in Hskip as [Hs Hskip].
      rewrite check_erase_walk_skipped by exact Hs. apply IH, Hskip. }
  unfold check_insert_conflicts, check_erase_conflicts.
  rewrite Hi, He. split; reflexivity.
Qed.

Lemma check_insert_walk_not_KNF txn ops flags :
  check_insert_walk txn ops flags <> Some HAM_KEY_NOT_FOUND.
Proof.
  induction ops as [|op ops IH]; simpl; [discriminate|].
  repeat match goal with
         | |- context [if ?b then _ else _] => destruct b
         end; try discriminate; exact IH.
Qed.

Lemma check_insert_conflicts_not_KNF txn n key flags db st db' :
  check_insert_conflicts txn n key flags db = Ok st db' ->
  st <> HAM_KEY_NOT_FOUND.
Proof.
  unfold check_insert_conflicts.
  destruct (check_insert_walk txn (node_ops n) flags) as [s|] eqn:Hw.
  - intros H. apply ret_Ok in H as [-> _]. intros ->.
    exact (check_insert_walk_not_KNF _ _ _ Hw).
  - intros H. bind_inv H as rt d Hrt H. destruct (_ || _).
    + apply ret_Ok in H as [-> _]. discriminate.
    + bind_inv H as r d' Hr H.
      destruct (bf_status r); apply ret_Ok in H as [-> _]; discriminate.
Qed.

(** X4.  [insert_txn] never answers [HAM_KEY_NOT_FOUND]: the conflict check
    of an insert turns the B-tree's "not found" into success, and nothing
    else in it produces that status. *)
Theorem insert_txn_never_key_not_found
  (txn : Transaction) (key : ham_key_t) (record : ham_record_t) (flags : Z)
  (cursor : option nat) (db db' : LocalDatabase Btree) (st : ham_status_t) :
  insert_txn txn key record flags cursor db = Ok st db' ->
  st <> HAM_KEY_NOT_FOUND.
Proof.
  intros H. unfold insert_txn in H. bind_inv H as nc db1 Hnode H.
  destruct nc as [node created].
  bind_inv H as idx d Hidx H. bind_inv H as n d2 Hn H.
  bind_inv H as st1 db2 Hcheck H.
  apply check_insert_conflicts_not_KNF in Hcheck.
  destruct (failed st1) eqn:Hf.
  - apply bind_ret_value in H. subst st. exact Hcheck.
  - bind_inv H as lsn d3 Hlsn H. bind_inv H as op d4 Hop H.
    bind_inv H as u d5 Hcur H. bind_inv H as env d6 Henv H.
    apply bind_ret_value in H. subst st. discriminate.
Qed.

(** ** close_impl *)

Lemma close_walk_ops_terminated ops :
  close_walk_ops ops = negb (forallb is_terminated ops).
Proof.
  induction ops as [|op ops IH]; [reflexivity|].
  simpl. unfold is_terminated at 1.
  destruct (is_committed (op_txn op)), (is_aborted (op_txn op)); simpl;
    try exact IH; reflexivity.
Qed.

Lemma close_walk_nodes_terminated nodes :
  close_walk_nodes nodes = negb (no_active_txn (Some nodes)).
Proof.
  induction nodes as [|n nodes IH]; [reflexivity|].
  simpl in *. rewrite close_walk_ops_terminated.
  destruct (forallb is_terminated (node_ops n)); simpl;
    [exact IH | reflexivity].
Qed.

(** X5.  [close_impl] always returns, and it closes the database exactly
    when no operation in the TransactionIndex belongs to a transaction that
    is still running.  Then it flushes the committed transactions (if there
    is a transaction manager), releases the B-tree of an in-memory
    environment and closes the database with the page manager, in this
    order, and does not touch the handle's last error; otherwise the answer
    is [HAM_TXN_STILL_OPEN] and none of these calls is made. *)
Theorem close_impl_closes_iff_no_active_txn
  (flags : Z) (db : LocalDatabase Btree) :
  exists st db',
    close_impl flags db = Ok st db'
    /\ (st = HAM_SUCCESS <-> no_active_txn (m_txn_index db) = true)
    /\ (st = HAM_SUCCESS ->
        db' = with_env
                (fun env => fold_left (fun e ev => env_log ev e)
                              (closing_events db) env) db)
    /\ (st <> HAM_SUCCESS ->
        st = HAM_TXN_STILL_OPEN /\ m_env db' = m_env db).
Proof.
  unfold close_impl.
  rewrite (bind_eq _ _ db (m_txn_index db) db) by reflexivity.
  assert (Hwalk : match m_txn_index db with
                  | Some nodes => close_walk_nodes nodes
                  | None => false
                  end = negb (no_active_txn (m_txn_index db))).
  { destruct (m_txn_index db) as [nodes|]; [|reflexivity].
    apply close_walk_nodes_terminated. }
  destruct (no_active_txn (m_txn_index db)) eqn:Hact;
    simpl in Hwalk; rewrite Hwalk.
  - exists HAM_SUCCESS,
      (with_env (fun env => fold_left (fun e ev => env_log ev e)
                              (closing_events db) env) db).
    split; [|split; [split; reflexivity|split; [reflexivity|]]].
    + destruct (env_txn_manager (m_env db)) eqn:Hm;
        destruct (negb (is_null (m_btree_index db))
                  && issetany (env_flags (m_env db)) HAM_IN_MEMORY) eqn:Hr;
        unfold closing_events, bind, gets, when, log, modify, ret;
        cbv beta iota; rewrite Hm; cbv beta iota;
        cbn [m_btree_index with_env]; rewrite Hr; reflexivity.
    + intros Hne. exfalso. apply Hne. reflexivity.
  - exists HAM_TXN_STILL_OPEN, (with_error HAM_TXN_STILL_OPEN db).
    split; [reflexivity|]. split; [split; discriminate|].
    split; [discriminate|]. intros _. split; reflexivity.
Qed.

(** ** create *)

(** X6.  [create] always returns.  It refuses with [HAM_INV_KEY_SIZE] exactly
    when the key size is limited and fewer than 10 keys (each with 8 bytes
    of overhead) fit a page; the handle then has neither a B-tree nor a
    TransactionIndex that it did not have before, but its configured key
    size has already been replaced by the one of the key type.  Otherwise it
    succeeds, with a fresh B-tree and an empty TransactionIndex. *)
Theorem create_needs_ten_keys_per_page
  (descriptor : Z) (db : LocalDatabase Btree) :
  let ks := create_key_size (m_config db) in
  let page_size := env_page_size (m_env db) in
  let too_large := negb (ks =? HAM_KEY_SIZE_UNLIMITED)
                   && (page_size / (ks + 8) <? 10) in
  exists st db',
    create descriptor db = Ok st db'
    /\ st = (if too_large then HAM_INV_KEY_SIZE else HAM_SUCCESS)
    /\ cfg_key_size (m_config db') = ks
    /\ m_env db' = m_env db
    /\ (too_large = true ->
        m_btree_index db' = m_btree_index db
        /\ m_txn_index db' = m_txn_index db)
    /\ (too_large = false ->
        m_txn_index db' = Some []
        /\ m_btree_index db'
           = Some (btree_create descriptor
                     (create_persistent_flags (m_rt_flags db) page_size ks
                        (cfg_record_size (m_config db)))
                     (cfg_key_type (m_config db)) ks
                     (cfg_record_size (m_config db)))).
Proof.
  intros ks page_size too_large.
  unfold create.
  rewrite (bind_eq _ _ db (m_rt_flags db) db) by reflexivity.
  rewrite (bind_eq _ _ db (m_config db) db) by reflexivity.
  fold ks.
  unfold bind at 1. unfold modify at 1.
  unfold bind at 1. unfold gets at 1. cbn [m_env with_config].
  fold page_size. fold too_large.
  destruct too_large eqn:Htoo.
  - eexists. eexists. split; [reflexivity|].
    split; [reflexivity|]. split; [reflexivity|]. split; [reflexivity|].
    split; [intros _; split; reflexivity | discriminate].
  - destruct (records_inline page_size ks (cfg_record_size (m_config db)))
      eqn:Hinl.
    + eexists. eexists. split.
      { reflexivity. }
      split; [reflexivity|]. split; [reflexivity|]. split; [reflexivity|].
      split; [discriminate | intros _; split; reflexivity].
    + eexists. eexists. split.
      { reflexivity. }
      split; [reflexivity|]. split; [reflexivity|]. split; [reflexivity|].
      split; [discriminate | intros _; split; reflexivity].
Qed.

Lemma land_not32_subset rt mask F :
  Z.land mask F = F -> Z.land (Z.land rt (not32 mask)) F = 0.
Proof.
  intros Hsub. apply Z.bits_inj'. intros n Hn.
  rewrite !Z.land_spec, not32_spec, Z.bits_0 by exact Hn.
  assert (Hb : Z.testbit (Z.land mask F) n = Z.testbit F n)
    by (rewrite Hsub; reflexivity).
  rewrite Z.land_spec in Hb.
  destruct (Z.testbit rt n), (n <? 32), (Z.testbit mask n), (Z.testbit F n);
    simpl in *; congruence.
Qed.

Lemma land_lor_self_l a b : Z.land (Z.lor a b) a = a.
Proof.
  apply Z.bits_inj'. intros n _. rewrite Z.land_spec, Z.lor_spec.
  destruct (Z.testbit a n), (Z.testbit b n); reflexivity.
Qed.

Lemma land_lor_keep a b F :
  Z.land b F = F -> Z.land (Z.lor a b) F = F.
Proof.
  intros H. apply Z.bits_inj'. intros n _.
  assert (Hb : Z.testbit (Z.land b F) n = Z.testbit F n)
    by (rewrite H; reflexivity).
  rewrite Z.land_spec in Hb. rewrite Z.land_spec, Z.lor_spec.
  destruct (Z.testbit a n), (Z.testbit b n), (Z.testbit F n);
    simpl in *; congruence.
Qed.

(** X7.  The flags [create] hands to the B-tree hold none of the flags of
    the session (cache, mmap, fsync, read-only, recovery, transactions),
    whatever the run-time flags are; the one flag [create] may add,
    [HAM_FORCE_RECORDS_INLINE], is assumed not to be one of them. *)
Theorem create_keeps_session_flags_from_btree
  (rt_flags page_size key_size record_size F : Z) :
  In F session_flags ->
  Z.land HAM_FORCE_RECORDS_INLINE F = 0 ->
  issetany (stripped_flags rt_flags) F = false
  /\ issetany (create_persistent_flags rt_flags page_size key_size
                 record_size) F = false.
Proof.
  intros Hin Hinline.
  assert (Hs : Z.land (stripped_flags rt_flags) F = 0).
  { unfold stripped_flags. apply land_not32_subset.
    unfold session_flags in Hin. simpl in Hin.
    destruct Hin as [<-|[<-|[<-|[<-|[<-|[<-|[<-|[]]]]]]]].
    - apply land_lor_self_l.
    - apply land_lor_keep, land_lor_self_l.
    - do 2 apply land_lor_keep. apply land_lor_self_l.
    - do 3 apply land_lor_keep. apply land_lor_self_l.
    - do 4 apply land_lor_keep. apply land_lor_self_l.
    - do 5 apply land_lor_keep. apply land_lor_self_l.
    - do 5 apply land_lor_keep. rewrite Z.lor_comm. apply land_lor_self_l. }
  assert (E : issetany (stripped_flags rt_flags) F = false).
  { unfold issetany. rewrite Hs. reflexivity. }
  split; [exact E|].
  unfold create_persistent_flags.
  destruct (records_inline page_size key_size record_size); [|exact E].
  unfold issetany. rewrite Z.land_lor_distr_l, Hs, Hinline. reflexivity.
Qed.

(** ** finalize *)

(** X8.  Whatever it does, [finalize] hands back the status it was given
    and leaves the cursors, the B-tree and the journal alone.  Without a
    temporary transaction the TransactionIndex stays as it is.  With one,
    the changeset is cleared and the transaction is ended, committed after a
    success and aborted after a failure, which every operation of the
    transaction in the index shows from then on. *)
Theorem finalize_returns_its_status
  (status : ham_status_t) (local_txn : option Transaction)
  (db db' : LocalDatabase Btree) (st : ham_status_t) :
  finalize status local_txn db = Ok st db' ->
  st = status
  /\ m_cursor_list db' = m_cursor_list db
  /\ m_btree_index db' = m_btree_index db
  /\ env_journal (m_env db') = env_journal (m_env db)
  /\ match local_txn with
     | None => m_txn_index db' = m_txn_index db
     | Some t =>
         m_txn_index db'
         = end_txn (negb (failed status)) (failed status) (txn_id t)
             (m_txn_index db)
         /\ env_trace (m_env db')
            = env_trace (m_env db)
              ++ [EvChangesetClear;
                  if failed status then EvTxnAbort (txn_id t)
                  else EvTxnCommit (txn_id t)]
         /\ env_lsn (m_env db') = env_lsn (m_env db)
     end.
Proof.
  unfold finalize. intros H.
  destruct (failed status) eqn:Hf.
  - destruct local_txn as [t|].
    + unfold txn_manager_abort, txn_manager_terminate, txn_manager, log,
        bind, gets, modify, ret in H. simpl in H.
      destruct (env_txn_manager (m_env db)); [|discriminate].
      injection H as <- <-. simpl. rewrite <- app_assoc. repeat split.
    + unfold bind, ret in H. injection H as <- <-. repeat split.
  - destruct local_txn as [t|].
    + unfold txn_manager_commit, txn_manager_terminate, txn_manager, log,
        bind, gets, modify, ret in H. simpl in H.
      destruct (env_txn_manager (m_env db)); [|discriminate].
      injection H as <- <-. apply failed_false in Hf. subst status.
      simpl. rewrite <- app_assoc. repeat split.
    + apply failed_false in Hf. subst status.
      unfold bind, gets, ret in H.
      destruct (issetany (env_flags (m_env db)) HAM_ENABLE_RECOVERY
                && negb (issetany (env_flags (m_env db))
                           HAM_ENABLE_TRANSACTIONS)).
      * unfold get_incremented_lsn, log, bind, gets, modify, ret in H.
        injection H as <- <-. repeat split.
      * injection H as <- <-. repeat split.
Qed.

(** ** Framing *)

Section Keeps.

Variable R : LocalDatabase Btree -> LocalDatabase Btree -> Prop.
Hypothesis R_refl : forall db, R db db.
Hypothesis R_trans : forall a b c, R a b -> R b c -> R a c.

Lemma keeps_ret {A} (x : A) : keeps R (ret x).
Proof. intros db a db' H. apply ret_Ok in H as [_ ->]. apply R_refl. Qed.

Lemma keeps_gets {A} (f : LocalDatabase Btree -> A) : keeps R (gets f).
Proof. intros db a db' H. apply gets_Ok in H as [_ ->]. apply R_refl. Qed.

Lemma keeps_deref {A} (p : option A) : keeps R (deref p).
Proof. intros db a db' H. apply deref_Ok in H as [_ ->]. apply R_refl. Qed.

Lemma keeps_modify f : (forall db, R db (f db)) -> keeps R (modify f).
Proof. intros Hf db a db' H. apply modify_Ok in H as ->. apply Hf. Qed.

Lemma keeps_bind {A B} (m : M A) (k : A -> M B) :
  keeps R m -> (forall a, keeps R (k a)) -> keeps R (bind m k).
Proof.
  intros Hm Hk db b db' H. bind_inv H as a d H1 H2.
  eapply R_trans; [eapply Hm | eapply Hk]; eauto.
Qed.

Lemma keeps_when b (m : M unit) : keeps R m -> keeps R (when b m).
Proof. intros Hm. destruct b; [exact Hm | apply keeps_ret]. Qed.

Lemma keeps_get_cursor c : keeps R (get_cursor c).
Proof.
  unfold get_cursor. apply keeps_bind; [apply keeps_gets|].
  intros cs. apply keeps_deref.
Qed.

Lemma keeps_get_txn_index : keeps R get_txn_index.
Proof.
  unfold get_txn_index. apply keeps_bind; [apply keeps_gets|].
  intros i. apply keeps_deref.
Qed.

Lemma keeps_current_dupecache_index current :
  keeps R (current_dupecache_index current).
Proof.
  unfold current_dupecache_index. destruct current; [|apply keeps_ret].
  apply keeps_bind; [apply keeps_get_cursor|]. intros c. apply keeps_ret.
Qed.

Lemma keeps_copy_record txn op record : keeps R (copy_record txn op record).
Proof.
  unfold copy_record. apply keeps_bind; [apply keeps_deref|].
  intros r. apply keeps_ret.
Qed.

End Keeps.

Lemma only_looks_up_refl db : only_looks_up db db.
Proof.
  split; [reflexivity|]. exists []. split; [|reflexivity].
  symmetry. apply app_nil_r.
Qed.

Lemma only_looks_up_trans a b c :
  only_looks_up a b -> only_looks_up b c -> only_looks_up a c.
Proof.
  intros [E1 (l1 & T1 & F1)] [E2 (l2 & T2 & F2)].
  split; [congruence|]. exists (l1 ++ l2). split.
  - rewrite T2, T1, app_assoc. reflexivity.
  - rewrite forallb_app, F1, F2. reflexivity.
Qed.

Lemma only_looks_up_cursors db cs :
  length cs = length (m_cursor_list db) ->
  only_looks_up db (with_cursor_list cs db).
Proof.
  intros Hlen. split.
  - unfold beyond_cursors. simpl. rewrite Hlen. reflexivity.
  - exists []. split; [|reflexivity]. symmetry. apply app_nil_r.
Qed.

Lemma only_looks_up_find db key flags :
  only_looks_up db (with_env (env_log (EvBtreeFind key flags)) db).
Proof.
  split; [reflexivity|]. exists [EvBtreeFind key flags].
  split; reflexivity.
Qed.

Ltac looks_up_pre :=
  match goal with
  | |- keeps _ (bind _ _) =>
      apply keeps_bind; [exact only_looks_up_trans| |intros ?]
  | |- keeps _ (ret _) => apply keeps_ret; exact only_looks_up_refl
  | |- keeps _ (gets _) => apply keeps_gets; exact only_looks_up_refl
  | |- keeps _ (deref _) => apply keeps_deref; exact only_looks_up_refl
  | |- keeps _ (get_cursor _) =>
      apply keeps_get_cursor;
      [exact only_looks_up_refl | exact only_looks_up_trans]
  | |- keeps _ get_txn_index =>
      apply keeps_get_txn_index;
      [exact only_looks_up_refl | exact only_looks_up_trans]
  | |- keeps _ (copy_record _ _ _) =>
      apply keeps_copy_record;
      [exact only_looks_up_refl | exact only_looks_up_trans]
  | |- keeps _ (when _ _) => apply keeps_when; [exact only_looks_up_refl|]
  end.

Lemma update_cursor_looks_up c f : keeps only_looks_up (update_cursor c f).
Proof.
  unfold update_cursor. repeat looks_up_pre.
  apply keeps_modify. intros db. apply only_looks_up_cursors.
  apply length_insert.
Qed.

Lemma if_cursor_looks_up cursor f : keeps only_looks_up (if_cursor cursor f).
Proof.
  destruct cursor; simpl; [apply update_cursor_looks_up | looks_up_pre].
Qed.

Lemma btree_index_find_looks_up cursor key flags :
  keeps only_looks_up (btree_index_find cursor key flags).
Proof.
  unfold btree_index_find. repeat looks_up_pre.
  - unfold log. apply keeps_modify. intros db. apply only_looks_up_find.
  - apply if_cursor_looks_up.
Qed.

Lemma btree_find_into_looks_up cursor key record flags :
  keeps only_looks_up (btree_find_into cursor key record flags).
Proof.
  unfold btree_find_into. repeat looks_up_pre.
  apply btree_index_find_looks_up.
Qed.

Ltac looks_up :=
  repeat first
    [ looks_up_pre
    | match goal with
      | |- keeps _ (update_cursor _ _) => apply update_cursor_looks_up
      | |- keeps _ (if_cursor _ _) => apply if_cursor_looks_up
      | |- keeps _ (btree_find_into _ _ _ _) => apply btree_find_into_looks_up
      | |- keeps _ (if ?b then _ else _) => destruct b
      | |- keeps _ (match ?x with _ => _ end) => destruct x
      end ].

Lemma find_txn_erased_looks_up cursor op key record :
  keeps only_looks_up (find_txn_erased cursor op key record).
Proof. unfold find_txn_erased. looks_up. Qed.

Lemma find_txn_use_txn_looks_up cursor txn op key txnkey record :
  keeps only_looks_up (find_txn_use_txn cursor txn op key txnkey record).
Proof. unfold find_txn_use_txn. looks_up. Qed.

Lemma find_txn_looks_up fuel : forall cursor txn key record flags,
  keeps only_looks_up (find_txn fuel cursor txn key record flags).
Proof.
  induction fuel as [|fuel IH]; intros cursor txn key record flags.
  - intros db a db' H. discriminate.
  - simpl. unfold find_txn_body, find_txn_approx. looks_up;
      try apply find_txn_erased_looks_up;
      try apply find_txn_use_txn_looks_up;
      try apply IH.
Qed.

(** X9.  A lookup changes nothing but cursors: whatever [find_txn] returns,
    the TransactionIndex, the B-tree, the journal, the LSN, the
    configuration and the number of cursors are what they were, no node was
    created, and the only calls made to collaborators are lookups in the
    B-tree. *)
Theorem find_txn_only_looks_up
  (fuel : nat) (cursor : option nat) (txn : option Transaction)
  (key : ham_key_t) (record : option ham_record_t) (flags : Z)
  (db db' : LocalDatabase Btree) (r : find_result) :
  find_txn fuel cursor txn key record flags db = Ok r db' ->
  only_looks_up db db'
  /\ m_txn_index db' = m_txn_index db
  /\ m_btree_index db' = m_btree_index db
  /\ env_journal (m_env db') = env_journal (m_env db)
  /\ env_lsn (m_env db') = env_lsn (m_env db).
Proof.
  intros H. apply find_txn_looks_up in H.
  split; [exact H|]. destruct H as [E _].
  unfold beyond_cursors in E. injection E as E1 E2 E3 E4 E5 E6 E7 E8 E9 E10
    E11 E12.
  auto.
Qed.

(** ** find_txn on an empty overlay *)

(** X10.  With nothing in the TransactionIndex, [find_txn] is the lookup in
    the B-tree, for exact and for approximate matches alike: the caller's
    key goes to the B-tree with its approximate bits cleared, and what the
    B-tree answers is the result. *)
Theorem find_txn_empty_overlay_asks_btree
  (fuel : nat) (cursor : option nat) (txn : option Transaction)
  (key : ham_key_t) (record : option ham_record_t) (flags : Z)
  (db : LocalDatabase Btree) :
  m_txn_index db = Some [] ->
  find_txn (S fuel) cursor txn key record flags db
  = btree_find_into cursor
      (ham_key_set_intflags key
         (Z.land (ham_key_get_intflags key) (not32 kApproximate)))
      record flags db.
Proof.
  intros Hidx.
  assert (Hwalk : find_txn_walk [] txn key flags
    = Some (WalkOffChain,
            {| ws_key := ham_key_set_intflags key
                           (Z.land (ham_key_get_intflags key)
                              (not32 kApproximate));
               ws_first_loop := true; ws_exact_is_erased := false |})).
  { reflexivity. }
  rewrite (find_txn_unfold _ _ _ _ _ _ _ _ _ Hidx Hwalk). reflexivity.
Qed.

(** ** The TransactionIndex *)

Lemma index_search_lookup idx key : forall i,
  index_search idx key = Some i ->
  exists n, idx !! i = Some n /\ compare_keys key (node_key n) = 0.
Proof.
  induction idx as [|n idx IH]; intros i H; [discriminate|].
  simpl in H. destruct (Z.eqb_spec (compare_keys key (node_key n)) 0) as [E|E].
  - injection H as <-. exists n. split; [reflexivity | exact E].
  - destruct (index_search idx key) as [j|]; [|discriminate].
    injection H as <-. apply IH. reflexivity.
Qed.

Lemma index_search_store idx key new : forall pos,
  index_search idx key = None ->
  compare_keys key (node_key new) = 0 ->
  index_search (take pos idx ++ new :: drop pos idx) key
  = Some (Nat.min pos (length idx)).
Proof.
  induction idx as [|n idx IH]; intros pos Hnone Hnew.
  - rewrite take_nil, drop_nil. simpl. rewrite Hnew. simpl.
    rewrite Nat.min_0_r. reflexivity.
  - simpl in Hnone.
    destruct (compare_keys key (node_key n) =? 0) eqn:E; [discriminate|].
    destruct (index_search idx key) eqn:Hs; [discriminate|].
    destruct pos as [|pos]; simpl.
    + rewrite Hnew. reflexivity.
    + rewrite E. rewrite (IH pos eq_refl Hnew). reflexivity.
Qed.

Lemma index_search_cons n idx key :
  index_search (n :: idx) key
  = if compare_keys key (node_key n) =? 0 then Some 0%nat
    else S <$> index_search idx key.
Proof. reflexivity. Qed.

Lemma index_search_insert (idx : TransactionIndex) key n' : forall i n,
  idx !! i = Some n -> node_key n' = node_key n ->
  index_search (<[i := n']> idx) key = index_search idx key.
Proof.
  induction idx as [|x idx IH]; intros i n Hl Hk; [discriminate|].
  destruct i as [|i]; simpl in Hl.
  - injection Hl as ->.
    change (index_search (n' :: idx) key = index_search (n :: idx) key).
    rewrite !index_search_cons, Hk. reflexivity.
  - change (index_search (x :: <[i := n']> idx) key
            = index_search (x :: idx) key).
    rewrite !index_search_cons.
    destruct (compare_keys key (node_key x) =? 0); [reflexivity|].
    f_equal. exact (IH i n Hl Hk).
Qed.

Lemma index_lookup_insert (idx : TransactionIndex) i n n' :
  idx !! i = Some n -> <[i := n']> idx !! i = Some n'.
Proof.
  intros H. apply list_lookup_insert_eq. eapply lookup_lt_Some. exact H.
Qed.

(** [get_or_create_node] answers with the node the index holds for the key
    from then on. *)
Lemma get_or_create_node_search key db node created db' :
  compare_keys key key = 0 ->
  get_or_create_node key db = Ok (node, created) db' ->
  exists idx n,
    m_txn_index db' = Some idx
    /\ index_search idx key = Some node
    /\ idx !! node = Some n
    /\ m_env db' = m_env db
    /\ m_cursor_list db' = m_cursor_list db
    /\ m_btree_index db' = m_btree_index db
    /\ m_rt_flags db' = m_rt_flags db.
Proof.
  intros Hrefl H. unfold get_or_create_node in H.
  bind_inv H as idx d Hidx H. apply get_txn_index_Ok in Hidx as [Hidx ->].
  unfold txn_index_get in H.
  destruct (index_search idx key) as [i|] eqn:Hs.
  - apply ret_Ok in H as [E ->]. injection E as -> ->.
    destruct (index_search_lookup _ _ _ Hs) as (n & Hn & _).
    exists idx, n. auto 10.
  - unfold txn_index_store in H. simpl node_key in H.
    bind_inv H as u d Hset H. apply set_txn_index_Ok in Hset as ->.
    apply ret_Ok in H as [E ->]. injection E as -> ->.
    pose proof (store_position_le idx key) as Hle.
    eexists. exists (new_TransactionNode key).
    split; [reflexivity|]. split.
    + rewrite (index_search_store idx key (new_TransactionNode key) _ Hs Hrefl).
      f_equal. apply Nat.min_l. exact Hle.
    + split; [|repeat split].
      simpl node_key. apply list_lookup_middle. symmetry.
      apply length_take_le. exact Hle.
Qed.

(** An existing node is found again, and nothing is stored. *)
Lemma get_or_create_node_found key db idx node :
  m_txn_index db = Some idx ->
  index_search idx key = Some node ->
  get_or_create_node key db = Ok (node, false) db.
Proof.
  intros Hidx Hs. unfold get_or_create_node.
  assert (E : get_txn_index db = Ok idx db).
  { unfold get_txn_index, bind, gets. rewrite Hidx. reflexivity. }
  rewrite (bind_eq _ _ _ _ _ E). unfold txn_index_get.
  rewrite Hs. reflexivity.
Qed.

(** ** The head of a chain *)

Lemma find_walk_ops_visible_insert txn op ops :
  is_visible_insert txn op = true ->
  find_walk_ops txn (op :: ops) = VisibleInsert op.
Proof.
  unfold is_visible_insert, is_visible, has_insert_kind. intros H.
  apply andb_true_iff in H as [H Hkind].
  apply andb_true_iff in H as [H Herase].
  apply andb_true_iff in H as [H Hflushed].
  apply andb_true_iff in H as [Ha Hv].
  apply negb_true_iff in Ha, Herase, Hflushed.
  simpl. rewrite Ha, Hv, Hflushed, Herase, Hkind. reflexivity.
Qed.

Lemma find_walk_ops_visible_erase txn op ops :
  is_visible_erase txn op = true ->
  find_walk_ops txn (op :: ops) = VisibleErase op.
Proof.
  unfold is_visible_erase, is_visible. intros H.
  apply andb_true_iff in H as [H Herase].
  apply andb_true_iff in H as [H Hflushed].
  apply andb_true_iff in H as [Ha Hv].
  apply negb_true_iff in Ha, Hflushed.
  simpl. rewrite Ha, Hv, Hflushed, Herase. reflexivity.
Qed.




Lemma check_erase_walk_visible_erase txn op ops :
  is_visible_erase txn op = true ->
  check_erase_walk txn (op :: ops) = Some HAM_KEY_NOT_FOUND.
Proof.
  unfold is_visible_erase, is_visible. intros H.
  apply andb_true_iff in H as [H Herase].
  apply andb_true_iff in H as [H Hflushed].
  apply andb_true_iff in H as [Ha Hv].
  apply negb_true_iff in Ha, Hflushed.
  simpl. rewrite Ha, Hv, Hflushed, Herase. reflexivity.
Qed.


(** ** What the newest operation on a key decides *)

Lemma newest_op_inv db key op :
  newest_op db key = Some op ->
  exists idx node n rest,
    m_txn_index db = Some idx /\ index_search idx key = Some node
    /\ idx !! node = Some n /\ node_ops n = op :: rest.
Proof.
  unfold newest_op. intros H.
  destruct (m_txn_index db) as [idx|]; [|discriminate].
  destruct (index_search idx key) as [node|] eqn:Hs; [|discriminate].
  destruct (idx !! node) as [n|] eqn:Hn; [|discriminate].
  destruct (node_ops n) as [|o rest] eqn:Hops; [discriminate|].
  injection H as ->. exists idx, node, n, rest. auto.
Qed.

Lemma clean_key key :
  key_intflags key = 0 ->
  ham_key_set_intflags key
    (Z.land (ham_key_get_intflags key) (not32 kApproximate)) = key.
Proof.
  destruct key as [d f i]. simpl. intros ->. reflexivity.
Qed.

(** The walk of an exact lookup of a key that has a node. *)
Lemma find_txn_walk_exact db key txn op :
  key_intflags key = 0 ->
  newest_op db key = Some op ->
  exists idx n rest,
    m_txn_index db = Some idx
    /\ node_ops n = op :: rest
    /\ find_txn_walk idx txn key 0
       = Some (find_walk txn 0 (next_siblings idx
                                  (default 0%nat (index_search idx key)))
                 n {| ws_key := key; ws_first_loop := true;
                      ws_exact_is_erased := false |}).
Proof.
  intros Hk H.
  destruct (newest_op_inv _ _ _ H) as (idx & node & n & rest & Hidx & Hs
                                       & Hn & Hops).
  exists idx, n, rest. split; [exact Hidx|]. split; [exact Hops|].
  unfold find_txn_walk, txn_index_get. rewrite (clean_key key Hk).
  rewrite Hs. simpl default. rewrite Hn. reflexivity.
Qed.

Lemma find_walk_on_insert txn flags siblings n ws op :
  find_walk_ops txn (node_ops n) = VisibleInsert op ->
  find_walk txn flags siblings n ws = (WalkInsert op, ws).
Proof. intros H. destruct siblings; simpl; rewrite H; reflexivity. Qed.


Lemma find_walk_on_erase_exact txn siblings n key op :
  find_walk_ops txn (node_ops n) = VisibleErase op ->
  key_intflags key = 0 ->
  find_walk txn 0 siblings n
    {| ws_key := key; ws_first_loop := true; ws_exact_is_erased := false |}
  = (WalkErased op,
     {| ws_key := key; ws_first_loop := false; ws_exact_is_erased := true |}).
Proof.
  intros H Hk. destruct key as [d f i]. simpl in Hk. subst i.
  destruct siblings; simpl; rewrite H; reflexivity.
Qed.

Lemma find_txn_on_visible_insert fuel txn key record db op r :
  key_intflags key = 0 ->
  newest_op db key = Some op ->
  is_visible_insert txn op = true ->
  op_record op = Some r ->
  find_txn (S fuel) None txn key record 0 db
  = Ok {| fr_status := HAM_SUCCESS; fr_key := key;
          fr_record := record_found record (record_data r) |} db.
Proof.
  intros Hk Hnew Hvis Hrec.
  destruct (find_txn_walk_exact db key txn op Hk Hnew)
    as (idx & n & rest & Hidx & Hops & Hwalk).
  rewrite (find_walk_on_insert _ _ _ _ _ op) in Hwalk
    by (rewrite Hops; apply find_walk_ops_visible_insert, Hvis).
  rewrite (find_txn_unfold _ _ _ _ _ _ _ _ _ Hidx Hwalk).
  destruct key as [d f i]. simpl in Hk. subst i. simpl.
  destruct record as [rec|]; simpl; [|reflexivity].
  unfold copy_record, bind, deref, ret. rewrite Hrec. reflexivity.
Qed.

Lemma find_txn_on_visible_erase fuel txn key record db op :
  key_intflags key = 0 ->
  newest_op db key = Some op ->
  is_visible_erase txn op = true ->
  op_referenced_dupe op = 0 ->
  find_txn (S fuel) None txn key record 0 db
  = Ok {| fr_status := HAM_KEY_NOT_FOUND; fr_key := key;
          fr_record := record |} db.
Proof.
  intros Hk Hnew Hvis Hdupe.
  destruct (find_txn_walk_exact db key txn op Hk Hnew)
    as (idx & n & rest & Hidx & Hops & Hwalk).
  rewrite (find_walk_on_erase_exact _ _ _ _ op) in Hwalk
    by (try exact Hk; rewrite Hops; apply find_walk_ops_visible_erase, Hvis).
  rewrite (find_txn_unfold _ _ _ _ _ _ _ _ _ Hidx Hwalk).
  simpl. unfold find_txn_erased. rewrite Hdupe. reflexivity.
Qed.



Lemma erase_txn_on_verdict txn key flags db op st :
  newest_op db key = Some op ->
  (forall rest, check_erase_walk (Some txn) (op :: rest) = Some st) ->
  st <> HAM_SUCCESS ->
  erase_txn txn key flags None db = Ok st db.
Proof.
  intros Hnew Hwalk Hst.
  destruct (newest_op_inv _ _ _ Hnew) as (idx & node & n & rest & Hidx & Hs
                                          & Hn & Hops).
  unfold erase_txn.
  rewrite (bind_eq _ _ _ _ _ (get_or_create_node_found key db idx node
                                Hidx Hs)).
  simpl current_dupecache_index.
  rewrite (bind_eq _ _ db 0 db) by reflexivity.
  simpl orb. cbv iota.
  assert (E : (idx0 <- get_txn_index ;;
               n0 <- deref (idx0 !! node) ;;
               check_erase_conflicts (Some txn) n0 key flags) db
              = Ok st db).
  { unfold get_txn_index, bind, gets, deref, ret. rewrite Hidx, Hn.
    unfold check_erase_conflicts. rewrite Hops, Hwalk. reflexivity. }
  rewrite (bind_eq _ _ _ _ _ E).
  apply failed_true in Hst. rewrite Hst. reflexivity.
Qed.

(** ** The bits of an operation's flags *)

Lemma issetany_lor_self a b : b <> 0 -> issetany (Z.lor a b) b = true.
Proof.
  intros Hb. unfold issetany. rewrite Z.lor_comm, land_lor_self_l.
  apply negb_true_iff, Z.eqb_neq, Hb.
Qed.

Lemma issetany_apart a p b m :
  Z.land p m = 0 -> Z.land b m = 0 ->
  issetany (Z.lor (Z.land a p) b) m = false.
Proof.
  intros Hp Hb. unfold issetany.
  rewrite Z.land_lor_distr_l, <- Z.land_assoc, Hp, Hb, Z.land_0_r.
  reflexivity.
Qed.

Lemma insert_kind_bits flags :
  op_kinds_are_bits ->
  issetany (insert_kind flags) kIsFlushed = false
  /\ issetany (insert_kind flags) kErase = false
  /\ issetany (insert_kind flags) kInsert
     || issetany (insert_kind flags) kInsertOverwrite
     || issetany (insert_kind flags) kInsertDuplicate = true.
Proof.
  intros (He & Hi & Ho & Hd & Hef & Hif & Hof & Hdf & Hie & Hoe & Hde
          & Hpf & Hpe).
  unfold insert_kind.
  destruct (issetany flags HAM_DUPLICATE);
    [|destruct (issetany flags HAM_OVERWRITE)].
  - split; [apply issetany_apart; assumption|].
    split; [apply issetany_apart; assumption|].
    rewrite (issetany_lor_self _ kInsertDuplicate Hd). apply orb_true_r.
  - split; [apply issetany_apart; assumption|].
    split; [apply issetany_apart; assumption|].
    rewrite (issetany_lor_self _ kInsertOverwrite Ho).
    rewrite orb_true_r. reflexivity.
  - split; [apply issetany_apart; assumption|].
    split; [apply issetany_apart; assumption|].
    rewrite (issetany_lor_self _ kInsert Hi). reflexivity.
Qed.

Lemma erase_kind_bits :
  op_kinds_are_bits ->
  issetany kErase kIsFlushed = false /\ issetany kErase kErase = true.
Proof.
  intros (He & _ & _ & _ & Hef & _). unfold issetany.
  rewrite Hef, Z.land_diag. split; [reflexivity|].
  apply negb_true_iff, Z.eqb_neq, He.
Qed.

Lemma same_txn_refl txn : same_txn (Some txn) txn = true.
Proof. apply Nat.eqb_refl. Qed.

(** ** The steps of insert_txn and erase_txn *)

Lemma get_incremented_lsn_spec db l db' :
  get_incremented_lsn db = Ok l db' ->
  l = (env_lsn (m_env db) + 1) mod 2 ^ 64
  /\ db' = with_env (env_set_lsn l) db.
Proof.
  unfold get_incremented_lsn. intros H. bind_inv H as l0 d Hl H.
  apply gets_Ok in Hl as [-> ->]. bind_inv H as u d Hset Hret.
  apply modify_Ok in Hset as ->. apply ret_Ok in Hret as [-> ->].
  split; reflexivity.
Qed.

Lemma append_op_spec node txn orig_flags flags lsn record db op db'
  (idx : TransactionIndex) n :
  m_txn_index db = Some idx -> idx !! node = Some n ->
  append_op node txn orig_flags flags lsn record db = Ok op db' ->
  op = {| op_txn := txn; op_node_key := node_key n; op_flags := flags;
          op_orig_flags := orig_flags; op_lsn := lsn;
          op_referenced_dupe := 0; op_record := record |}
  /\ db' = with_txn_index
             (Some (<[node := {| node_key := node_key n;
                                 node_ops := op :: node_ops n |}]> idx)) db.
Proof.
  intros Hidx Hn H. unfold append_op in H. bind_inv H as i d Hi H.
  apply get_txn_index_Ok in Hi as [Hi ->]. rewrite Hidx in Hi.
  injection Hi as <-.
  bind_inv H as n0 d Hd H. apply deref_Ok in Hd as [Hd ->].
  rewrite Hn in Hd. injection Hd as <-.
  unfold node_append in H. bind_inv H as u d Hset Hret.
  apply set_txn_index_Ok in Hset as ->. apply ret_Ok in Hret as [-> ->].
  split; reflexivity.
Qed.

Lemma check_insert_conflicts_looks_up txn n key flags :
  keeps only_looks_up (check_insert_conflicts txn n key flags).
Proof.
  unfold check_insert_conflicts.
  destruct (check_insert_walk txn (node_ops n) flags).
  - apply keeps_ret, only_looks_up_refl.
  - apply keeps_bind; [exact only_looks_up_trans | |intros rt].
    + apply keeps_gets, only_looks_up_refl.
    + destruct (_ || _); [apply keeps_ret, only_looks_up_refl|].
      apply keeps_bind; [exact only_looks_up_trans | |intros r].
      * apply btree_index_find_looks_up.
      * destruct (bf_status r); apply keeps_ret, only_looks_up_refl.
Qed.

Lemma check_erase_conflicts_looks_up txn n key flags :
  keeps only_looks_up (check_erase_conflicts txn n key flags).
Proof.
  unfold check_erase_conflicts.
  destruct (check_erase_walk txn (node_ops n)).
  - apply keeps_ret, only_looks_up_refl.
  - apply keeps_bind; [exact only_looks_up_trans | |intros r].
    + apply btree_index_find_looks_up.
    + apply keeps_ret, only_looks_up_refl.
Qed.

Lemma only_looks_up_index db db' :
  only_looks_up db db' ->
  m_txn_index db' = m_txn_index db
  /\ env_lsn (m_env db') = env_lsn (m_env db)
  /\ env_journal (m_env db') = env_journal (m_env db)
  /\ env_flags (m_env db') = env_flags (m_env db)
  /\ m_btree_index db' = m_btree_index db.
Proof.
  intros [E _]. unfold beyond_cursors in E.
  injection E as E1 E2 E3 E4 E5 E6 E7 E8 E9 E10 E11 E12. auto.
Qed.

Lemma nil_all_cursors_in_node_cursors txn current node db u db' :
  nil_all_cursors_in_node txn current node db = Ok u db' ->
  exists cs, db' = with_cursor_list cs db.
Proof.
  unfold nil_all_cursors_in_node. intros H. bind_inv H as idx d Hidx H.
  apply get_txn_index_Ok in Hidx as [_ ->].
  bind_inv H as n d Hn H. apply deref_Ok in Hn as [_ ->].
  bind_inv H as dupe d Hd H. apply current_dupecache_index_Ok in Hd as ->.
  apply modify_Ok in H as ->. eexists. reflexivity.
Qed.

Lemma nil_all_cursors_in_btree_cursors current key db u db' :
  nil_all_cursors_in_btree current key db = Ok u db' ->
  exists cs, db' = with_cursor_list cs db.
Proof.
  unfold nil_all_cursors_in_btree. intros H.
  bind_inv H as dupe d Hd H. apply current_dupecache_index_Ok in Hd as ->.
  apply modify_Ok in H as ->. eexists. reflexivity.
Qed.

(** The newest operation on the key after [insert_txn]. *)
Lemma insert_txn_newest_op txn key record flags db db' :
  compare_keys key key = 0 ->
  insert_txn txn key record flags None db = Ok HAM_SUCCESS db' ->
  exists op,
    newest_op db' key = Some op
    /\ op_txn op = txn /\ op_flags op = insert_kind flags
    /\ op_record op = Some record /\ op_referenced_dupe op = 0
    /\ op_lsn op = (env_lsn (m_env db) + 1) mod 2 ^ 64.
Proof.
  intros Hrefl H. unfold insert_txn in H.
  bind_inv H as nc db1 Hnode H. destruct nc as [node created].
  destruct (get_or_create_node_search _ _ _ _ _ Hrefl Hnode)
    as (idx & n & Hidx1 & Hs & Hn & Henv1 & _).
  bind_inv H as idx' d Hgi H. apply get_txn_index_Ok in Hgi as [Hgi ->].
  rewrite Hidx1 in Hgi. injection Hgi as <-.
  bind_inv H as n' d Hd H. apply deref_Ok in Hd as [Hd ->].
  rewrite Hn in Hd. injection Hd as <-.
  bind_inv H as st1 db2 Hcheck H.
  apply check_insert_conflicts_looks_up, only_looks_up_index in Hcheck
    as (Hidx2 & Hlsn2 & _).
  destruct (failed st1) eqn:Hf.
  { apply bind_ret_value in H. subst st1. discriminate. }
  bind_inv H as lsn db3 Hlsn H.
  apply get_incremented_lsn_spec in Hlsn as [Hl ->].
  bind_inv H as op db4 Hop H.
  apply (append_op_spec _ _ _ _ _ _ _ _ _ idx n) in Hop as [Hop ->];
    [|simpl; congruence | exact Hn].
  bind_inv H as u db5 Hcur H. apply ret_Ok in Hcur as [_ ->].
  bind_inv H as env db6 Henv H. apply gets_Ok in Henv as [_ ->].
  bind_inv H as u2 db7 Hj H. apply ret_Ok in H as [_ ->].
  assert (Hidx7 : m_txn_index db7
                  = Some (<[node := {| node_key := node_key n;
                                       node_ops := op :: node_ops n |}]> idx)).
  { destruct (journal_enabled _); simpl in Hj.
    - apply modify_Ok in Hj as ->. reflexivity.
    - apply ret_Ok in Hj as [_ ->]. reflexivity. }
  exists op. split.
  - unfold newest_op. rewrite Hidx7.
    rewrite (index_search_insert idx key
               {| node_key := node_key n; node_ops := op :: node_ops n |}
               node n Hn eq_refl), Hs.
    rewrite (index_lookup_insert idx node n _ Hn).
    reflexivity.
  - rewrite Hop. simpl. unfold insert_kind.
    repeat split. rewrite Hl. congruence.
Qed.

(** The newest operation on the key after [erase_txn]. *)
Lemma erase_txn_newest_op txn key flags db db' :
  compare_keys key key = 0 ->
  erase_txn txn key flags None db = Ok HAM_SUCCESS db' ->
  exists op,
    newest_op db' key = Some op
    /\ op_txn op = txn /\ op_flags op = kErase
    /\ op_record op = None /\ op_referenced_dupe op = 0
    /\ op_lsn op = (env_lsn (m_env db) + 1) mod 2 ^ 64.
Proof.
  intros Hrefl H. unfold erase_txn in H.
  bind_inv H as nc db1 Hnode H. destruct nc as [node created].
  destruct (get_or_create_node_search _ _ _ _ _ Hrefl Hnode)
    as (idx & n & Hidx1 & Hs & Hn & Henv1 & _).
  bind_inv H as dupe d Hdupe H. apply ret_Ok in Hdupe as [-> ->].
  bind_inv H as st1 db2 Hcheck H.
  simpl in Hcheck.
  bind_inv Hcheck as idx' d Hgi Hcheck.
  apply get_txn_index_Ok in Hgi as [Hgi ->].
  bind_inv Hcheck as n' d Hd Hcheck. apply deref_Ok in Hd as [Hd ->].
  apply check_erase_conflicts_looks_up, only_looks_up_index in Hcheck
    as (Hidx2 & Hlsn2 & _).
  destruct (failed st1) eqn:Hf.
  { apply bind_ret_value in H. subst st1. discriminate. }
  bind_inv H as lsn db3 Hlsn H.
  apply get_incremented_lsn_spec in Hlsn as [Hl ->].
  bind_inv H as op db4 Hop H.
  apply (append_op_spec _ _ _ _ _ _ _ _ _ idx n) in Hop as [Hop ->];
    [|simpl; congruence | exact Hn].
  bind_inv H as u db5 Hdup H. simpl in Hdup. apply ret_Ok in Hdup as [_ ->].
  bind_inv H as u1 db6 Hnil H.
  apply nil_all_cursors_in_node_cursors in Hnil as [cs1 ->].
  bind_inv H as idx6 db7 Hgi6 H. apply get_txn_index_Ok in Hgi6 as [_ ->].
  bind_inv H as n6 db8 Hn6 H. apply deref_Ok in Hn6 as [_ ->].
  bind_inv H as u2 db9 Hnil2 H.
  apply nil_all_cursors_in_btree_cursors in Hnil2 as [cs2 ->].
  bind_inv H as env db10 Henv H. apply gets_Ok in Henv as [_ ->].
  bind_inv H as u3 db11 Hj H. apply ret_Ok in H as [_ ->].
  assert (Hidx11 : m_txn_index db11
                   = Some (<[node := {| node_key := node_key n;
                                        node_ops := op :: node_ops n |}]> idx)).
  { destruct (journal_enabled _); simpl in Hj.
    - apply modify_Ok in Hj as ->. reflexivity.
    - apply ret_Ok in Hj as [_ ->]. reflexivity. }
  exists op. split.
  - unfold newest_op. rewrite Hidx11.
    rewrite (index_search_insert idx key
               {| node_key := node_key n; node_ops := op :: node_ops n |}
               node n Hn eq_refl), Hs.
    rewrite (index_lookup_insert idx node n _ Hn).
    reflexivity.
  - rewrite Hop. simpl. repeat split. rewrite Hl. congruence.
Qed.

(** ** What a transaction sees of its own operations *)

Lemma own_insert_is_visible txn op flags :
  op_kinds_are_bits -> is_aborted txn = false ->
  op_txn op = txn -> op_flags op = insert_kind flags ->
  is_visible_insert (Some txn) op = true.
Proof.
  intros Hbits Ha Htxn Hflags.
  destruct (insert_kind_bits flags Hbits) as (Hf & He & Hk).
  unfold is_visible_insert, is_visible, has_insert_kind.
  rewrite Htxn, Hflags, Ha, same_txn_refl, Hf, He, Hk, orb_true_r.
  reflexivity.
Qed.

Lemma own_erase_is_visible txn op :
  op_kinds_are_bits -> is_aborted txn = false ->
  op_txn op = txn -> op_flags op = kErase ->
  is_visible_erase (Some txn) op = true.
Proof.
  intros Hbits Ha Htxn Hflags.
  destruct (erase_kind_bits Hbits) as (Hf & He).
  unfold is_visible_erase, is_visible.
  rewrite Htxn, Hflags, Ha, same_txn_refl, Hf, He, orb_true_r.
  reflexivity.
Qed.


(** X11.  A transaction reads what it has inserted: after a successful
    [insert_txn], an exact lookup of the key by the same transaction
    succeeds with the bytes of the inserted record, whatever the B-tree
    holds, and changes nothing. *)
Theorem insert_txn_then_find_txn
  (fuel : nat) (txn : Transaction) (key : ham_key_t)
  (record : ham_record_t) (flags : Z) (lookup : option ham_record_t)
  (db db' : LocalDatabase Btree) :
  op_kinds_are_bits ->
  compare_keys key key = 0 -> key_intflags key = 0 ->
  is_aborted txn = false ->
  insert_txn txn key record flags None db = Ok HAM_SUCCESS db' ->
  find_txn (S fuel) None (Some txn) key lookup 0 db'
  = Ok {| fr_status := HAM_SUCCESS; fr_key := key;
          fr_record := record_found lookup (record_data record) |} db'.
Proof.
  intros Hbits Hrefl Hk Ha H.
  destruct (insert_txn_newest_op _ _ _ _ _ _ Hrefl H)
    as (op & Hnew & Htxn & Hflags & Hrec & _).
  eapply find_txn_on_visible_insert; eauto.
  eapply own_insert_is_visible; eauto.
Qed.


(** X13.  An erased key is gone for its transaction: after a successful
    [erase_txn] (of all duplicates, without a cursor), an exact lookup by
    the same transaction answers [HAM_KEY_NOT_FOUND] without asking the
    B-tree, and so does a second erase; both leave the database as it
    is. *)
Theorem erase_txn_then_key_not_found
  (fuel : nat) (txn : Transaction) (key : ham_key_t) (flags flags2 : Z)
  (lookup : option ham_record_t) (db db' : LocalDatabase Btree) :
  op_kinds_are_bits ->
  compare_keys key key = 0 -> key_intflags key = 0 ->
  is_aborted txn = false ->
  erase_txn txn key flags None db = Ok HAM_SUCCESS db' ->
  find_txn (S fuel) None (Some txn) key lookup 0 db'
  = Ok {| fr_status := HAM_KEY_NOT_FOUND; fr_key := key;
          fr_record := lookup |} db'
  /\ erase_txn txn key flags2 None db' = Ok HAM_KEY_NOT_FOUND db'.
Proof.
  intros Hbits Hrefl Hk Ha H.
  destruct (erase_txn_newest_op _ _ _ _ _ Hrefl H)
    as (op & Hnew & Htxn & Hflags & _ & Hdupe & _).
  pose proof (own_erase_is_visible _ _ Hbits Ha Htxn Hflags) as Hvis.
  split.
  - eapply find_txn_on_visible_erase; eauto.
  - apply (erase_txn_on_verdict _ _ _ _ op); [exact Hnew | | discriminate].
    intros rest. apply check_erase_walk_visible_erase, Hvis.
Qed.


(** ** nil_all_cursors_in_node *)

Lemma get_cursor_list_nil op cs :
  get_cursor_list op cs = [] <->
  (forall i c, cs !! i = Some c -> coupled_to (op_lsn op) c = false).
Proof.
  unfold get_cursor_list. generalize 0%nat.
  induction cs as [|x cs IH]; intros k.
  - split; [intros _ i c H; discriminate | reflexivity].
  - rewrite cursors_coupled_to_cons. split.
    + intros H i c Hl. destruct (coupled_to (op_lsn op) x) eqn:Hx;
        [discriminate|].
      destruct i as [|i]; simpl in Hl.
      * injection Hl as <-. exact Hx.
      * apply (proj1 (IH (S k)) H i c Hl).
    + intros H. rewrite (H 0%nat x eq_refl).
      apply IH. intros i c Hl. apply (H (S i) c Hl).
Qed.

(** A pass of the inner loop never couples a cursor: it lowers duplicate
    indices and uncouples. *)
Lemma nil_cursors_pass_shrinks d : forall coupled cs cs' again,
  nil_cursors_pass d coupled cs = (cs', again) ->
  length cs' = length cs
  /\ forall i c', cs' !! i = Some c' ->
     exists c, cs !! i = Some c
               /\ forall lsn, coupled_to lsn c' = true ->
                              coupled_to lsn c = true.
Proof.
  induction coupled as [|j coupled IH]; intros cs cs' again H; simpl in H.
  - injection H as <- <-. split; [reflexivity|]. intros i c' Hl. eauto.
  - destruct (cs !! j) as [parent|] eqn:Hj.
    + destruct (negb (d =? 0) && (d <? cursor_dupecache_index parent)).
      * apply IH in H as [Hlen Hc]. rewrite length_insert in Hlen.
        split; [exact Hlen|]. intros i c' Hl.
        destruct (Hc i c' Hl) as (c & Hl1 & Hsub).
        destruct (Nat.eq_dec j i) as [->|Hne].
        -- rewrite list_lookup_insert_eq in Hl1
             by (eapply lookup_lt_Some; eauto).
           injection Hl1 as <-. exists parent. split; [exact Hj|].
           intros lsn Hlsn. apply Hsub in Hlsn. exact Hlsn.
        -- rewrite list_lookup_insert_ne in Hl1 by exact Hne. eauto.
      * destruct (negb (d =? 0) && (cursor_dupecache_index parent <? d)).
        -- apply IH in H. exact H.
        -- injection H as <- <-. rewrite length_insert.
           split; [reflexivity|]. intros i c' Hl.
           destruct (Nat.eq_dec j i) as [->|Hne].
           ++ rewrite list_lookup_insert_eq in Hl
                by (eapply lookup_lt_Some; eauto).
              injection Hl as <-. exists parent. split; [exact Hj|].
              intros lsn Hlsn. discriminate.
           ++ rewrite list_lookup_insert_ne in Hl by exact Hne. eauto.
    + injection H as <- <-. split; [reflexivity|]. eauto.
Qed.

Lemma nil_op_cursors_shrinks d op : forall fuel cs,
  length (nil_op_cursors fuel d op cs) = length cs
  /\ forall i c', nil_op_cursors fuel d op cs !! i = Some c' ->
     exists c, cs !! i = Some c
               /\ forall lsn, coupled_to lsn c' = true ->
                              coupled_to lsn c = true.
Proof.
  induction fuel as [|fuel IH]; intros cs; simpl.
  - split; [reflexivity|]. eauto.
  - destruct (nil_cursors_pass d (get_cursor_list op cs) cs)
      as [cs1 again] eqn:E.
    apply nil_cursors_pass_shrinks in E as [Hlen Hc].
    destruct again; [|split; [exact Hlen | exact Hc]].
    destruct (IH cs1) as [Hlen2 Hc2]. split; [congruence|].
    intros i c' Hl. destruct (Hc2 i c' Hl) as (c1 & Hl1 & Hs1).
    destruct (Hc i c1 Hl1) as (c & Hl0 & Hs0).
    exists c. split; [exact Hl0|]. auto.
Qed.

(** With nothing to adjust (no cursor started the erase, or it stands on no
    duplicate), the loop over the cursors of an operation uncouples them
    all. *)
Lemma nil_op_cursors_uncouples op : forall fuel cs,
  (length (get_cursor_list op cs) < fuel)%nat ->
  get_cursor_list op (nil_op_cursors fuel 0 op cs) = [].
Proof.
  induction fuel as [|fuel IH]; intros cs Hlt; [lia|].
  change (nil_op_cursors (S fuel) 0 op cs)
    with (let (cs', again) := nil_cursors_pass 0 (get_cursor_list op cs) cs in
          if again then nil_op_cursors fuel 0 op cs' else cs').
  destruct (nil_cursors_pass 0 (get_cursor_list op cs) cs)
    as [cs1 again] eqn:E.
  destruct (get_cursor_list op cs) as [|i coupled] eqn:Hlist.
  - simpl in E. injection E as <- <-. exact Hlist.
  - assert (Hin : In i (cursors_coupled_to (op_lsn op) 0 cs)).
    { unfold get_cursor_list in Hlist. rewrite Hlist. left. reflexivity. }
    destruct (cursors_coupled_to_lookup _ _ _ _ Hin) as (c & _ & Hl & Hc).
    replace (i - 0)%nat with i in Hl by lia.
    assert (Hagain : again = true).
    { simpl in E. rewrite Hl in E. simpl in E. injection E as _ <-.
      reflexivity. }
    subst again. apply IH.
    assert (length (get_cursor_list op cs1)
            < length (get_cursor_list op cs))%nat.
    { apply (nil_cursors_pass_restart 0 op (i :: coupled) cs cs1);
        [|exact E].
      intros j Hj. rewrite <- Hlist in Hj. unfold get_cursor_list in Hj.
      destruct (cursors_coupled_to_lookup _ _ _ _ Hj) as (c0 & _ & Hl0 & Hc0).
      replace (j - 0)%nat with j in Hl0 by lia. eauto. }
    rewrite Hlist in H. simpl in H. simpl in Hlt. lia.
Qed.

Lemma nil_ops_shrinks d : forall ops cs,
  let cs' := fold_left (fun cs op => nil_op_cursors (S (length cs)) d op cs)
               ops cs in
  length cs' = length cs
  /\ forall i c', cs' !! i = Some c' ->
     exists c, cs !! i = Some c
               /\ forall lsn, coupled_to lsn c' = true ->
                              coupled_to lsn c = true.
Proof.
  induction ops as [|op ops IH]; intros cs; cbv zeta in *; cbn [fold_left].
  - split; [reflexivity|]. eauto.
  - destruct (IH (nil_op_cursors (S (length cs)) d op cs)) as [Hlen Hc].
    destruct (nil_op_cursors_shrinks d op (S (length cs)) cs) as [Hlen1 Hc1].
    split; [rewrite Hlen; exact Hlen1|]. intros i c' Hl.
    destruct (Hc i c' Hl) as (c1 & Hl1 & Hs1).
    destruct (Hc1 i c1 Hl1) as (c & Hl0 & Hs0).
    exists c. split; [exact Hl0|]. auto.
Qed.

Lemma nil_ops_uncouples : forall ops cs op,
  In op ops ->
  get_cursor_list op
    (fold_left (fun cs op => nil_op_cursors (S (length cs)) 0 op cs) ops cs)
  = [].
Proof.
  induction ops as [|o ops IH]; intros cs op Hin; [destruct Hin|].
  cbn [fold_left]. destruct Hin as [->|Hin]; [|apply IH, Hin].
  apply get_cursor_list_nil. intros i c' Hl.
  destruct (nil_ops_shrinks 0 ops (nil_op_cursors (S (length cs)) 0 op cs))
    as [_ Hc].
  destruct (Hc i c' Hl) as (c & Hl1 & Hsub).
  assert (Hnil : get_cursor_list op
                   (nil_op_cursors (S (length cs)) 0 op cs) = []).
  { apply nil_op_cursors_uncouples.
    pose proof (get_cursor_list_length op cs). lia. }
  pose proof (proj1 (get_cursor_list_nil _ _) Hnil i c Hl1) as Hc0.
  destruct (coupled_to (op_lsn op) c') eqn:Hc'; [|reflexivity].
  apply Hsub in Hc'. congruence.
Qed.

(** X15.  After [nil_all_cursors_in_node], when no cursor started the erase
    or it stands on no duplicate, no cursor of the database is coupled to
    any operation of the node; the cursors are as many as before, and none
    of them got coupled to anything. *)
Theorem nil_all_cursors_in_node_uncouples
  (txn : Transaction) (current : option nat) (node : nat)
  (db db' : LocalDatabase Btree) (idx : TransactionIndex)
  (n : TransactionNode) :
  m_txn_index db = Some idx -> idx !! node = Some n ->
  current_dupecache_index current db = Ok 0 db ->
  nil_all_cursors_in_node txn current node db = Ok tt db' ->
  (forall op, In op (node_ops n) ->
     get_cursor_list op (m_cursor_list db') = [])
  /\ length (m_cursor_list db') = length (m_cursor_list db)
  /\ (forall i c', m_cursor_list db' !! i = Some c' ->
      exists c, m_cursor_list db !! i = Some c
                /\ forall lsn, coupled_to lsn c' = true ->
                               coupled_to lsn c = true)
  /\ db' = with_cursor_list (m_cursor_list db') db.
Proof.
  intros Hidx Hn Hd H. unfold nil_all_cursors_in_node in H.
  assert (E : get_txn_index db = Ok idx db).
  { unfold get_txn_index, bind, gets. rewrite Hidx. reflexivity. }
  rewrite (bind_eq _ _ _ _ _ E) in H.
  assert (E2 : deref (idx !! node) db = Ok n db) by (rewrite Hn; reflexivity).
  rewrite (bind_eq _ _ _ _ _ E2) in H.
  rewrite (bind_eq _ _ _ _ _ Hd) in H.
  apply modify_Ok in H. subst db'. simpl.
  split; [intros op Hin; apply nil_ops_uncouples, Hin|].
  destruct (nil_ops_shrinks 0 (node_ops n) (m_cursor_list db)) as [Hlen Hc].
  split; [exact Hlen|]. split; [exact Hc | reflexivity].
Qed.

(** ** nil_all_cursors_in_btree *)

(** X16.  After [nil_all_cursors_in_btree] for a key, when no cursor started
    the erase or it stands on no duplicate, no cursor other than the one
    that started the erase is left on the B-tree side at this key; that
    cursor, and every cursor that is nil or coupled to an operation, is
    untouched. *)
Theorem nil_all_cursors_in_btree_clears_key
  (current : option nat) (key : ham_key_t) (db db' : LocalDatabase Btree) :
  current_dupecache_index current db = Ok 0 db ->
  nil_all_cursors_in_btree current key db = Ok tt db' ->
  length (m_cursor_list db') = length (m_cursor_list db)
  /\ (forall i c', m_cursor_list db' !! i = Some c' ->
      current <> Some i -> is_coupled_to_txnop c' = false ->
      points_to c' key = false)
  /\ (forall i c, m_cursor_list db !! i = Some c ->
      current = Some i \/ is_nil kAny c = true
      \/ is_coupled_to_txnop c = true \/ points_to c key = false ->
      m_cursor_list db' !! i = Some c)
  /\ db' = with_cursor_list (m_cursor_list db') db.
Proof.
  intros Hd H. unfold nil_all_cursors_in_btree in H.
  rewrite (bind_eq _ _ _ _ _ Hd) in H.
  apply modify_Ok in H. subst db'. simpl.
  split; [apply length_imap|]. split; [|split; [|reflexivity]].
  - intros i c' Hl Hcur Htxn. rewrite list_lookup_imap in Hl.
    destruct (m_cursor_list db !! i) as [c|]; [|discriminate].
    simpl in Hl. injection Hl as <-.
    unfold nil_all_cursors_in_btree_step in *.
    assert (Hne : match current with
                  | Some j => Nat.eqb i j | None => false end = false).
    { destruct current as [j|]; [|reflexivity].
      apply Nat.eqb_neq. intros ->. apply Hcur. reflexivity. }
    rewrite Hne, orb_false_r in *.
    destruct (is_nil kAny c) eqn:Hnil.
    + unfold is_nil in Hnil. apply andb_true_iff in Hnil as [Hb _].
      unfold points_to. destruct (cursor_btree c); [discriminate|reflexivity].
    + destruct (is_coupled_to_txnop c) eqn:Hc; [congruence|].
      destruct (points_to c key) eqn:Hp; [|exact Hp].
      reflexivity.
  - intros i c Hl Hwhy. rewrite list_lookup_imap, Hl. simpl. f_equal.
    unfold nil_all_cursors_in_btree_step, is_nil.
    destruct Hwhy as [->|[Hnil|[Htxn|Hp]]].
    + rewrite Nat.eqb_refl, orb_true_r. reflexivity.
    + rewrite Hnil. reflexivity.
    + rewrite Htxn. destruct (_ || _); reflexivity.
    + rewrite Hp. destruct (_ || _); [reflexivity|].
      destruct (is_coupled_to_txnop c); reflexivity.
Qed.

Ltac keeps_pre refl trans :=
  match goal with
  | |- keeps _ (bind _ _) => apply keeps_bind; [exact trans| |intros ?]
  | |- keeps _ (ret _) => apply keeps_ret; exact refl
  | |- keeps _ (gets _) => apply keeps_gets; exact refl
  | |- keeps _ (deref _) => apply keeps_deref; exact refl
  | |- keeps _ (get_cursor _) =>
      apply keeps_get_cursor; [exact refl | exact trans]
  | |- keeps _ get_txn_index =>
      apply keeps_get_txn_index; [exact refl | exact trans]
  | |- keeps _ (copy_record _ _ _) =>
      apply keeps_copy_record; [exact refl | exact trans]
  | |- keeps _ (current_dupecache_index _) =>
      apply keeps_current_dupecache_index; [exact refl | exact trans]
  | |- keeps _ (when _ _) => apply keeps_when; [exact refl|]
  | |- keeps _ (if ?b then _ else _) => destruct b
  | |- keeps _ (match ?x with _ => _ end) => destruct x
  | |- keeps _ (modify _) => apply keeps_modify; intros ?
  end.

(** ** The environment in insert_txn *)

Lemma same_env_refl db : same_env db db.
Proof. reflexivity. Qed.

Lemma same_env_trans a b c : same_env a b -> same_env b c -> same_env a c.
Proof. unfold same_env. congruence. Qed.

Ltac same_env_tac :=
  repeat keeps_pre same_env_refl same_env_trans; try reflexivity.

Lemma update_cursor_env c f : keeps same_env (update_cursor c f).
Proof. unfold update_cursor. same_env_tac. Qed.

Lemma update_op_keeps_env node lsn f : keeps same_env (update_op node lsn f).
Proof. unfold update_op, set_txn_index. same_env_tac. Qed.

Lemma increment_dupe_index_env node skip start :
  keeps same_env (increment_dupe_index node skip start).
Proof. unfold increment_dupe_index. same_env_tac. Qed.

(** X17.  A successful [insert_txn] takes one LSN, the next one, for its
    operation.  With recovery and transactions enabled it appends one insert
    record to the journal, with the key, the record and this LSN; the
    record carries the caller's flags when they hold [HAM_DUPLICATE], and
    otherwise the caller's flags with [HAM_OVERWRITE] added.  Without them
    the journal is as before. *)
Theorem insert_txn_journal_record
  (txn : Transaction) (key : ham_key_t) (record : ham_record_t) (flags : Z)
  (cursor : option nat) (db db' : LocalDatabase Btree) :
  insert_txn txn key record flags cursor db = Ok HAM_SUCCESS db' ->
  let lsn := (env_lsn (m_env db) + 1) mod 2 ^ 64 in
  env_lsn (m_env db') = lsn
  /\ env_journal (m_env db')
     = env_journal (m_env db)
       ++ (if journal_enabled (m_env db)
           then [JournalInsert (txn_id txn) key record
                   (journal_insert_flags flags) lsn]
           else [])
  /\ (issetany flags HAM_DUPLICATE = false ->
      isset (journal_insert_flags flags) HAM_OVERWRITE = true).
Proof.
  intros H lsn0. split; [|split].
  3: { intros Hd. unfold journal_insert_flags. rewrite Hd. apply isset_lor. }
  all: unfold insert_txn in H; bind_inv H as nc db1 Hnode H;
    apply get_or_create_node_journal in Hnode as (Ej1 & Ef1 & El1);
    destruct nc as [node created];
    bind_inv H as idx d Hidx H; apply get_txn_index_Ok in Hidx as [_ ->];
    bind_inv H as n d Hn H; apply deref_Ok in Hn as [_ ->];
    bind_inv H as st1 db2 Hcheck H;
    apply check_insert_conflicts_looks_up, only_looks_up_index in Hcheck
      as (_ & El2 & Ej2 & Ef2 & _);
    (destruct (failed st1) eqn:Hf;
     [apply bind_ret_value in H; subst st1; discriminate|]);
    bind_inv H as lsn db3 Hlsn H;
    apply get_incremented_lsn_spec in Hlsn as [Hl ->];
    bind_inv H as op db4 Hop H; apply append_op_Ok in Hop as [Hoplsn E4];
    bind_inv H as u db5 Hcur H;
    assert (E5 : m_env db5 = m_env db4)
      by (revert Hcur; generalize db4 u db5;
          change (keeps same_env
                    match cursor with
                    | Some c =>
                        cur <- get_cursor c ;;
                        when (negb (cursor_dupecache_index cur =? 0))
                          (update_op node (op_lsn op)
                             (fun o => set_referenced_dupe o
                                         (cursor_dupecache_index cur))) ;;;
                        update_cursor c (fun cur => couple_to_op cur op) ;;;
                        increment_dupe_index node c
                          (cursor_dupecache_index cur)
                    | None => ret tt
                    end);
          destruct cursor as [c|];
          [|apply keeps_ret, same_env_refl];
          apply keeps_bind; [exact same_env_trans| |intros cur];
          [apply keeps_get_cursor;
           [exact same_env_refl | exact same_env_trans]|];
          apply keeps_bind; [exact same_env_trans| |intros ?];
          [apply keeps_when; [exact same_env_refl|];
           apply update_op_keeps_env|];
          apply keeps_bind; [exact same_env_trans| |intros ?];
          [apply update_cursor_env | apply increment_dupe_index_env]);
    bind_inv H as env db6 Henv H; apply gets_Ok in Henv as [-> ->];
    bind_inv H as u3 db7 Happ Hret; apply ret_Ok in Hret as [_ ->];
    assert (Eenv : m_env db5 = env_set_lsn lsn (m_env db2))
      by (rewrite E5, E4; reflexivity);
    assert (Hen : journal_enabled (m_env db5) = journal_enabled (m_env db))
      by (unfold journal_enabled; rewrite Eenv; simpl; rewrite Ef2, Ef1;
          reflexivity);
    rewrite Hen in Happ;
    destruct (journal_enabled (m_env db)); simpl in Happ;
    [apply modify_Ok in Happ as -> | apply ret_Ok in Happ as [_ ->]];
    simpl; rewrite Eenv; simpl; unfold lsn0.
  - rewrite Hl, El2, El1. reflexivity.
  - rewrite Hl, El2, El1. reflexivity.
  - rewrite Ej2, Ej1, Hoplsn, Hl, El2, El1. reflexivity.
  - rewrite Ej2, Ej1, app_nil_r. reflexivity.
Qed.

(** ** A failed insert_txn or erase_txn *)

Lemma quiet_refl db : quiet db db.
Proof. split; [apply only_looks_up_refl | reflexivity]. Qed.

Lemma quiet_trans a b c : quiet a b -> quiet b c -> quiet a c.
Proof.
  intros [L1 C1] [L2 C2]. split.
  - eapply only_looks_up_trans; eauto.
  - congruence.
Qed.

Lemma quiet_index db idx : quiet db (with_txn_index idx db).
Proof. split; [apply only_looks_up_refl | reflexivity]. Qed.

Lemma quiet_find db key flags :
  quiet db (with_env (env_log (EvBtreeFind key flags)) db).
Proof.
  split; [|reflexivity].
  apply (only_looks_up_find (with_txn_index None db) key flags).
Qed.

Ltac quiet_tac := repeat keeps_pre quiet_refl quiet_trans.

Lemma get_or_create_node_quiet key : keeps quiet (get_or_create_node key).
Proof.
  unfold get_or_create_node, set_txn_index. quiet_tac. apply quiet_index.
Qed.

Lemma remove_node_quiet node : keeps quiet (remove_node node).
Proof.
  unfold remove_node, set_txn_index. quiet_tac. apply quiet_index.
Qed.

Lemma btree_index_find_None_quiet key flags :
  keeps quiet (btree_index_find None key flags).
Proof.
  unfold btree_index_find, log, if_cursor. quiet_tac. apply quiet_find.
Qed.

Lemma check_insert_conflicts_quiet txn n key flags :
  keeps quiet (check_insert_conflicts txn n key flags).
Proof.
  unfold check_insert_conflicts.
  destruct (check_insert_walk txn (node_ops n) flags);
    [apply keeps_ret, quiet_refl|].
  apply keeps_bind; [exact quiet_trans| |intros rt].
  { apply keeps_gets, quiet_refl. }
  destruct (_ || _); [apply keeps_ret, quiet_refl|].
  apply keeps_bind; [exact quiet_trans| |intros r].
  { apply btree_index_find_None_quiet. }
  destruct (bf_status r); apply keeps_ret, quiet_refl.
Qed.

Lemma check_erase_conflicts_quiet txn n key flags :
  keeps quiet (check_erase_conflicts txn n key flags).
Proof.
  unfold check_erase_conflicts.
  destruct (check_erase_walk txn (node_ops n));
    [apply keeps_ret, quiet_refl|].
  apply keeps_bind; [exact quiet_trans| |intros r].
  { apply btree_index_find_None_quiet. }
  apply keeps_ret, quiet_refl.
Qed.

Lemma quiet_with_index db db' :
  quiet db db' -> m_txn_index db' = m_txn_index db ->
  only_looks_up db db' /\ m_cursor_list db' = m_cursor_list db.
Proof.
  intros [[E T] Hc] Hidx. split; [|exact Hc]. split; [|exact T].
  unfold beyond_cursors in *. simpl in E.
  injection E as E2 E3 E4 E5 E6 E7 E8 E9 E10 E11 E12.
  rewrite Hidx, E2, E3, E4, E5, E6, E7, E8, E9, E10, E11, E12. reflexivity.
Qed.

(** X18.  A failed [insert_txn] or [erase_txn] leaves no trace: beyond the
    TransactionIndex, which is the one the call started with, it takes no
    LSN, writes no journal record, leaves the B-tree, the configuration and
    every cursor as they were, and has called no collaborator except the
    B-tree for a lookup. *)
Theorem failed_txn_op_leaves_no_trace
  (txn : Transaction) (key : ham_key_t) (record : ham_record_t) (flags : Z)
  (cursor : option nat) (db db' : LocalDatabase Btree) (st : ham_status_t) :
  st <> HAM_SUCCESS ->
  insert_txn txn key record flags cursor db = Ok st db'
  \/ erase_txn txn key flags cursor db = Ok st db' ->
  only_looks_up db db'
  /\ m_cursor_list db' = m_cursor_list db
  /\ env_lsn (m_env db') = env_lsn (m_env db)
  /\ env_journal (m_env db') = env_journal (m_env db).
Proof.
  intros Hst H.
  assert (Hq : quiet db db' /\ m_txn_index db' = m_txn_index db).
  { destruct H as [H|H].
    - unfold insert_txn in H. bind_inv H as nc db1 Hnode H.
      destruct nc as [node created].
      pose proof (get_or_create_node_quiet _ _ _ _ Hnode) as Q1.
      bind_inv H as idx d Hidx H. apply get_txn_index_Ok in Hidx as [Hidx ->].
      bind_inv H as n d Hn H. apply deref_Ok in Hn as [Hn ->].
      bind_inv H as st1 db2 Hcheck H.
      pose proof (check_insert_conflicts_quiet _ _ _ _ _ _ _ Hcheck) as Q2.
      pose proof (check_insert_conflicts_index _ _ _ _ _ _ _ Hcheck) as Hsame.
      destruct (failed st1) eqn:Hf.
      + split.
        * apply (quiet_trans _ db1); [exact Q1|].
          apply (quiet_trans _ db2); [exact Q2|].
          revert H. generalize db2 st db'.
          change (keeps quiet (when created (remove_node node) ;;; ret st1)).
          quiet_tac. apply remove_node_quiet.
        * eapply rollback_restores_index; eauto.
      + exfalso. apply Hst.
        bind_inv H as lsn d3 Hlsn H. bind_inv H as op d4 Hop H.
        bind_inv H as u d5 Hcur H. bind_inv H as env d6 Henv H.
        eapply bind_ret_value; eauto.
    - unfold erase_txn in H. bind_inv H as nc db1 Hnode H.
      destruct nc as [node created].
      pose proof (get_or_create_node_quiet _ _ _ _ Hnode) as Q1.
      bind_inv H as dupe d Hdupe H.
      apply current_dupecache_index_Ok in Hdupe as ->.
      bind_inv H as st1 db2 Hcheck H.
      assert (Q2 : quiet db1 db2 /\ m_txn_index db2 = m_txn_index db1).
      { destruct (is_null cursor || (dupe =? 0)).
        - bind_inv Hcheck as idx d Hidx Hcheck.
          apply get_txn_index_Ok in Hidx as [_ ->].
          bind_inv Hcheck as n d Hn Hcheck. apply deref_Ok in Hn as [_ ->].
          split.
          + eapply check_erase_conflicts_quiet; eauto.
          + eapply check_erase_conflicts_index; eauto.
        - apply ret_Ok in Hcheck as [_ ->].
          split; [apply quiet_refl | reflexivity]. }
      destruct Q2 as [Q2 Hsame].
      destruct (failed st1) eqn:Hf.
      + split.
        * apply (quiet_trans _ db1); [exact Q1|].
          apply (quiet_trans _ db2); [exact Q2|].
          revert H. generalize db2 st db'.
          change (keeps quiet (when created (remove_node node) ;;; ret st1)).
          quiet_tac. apply remove_node_quiet.
        * eapply rollback_restores_index; eauto.
      + exfalso. apply Hst.
        bind_inv H as lsn d3 Hlsn H. bind_inv H as op d4 Hop H.
        bind_inv H as u d5 Hdup H. bind_inv H as u1 d6 Hnil H.
        bind_inv H as idx d7 Hidx H. bind_inv H as n d8 Hn H.
        bind_inv H as u2 d9 Hnil2 H. bind_inv H as env d10 Henv H.
        eapply bind_ret_value; eauto. }
  destruct Hq as [Hq Hidx].
  destruct (quiet_with_index _ _ Hq Hidx) as [Hl Hc].
  split; [exact Hl|]. split; [exact Hc|].
  destruct (only_looks_up_index _ _ Hl) as (_ & El & Ej & _). auto.
Qed.

(** ** flush_txn_operation on an insert *)

Lemma btree_index_insert_run cursor key record flags db bt :
  m_btree_index db = Some bt ->
  valid_cursor cursor db ->
  btree_index_insert cursor key record flags db
  = Ok (fst (btree_insert bt key record flags))
       (let db1 := with_btree_index (Some (snd (btree_insert bt key record
                                                  flags)))
                     (with_env (env_log (EvBtreeInsert key flags)) db) in
        if failed (fst (btree_insert bt key record flags)) then db1
        else set_cursor cursor (fun c => with_btree_cursor c (Some key)) db1).
Proof.
  intros Hbt Hvalid. unfold btree_index_insert.
  rewrite (bind_eq _ _ db (Some bt) db) by (unfold gets; rewrite Hbt;
                                            reflexivity).
  simpl deref. rewrite (bind_eq _ _ db bt db) by reflexivity.
  unfold log. unfold bind at 1. unfold modify at 1.
  destruct (btree_insert bt key record flags) as [st bt'].
  unfold bind at 1. unfold modify at 1. simpl fst. simpl snd. cbv zeta.
  destruct (failed st); simpl negb; unfold when.
  - reflexivity.
  - assert (Hv : valid_cursor cursor
              (with_btree_index (Some bt')
                 (with_env (env_log (EvBtreeInsert key flags)) db))).
    { destruct cursor; [exact Hvalid | exact I]. }
    rewrite (bind_eq _ _ _ _ _ (if_cursor_eq cursor _ _ Hv)). reflexivity.
Qed.

Lemma flushed_cursor_spec lsn key c :
  (coupled_to lsn c = true -> moved_to_btree key (flushed_cursor lsn key c))
  /\ (coupled_to lsn c = false -> flushed_cursor lsn key c = c)
  /\ coupled_to lsn (flushed_cursor lsn key c) = false.
Proof.
  unfold coupled_to, flushed_cursor, moved_to_btree.
  destruct (cursor_txn_coupled_op c) as [l|] eqn:Hc.
  - destruct (l =? lsn) eqn:E.
    + split; [intros _; repeat split|]. split; [discriminate|reflexivity].
    + split; [discriminate|]. split; [reflexivity|]. rewrite Hc. exact E.
  - split; [discriminate|]. split; [reflexivity|]. rewrite Hc. reflexivity.
Qed.

Lemma map_flushed_cursor_uncoupled lsn key cs :
  (forall i c, cs !! i = Some c -> coupled_to lsn c = false) ->
  map (flushed_cursor lsn key) cs = cs.
Proof.
  induction cs as [|c cs IH]; intros H; [reflexivity|].
  simpl. rewrite (proj1 (proj2 (flushed_cursor_spec lsn key c))
                    (H 0%nat c eq_refl)).
  f_equal. apply IH. intros i c' Hl. apply (H (S i) c' Hl).
Qed.

(** What [flush_txn_operation] does to the cursors when the B-tree has taken
    the insert: the first cursor of the operation, then all the others. *)
Lemma flush_cursors_map lsn key (cs : list Cursor) c1 cur1 :
  cs !! c1 = Some cur1 -> coupled_to lsn cur1 = true ->
  let X := set_to_nil kTxn (couple_to_btree (with_btree_cursor cur1 (Some key)))
  in
  map (fun c2 =>
         match cursor_txn_coupled_op c2 with
         | Some l =>
             if l =? lsn
             then set_to_nil kTxn
                    (couple_to_btree (with_btree_cursor c2 (cursor_btree X)))
             else c2
         | None => c2
         end) (<[c1 := X]> cs)
  = map (flushed_cursor lsn key) cs.
Proof.
  intros Hl Hc X. apply list_eq. intros i.
  rewrite !list_lookup_fmap.
  destruct (Nat.eq_dec i c1) as [->|Hne].
  - rewrite list_lookup_insert_eq by (eapply lookup_lt_Some; eauto).
    rewrite Hl. simpl. f_equal.
    unfold flushed_cursor. unfold coupled_to in Hc.
    destruct (cursor_txn_coupled_op cur1) as [l|]; [|discriminate].
    rewrite Hc. reflexivity.
  - rewrite list_lookup_insert_ne by (intros E; apply Hne; symmetry; exact E).
    destruct (cs !! i) as [c|]; [|reflexivity]. reflexivity.
Qed.

(** X19.  Flushing an operation of an insert kind always returns; it makes
    one call, the B-tree insert of the node's key and the operation's record
    with the operation's original flags and [HAM_DUPLICATE] for an
    InsertDuplicate, [HAM_OVERWRITE] for every other insert, and its status
    is the B-tree's.  When the B-tree took the insert, no cursor is coupled
    to the operation any more: every cursor that was is nil on its
    transactional side, coupled to the B-tree and stands on the key.  When
    it did not, the cursors are as they were.  Cursors that were not coupled
    to the operation are untouched either way. *)
Theorem flush_txn_operation_insert
  (txn : Transaction) (op : TransactionOperation)
  (db : LocalDatabase Btree) (bt : Btree) :
  has_insert_kind op = true ->
  m_btree_index db = Some bt ->
  let key := op_node_key op in
  let answer := btree_insert bt key (op_record op) (flush_insert_flags op) in
  exists db',
    flush_txn_operation txn op db = Ok (fst answer) db'
    /\ m_btree_index db' = Some (snd answer)
    /\ m_env db' = env_log (EvBtreeInsert key (flush_insert_flags op))
                     (m_env db)
    /\ m_txn_index db' = m_txn_index db
    /\ (issetany (op_flags op) kInsertDuplicate = false ->
        isset (flush_insert_flags op) HAM_OVERWRITE = true)
    /\ (fst answer = HAM_SUCCESS ->
        get_cursor_list op (m_cursor_list db') = []
        /\ forall i c, m_cursor_list db !! i = Some c ->
             coupled_to (op_lsn op) c = true ->
             exists c', m_cursor_list db' !! i = Some c'
                        /\ moved_to_btree key c')
    /\ (fst answer <> HAM_SUCCESS -> m_cursor_list db' = m_cursor_list db)
    /\ (forall i c, m_cursor_list db !! i = Some c ->
          coupled_to (op_lsn op) c = false ->
          m_cursor_list db' !! i = Some c).
Proof.
  intros Hkind Hbt key answer.
  set (db1 := with_btree_index (Some (snd answer))
                (with_env (env_log (EvBtreeInsert key (flush_insert_flags op)))
                   db)).
  exists (if failed (fst answer) then db1
          else with_cursor_list
                 (map (flushed_cursor (op_lsn op) key) (m_cursor_list db))
                 db1).
  split.
  { unfold flush_txn_operation. unfold has_insert_kind in Hkind.
    rewrite Hkind. cbv zeta.
    rewrite (bind_eq _ _ db (m_cursor_list db) db) by reflexivity.
    fold key. change (Z.lor (op_orig_flags op)
                        (if issetany (op_flags op) kInsertDuplicate
                         then HAM_DUPLICATE else HAM_OVERWRITE))
      with (flush_insert_flags op).
    destruct (get_cursor_list op (m_cursor_list db)) as [|c1 rest] eqn:Hlist.
    - rewrite (btree_index_insert_run None key (op_record op)
                 (flush_insert_flags op) db bt Hbt I).
      fold answer. cbv zeta. fold db1. simpl set_cursor.
      destruct (failed (fst answer)); [reflexivity|].
      f_equal. rewrite map_flushed_cursor_uncoupled
        by (apply get_cursor_list_nil, Hlist).
      unfold db1. reflexivity.
    - assert (Hin : In c1 (cursors_coupled_to (op_lsn op) 0
                             (m_cursor_list db))).
      { unfold get_cursor_list in Hlist. rewrite Hlist. left. reflexivity. }
      destruct (cursors_coupled_to_lookup _ _ _ _ Hin)
        as (cur1 & _ & Hl1 & Hc1).
      replace (c1 - 0)%nat with c1 in Hl1 by lia.
      rewrite (bind_eq _ _ _ _ _
                 (btree_index_insert_run (Some c1) key (op_record op)
                    (flush_insert_flags op) db bt Hbt
                    (ex_intro _ cur1 Hl1))).
      fold answer. cbv zeta. fold db1.
      destruct (failed (fst answer)) eqn:Hf; simpl negb; unfold when.
      + reflexivity.
      + unfold set_cursor. simpl m_cursor_list. rewrite Hl1.
        unfold update_cursor, get_cursor, bind, gets, deref, modify, ret.
        cbn [m_cursor_list with_cursor_list].
        rewrite list_lookup_insert_eq by (eapply lookup_lt_Some; eauto).
        cbn [m_cursor_list with_cursor_list].
        rewrite list_lookup_insert_eq
          by (rewrite length_insert; eapply lookup_lt_Some; eauto).
        cbn [m_cursor_list with_cursor_list].
        rewrite list_insert_insert_eq.
        rewrite (flush_cursors_map (op_lsn op) key (m_cursor_list db)
                   c1 cur1 Hl1 Hc1).
        reflexivity. }
  assert (Hfields :
    forall cs, m_btree_index (with_cursor_list cs db1) = Some (snd answer)
               /\ m_env (with_cursor_list cs db1)
                  = env_log (EvBtreeInsert key (flush_insert_flags op))
                      (m_env db)
               /\ m_txn_index (with_cursor_list cs db1) = m_txn_index db)
    by (intros cs; repeat split).
  split; [destruct (failed (fst answer)); [reflexivity | apply Hfields]|].
  split; [destruct (failed (fst answer)); [reflexivity | apply Hfields]|].
  split; [destruct (failed (fst answer)); [reflexivity | apply Hfields]|].
  split.
  { intros Hd. unfold flush_insert_flags. rewrite Hd. apply isset_lor. }
  split; [|split].
  - intros Hs. rewrite Hs. simpl failed. cbv iota. simpl m_cursor_list.
    split.
    + apply get_cursor_list_nil. intros i c' Hl.
      rewrite list_lookup_fmap in Hl.
      destruct (m_cursor_list db !! i) as [c|]; [|discriminate].
      simpl in Hl. injection Hl as <-. apply flushed_cursor_spec.
    + intros i c Hl Hc. exists (flushed_cursor (op_lsn op) key c).
      rewrite list_lookup_fmap, Hl. split; [reflexivity|].
      apply flushed_cursor_spec, Hc.
  - intros Hne. apply failed_true in Hne. rewrite Hne. reflexivity.
  - intros i c Hl Hc. destruct (failed (fst answer)); [exact Hl|].
    simpl m_cursor_list. rewrite list_lookup_fmap, Hl. simpl. f_equal.
    apply flushed_cursor_spec, Hc.
Qed.

(** ** Leaving the scope *)

Lemma finalize_success_None db :
  finalize HAM_SUCCESS None db = Ok HAM_SUCCESS (scope_exit db).
Proof.
  unfold finalize, scope_exit, recovery_without_transactions, next_lsn.
  change (failed HAM_SUCCESS) with false. cbv iota.
  unfold bind at 1. unfold gets at 1.
  destruct (issetany (env_flags (m_env db)) HAM_ENABLE_RECOVERY
            && negb (issetany (env_flags (m_env db))
                       HAM_ENABLE_TRANSACTIONS)); reflexivity.
Qed.

Lemma scope_exit_on db :
  recovery_without_transactions (m_env db) = true ->
  scope_exit db
  = with_env (env_log (EvChangesetFlush (next_lsn (env_lsn (m_env db)))))
      (with_env (env_set_lsn (next_lsn (env_lsn (m_env db)))) db).
Proof. unfold scope_exit. intros ->. reflexivity. Qed.

Lemma scope_exit_off db :
  recovery_without_transactions (m_env db) = false -> scope_exit db = db.
Proof. unfold scope_exit. intros ->. reflexivity. Qed.

Lemma finalize_failure_None st db :
  st <> HAM_SUCCESS -> finalize st None db = Ok st db.
Proof.
  intros H. apply failed_true in H. unfold finalize. rewrite H. reflexivity.
Qed.

Lemma FINALIZE_ON_SCOPE_EXIT_run {A} (body : M A) db a db1 :
  body db = Ok a db1 ->
  FINALIZE_ON_SCOPE_EXIT body db = Ok a (scope_exit db1).
Proof.
  intros H. unfold FINALIZE_ON_SCOPE_EXIT.
  rewrite H, finalize_success_None. reflexivity.
Qed.

Lemma FINALIZE_ON_SCOPE_EXIT_Ok {A} (body : M A) db a db' :
  FINALIZE_ON_SCOPE_EXIT body db = Ok a db' ->
  exists db1, body db = Ok a db1 /\ db' = scope_exit db1.
Proof.
  unfold FINALIZE_ON_SCOPE_EXIT. intros H.
  destruct (body db) as [a1 db1|st db1| |]; try discriminate.
  - rewrite finalize_success_None in H. injection H as <- <-. eauto.
  - rewrite finalize_success_None in H. discriminate.
Qed.

Lemma scope_exit_fields db :
  m_txn_index (scope_exit db) = m_txn_index db
  /\ m_btree_index (scope_exit db) = m_btree_index db
  /\ m_cursor_list (scope_exit db) = m_cursor_list db
  /\ m_config (scope_exit db) = m_config db
  /\ m_rt_flags (scope_exit db) = m_rt_flags db
  /\ env_journal (m_env (scope_exit db)) = env_journal (m_env db)
  /\ env_next_txn_id (m_env (scope_exit db)) = env_next_txn_id (m_env db)
  /\ env_flags (m_env (scope_exit db)) = env_flags (m_env db)
  /\ env_txn_manager (m_env (scope_exit db)) = env_txn_manager (m_env db).
Proof.
  unfold scope_exit. destruct (recovery_without_transactions (m_env db));
    repeat split.
Qed.

(** ** Keys of the wrong size *)

Lemma key_size_misfit cfg key :
  key_size_fits cfg key = false ->
  negb (cfg_key_size cfg =? HAM_KEY_SIZE_UNLIMITED)
  && negb (key_size key =? cfg_key_size cfg) = true.
Proof.
  unfold key_size_fits. intros H. apply orb_false_iff in H as [-> ->].
  reflexivity.
Qed.

Lemma key_size_fit cfg key :
  key_size_fits cfg key = true ->
  negb (cfg_key_size cfg =? HAM_KEY_SIZE_UNLIMITED)
  && negb (key_size key =? cfg_key_size cfg) = false.
Proof.
  unfold key_size_fits. intros H.
  destruct (cfg_key_size cfg =? HAM_KEY_SIZE_UNLIMITED); [reflexivity|].
  simpl in H. rewrite H. reflexivity.
Qed.

(** X20.  [erase_impl] and [find_impl] refuse a key whose size is not the
    one the database is configured for with [HAM_INV_KEY_SIZE], before
    anything else: no transaction is begun, the B-tree is not asked, the
    cursor is not touched.  What is left of the call is the finalizer of
    the scope, which with recovery and without transactions flushes the
    changeset under a new LSN. *)
Theorem wrong_key_size_is_refused
  (fuel : nat) (cursor : option nat) (htxn : option Transaction)
  (key : ham_key_t) (record : option ham_record_t) (flags : Z)
  (db : LocalDatabase Btree) :
  key_size_fits (m_config db) key = false ->
  erase_impl cursor htxn (Some key) flags db
  = Ok HAM_INV_KEY_SIZE (scope_exit db)
  /\ find_impl fuel cursor htxn key record flags db
     = Ok {| fr_status := HAM_INV_KEY_SIZE; fr_key := key;
             fr_record := record |} (scope_exit db)
  /\ m_txn_index (scope_exit db) = m_txn_index db
  /\ m_btree_index (scope_exit db) = m_btree_index db
  /\ m_cursor_list (scope_exit db) = m_cursor_list db
  /\ env_next_txn_id (m_env (scope_exit db)) = env_next_txn_id (m_env db)
  /\ env_trace (m_env (scope_exit db))
     = env_trace (m_env db)
       ++ (if recovery_without_transactions (m_env db)
           then [EvChangesetFlush (next_lsn (env_lsn (m_env db)))] else []).
Proof.
  intros Hfit. apply key_size_misfit in Hfit.
  split; [|split].
  - unfold erase_impl. apply FINALIZE_ON_SCOPE_EXIT_run.
    rewrite (bind_eq _ _ db (m_config db) db) by reflexivity.
    rewrite Hfit. reflexivity.
  - unfold find_impl. apply FINALIZE_ON_SCOPE_EXIT_run.
    rewrite (bind_eq _ _ db (m_config db) db) by reflexivity.
    rewrite Hfit. reflexivity.
  - destruct (scope_exit_fields db) as (E1 & E2 & E3 & _ & _ & _ & E7 & _).
    repeat (split; [assumption|]).
    unfold scope_exit. destruct (recovery_without_transactions (m_env db)).
    + reflexivity.
    + symmetry. apply app_nil_r.
Qed.

(** ** Without transactions *)

Lemma btree_index_erase_None_run key dupe flags db bt :
  m_btree_index db = Some bt ->
  btree_index_erase None key dupe flags db
  = Ok (fst (btree_erase bt None key dupe flags))
       (with_btree_index (Some (snd (btree_erase bt None key dupe flags)))
          (with_env (env_log (EvBtreeErase key dupe flags)) db)).
Proof.
  intros Hbt. unfold btree_index_erase, bind, gets, deref, ret, log, modify.
  rewrite Hbt. destruct (btree_erase bt None key dupe flags). reflexivity.
Qed.

(** X21.  Without transactions [erase_impl] is the erase in the B-tree: one
    call, with the key, the duplicate index 0 and the caller's flags, whose
    status is the result.  The finalizer then runs twice after a success,
    once called and once on leaving the scope, and once after a failure, on
    leaving the scope: with recovery enabled the changeset is flushed each
    time, under a new LSN each, also when the erase has failed. *)
Theorem erase_impl_without_transactions
  (key : ham_key_t) (flags : Z) (db : LocalDatabase Btree) (bt : Btree) :
  key_size_fits (m_config db) key = true ->
  issetany (m_rt_flags db) HAM_ENABLE_TRANSACTIONS = false ->
  m_btree_index db = Some bt ->
  let answer := btree_erase bt None (Some key) 0 flags in
  let erased := with_btree_index (Some (snd answer))
                  (with_env (env_log (EvBtreeErase (Some key) 0 flags)) db) in
  let l1 := next_lsn (env_lsn (m_env db)) in
  exists db',
    erase_impl None None (Some key) flags db = Ok (fst answer) db'
    /\ db' = scope_exit (if failed (fst answer) then erased
                         else scope_exit erased)
    /\ m_btree_index db' = Some (snd answer)
    /\ m_txn_index db' = m_txn_index db
    /\ env_trace (m_env db')
       = env_trace (m_env db) ++ EvBtreeErase (Some key) 0 flags
         :: (if recovery_without_transactions (m_env db)
             then if failed (fst answer)
                  then [EvChangesetFlush l1]
                  else [EvChangesetFlush l1; EvChangesetFlush (next_lsn l1)]
             else []).
Proof.
  intros Hfit Htxn Hbt answer erased l1.
  apply key_size_fit in Hfit.
  eexists. split; [|split; [reflexivity|]].
  - unfold erase_impl. apply FINALIZE_ON_SCOPE_EXIT_run.
    rewrite (bind_eq _ _ db (m_config db) db) by reflexivity.
    rewrite Hfit.
    rewrite (bind_eq _ _ db (m_rt_flags db) db) by reflexivity.
    rewrite Htxn. simpl andb. cbv iota.
    rewrite (bind_eq _ _ db None db) by reflexivity.
    rewrite (bind_eq _ _ _ _ _
               (btree_index_erase_None_run (Some key) 0 flags db bt Hbt)).
    fold answer. fold erased.
    destruct (failed (fst answer)) eqn:Hf; simpl negb; unfold when.
    + rewrite (bind_eq _ _ erased tt erased) by reflexivity.
      apply finalize_failure_None, failed_true, Hf.
    + simpl if_cursor. rewrite (bind_eq _ _ erased tt erased) by reflexivity.
      apply failed_false in Hf. rewrite Hf. apply finalize_success_None.
  - destruct (recovery_without_transactions (m_env db)) eqn:Hr.
    + assert (Hr1 : recovery_without_transactions (m_env erased) = true)
        by exact Hr.
      rewrite (scope_exit_on erased Hr1).
      destruct (failed (fst answer)).
      * rewrite (scope_exit_on erased Hr1).
        repeat split. simpl. rewrite <- app_assoc. reflexivity.
      * rewrite scope_exit_on by exact Hr.
        repeat split. simpl. rewrite <- !app_assoc. reflexivity.
    + assert (Hr1 : recovery_without_transactions (m_env erased) = false)
        by exact Hr.
      rewrite (scope_exit_off erased Hr1).
      destruct (failed (fst answer));
        rewrite (scope_exit_off erased Hr1); repeat split;
        simpl; rewrite <- ?app_assoc; reflexivity.
Qed.

(** X22.  Without transactions [find_impl] is the lookup in the B-tree, for
    every bound on the re-entries of [find_txn], which is not entered: the
    status, the key and the record are the B-tree's, no transaction is
    begun, and the TransactionIndex and the journal are left alone. *)
Theorem find_impl_without_transactions
  (fuel : nat) (cursor : option nat) (key : ham_key_t)
  (record : option ham_record_t) (flags : Z)
  (db : LocalDatabase Btree) (bt : Btree) :
  key_size_fits (m_config db) key = true ->
  issetany (m_rt_flags db) HAM_ENABLE_TRANSACTIONS = false ->
  m_btree_index db = Some bt ->
  valid_cursor cursor db ->
  let r := btree_find bt key flags in
  exists db',
    find_impl fuel cursor None key record flags db
    = Ok {| fr_status := bf_status r; fr_key := bf_key r;
            fr_record := record_after_find record r |} db'
    /\ m_txn_index db' = m_txn_index db
    /\ m_btree_index db' = m_btree_index db
    /\ env_journal (m_env db') = env_journal (m_env db)
    /\ env_next_txn_id (m_env db') = env_next_txn_id (m_env db).
Proof.
  intros Hfit Htxn Hbt Hvalid r.
  apply key_size_fit in Hfit.
  set (db1 := with_env (env_log EvPurgeCache) db).
  assert (Hfind : btree_find_into cursor key record flags db1
    = Ok {| fr_status := bf_status r; fr_key := bf_key r;
            fr_record := record_after_find record r |}
         (set_cursor cursor
            (fun c => with_btree_cursor c
                        (if failed (bf_status r) then None
                         else Some (bf_key r)))
            (with_env (env_log (EvBtreeFind key flags)) db1))).
  { unfold btree_find_into, btree_index_find.
    unfold bind at 1. unfold bind at 1. unfold bind at 1. unfold gets at 1.
    change (m_btree_index db1) with (m_btree_index db). rewrite Hbt.
    unfold deref, ret at 1. unfold bind at 1. unfold log, modify.
    unfold bind at 1.
    assert (Hv : valid_cursor cursor
                   (with_env (env_log (EvBtreeFind key flags)) db1)).
    { destruct cursor; [exact Hvalid | exact I]. }
    rewrite (if_cursor_eq cursor _ _ Hv). reflexivity. }
  set (db2 := set_cursor cursor _ _) in Hfind.
  assert (Hfields : m_txn_index db2 = m_txn_index db
                    /\ m_btree_index db2 = m_btree_index db
                    /\ env_journal (m_env db2) = env_journal (m_env db)
                    /\ env_next_txn_id (m_env db2)
                       = env_next_txn_id (m_env db)).
  { unfold db2, set_cursor. destruct cursor as [c|]; [|repeat split].
    simpl. destruct (m_cursor_list db !! c); repeat split. }
  destruct Hfields as (F1 & F2 & F3 & F4).
  exists (scope_exit (if failed (bf_status r) then db2 else scope_exit db2)).
  split.
  - unfold find_impl. apply FINALIZE_ON_SCOPE_EXIT_run.
    rewrite (bind_eq _ _ db (m_config db) db) by reflexivity.
    rewrite Hfit.
    unfold purge_cache, log. unfold bind at 1. unfold modify at 1.
    fold db1.
    rewrite (bind_eq _ _ db1 (m_rt_flags db) db1) by reflexivity.
    rewrite Htxn. simpl andb. cbv iota.
    rewrite (bind_eq _ _ db1 None db1) by reflexivity.
    rewrite (bind_eq _ _ _ _ _ Hfind). simpl is_null. simpl negb.
    unfold when. rewrite (bind_eq _ _ db2 tt db2) by reflexivity.
    simpl fr_status.
    destruct (failed (bf_status r)) eqn:Hf.
    + rewrite (bind_eq _ _ _ _ _
                 (finalize_failure_None _ db2 (proj1 (failed_true _) Hf))).
      reflexivity.
    + apply failed_false in Hf. rewrite Hf.
      rewrite (bind_eq _ _ _ _ _ (finalize_success_None db2)). reflexivity.
  - destruct (failed (bf_status r)).
    + destruct (scope_exit_fields db2) as (E1 & E2 & _ & _ & _ & E6 & E7 & _).
      repeat split; congruence.
    + destruct (scope_exit_fields db2) as (E1 & E2 & _ & _ & _ & E6 & E7 & _).
      destruct (scope_exit_fields (scope_exit db2))
        as (G1 & G2 & _ & _ & _ & G6 & G7 & _).
      repeat split; congruence.
Qed.

(** ** What finalize leaves alone *)

Lemma finalize_Ok status local_txn db st db' :
  finalize status local_txn db = Ok st db' ->
  st = status
  /\ m_cursor_list db' = m_cursor_list db
  /\ m_btree_index db' = m_btree_index db
  /\ m_config db' = m_config db
  /\ m_rt_flags db' = m_rt_flags db
  /\ env_flags (m_env db') = env_flags (m_env db)
  /\ env_txn_manager (m_env db') = env_txn_manager (m_env db)
  /\ env_next_txn_id (m_env db') = env_next_txn_id (m_env db)
  /\ m_txn_index db'
     = match local_txn with
       | None => m_txn_index db
       | Some t => end_txn (negb (failed status)) (failed status) (txn_id t)
                     (m_txn_index db)
       end.
Proof.
  unfold finalize. intros H.
  destruct (failed status) eqn:Hf.
  - destruct local_txn as [t|].
    + unfold txn_manager_abort, txn_manager_terminate, txn_manager, log,
        bind, gets, modify, ret in H. simpl in H.
      destruct (env_txn_manager (m_env db)) eqn:Hm; [|discriminate].
      injection H as <- <-. simpl. rewrite Hm. repeat split.
    + unfold bind, ret in H. injection H as <- <-. repeat split.
  - destruct local_txn as [t|].
    + unfold txn_manager_commit, txn_manager_terminate, txn_manager, log,
        bind, gets, modify, ret in H. simpl in H.
      destruct (env_txn_manager (m_env db)) eqn:Hm; [|discriminate].
      injection H as <- <-. apply failed_false in Hf. subst status.
      simpl. rewrite Hm. repeat split.
    + apply failed_false in Hf. subst status.
      unfold bind, gets, ret in H.
      destruct (issetany (env_flags (m_env db)) HAM_ENABLE_RECOVERY
                && negb (issetany (env_flags (m_env db))
                           HAM_ENABLE_TRANSACTIONS)).
      * unfold get_incremented_lsn, log, bind, gets, modify, ret in H.
        injection H as <- <-. repeat split.
      * injection H as <- <-. repeat split.
Qed.

Lemma update_cursor_Ok c f db u db' :
  update_cursor c f db = Ok u db' ->
  exists cur, m_cursor_list db !! c = Some cur
              /\ db' = with_cursor_list (<[c := f cur]> (m_cursor_list db)) db.
Proof.
  unfold update_cursor. intros H. bind_inv H as cur d Hcur H.
  apply get_cursor_Ok in Hcur as [Hcur ->]. apply modify_Ok in H as ->.
  exists cur. split; [exact Hcur | reflexivity].
Qed.

Lemma update_cursor_lookup c f db u db' :
  update_cursor c f db = Ok u db' ->
  exists cur, m_cursor_list db !! c = Some cur
              /\ m_cursor_list db' !! c = Some (f cur).
Proof.
  intros H. apply update_cursor_Ok in H as (cur & Hcur & ->).
  exists cur. split; [exact Hcur|]. simpl.
  apply list_lookup_insert_eq. eapply lookup_lt_Some. exact Hcur.
Qed.

(** ** The cursor after erase_impl *)

(** X23.  After an [erase_impl] through a cursor that has reported success,
    whatever the mode and whoever owns the transaction, the cursor is nil on
    both sides, coupled to the B-tree and without a position among
    duplicates. *)
Theorem erase_impl_resets_the_cursor
  (c : nat) (htxn : option Transaction) (key : option ham_key_t) (flags : Z)
  (db db' : LocalDatabase Btree) :
  erase_impl (Some c) htxn key flags db = Ok HAM_SUCCESS db' ->
  exists cur', m_cursor_list db' !! c = Some cur' /\ is_reset cur'.
Proof.
  unfold erase_impl. intros H.
  apply FINALIZE_ON_SCOPE_EXIT_Ok in H as (db1 & H & ->).
  destruct (scope_exit_fields db1) as (_ & _ & -> & _).
  cbv zeta in H. bind_inv H as cfg d Hcfg H.
  apply gets_Ok in Hcfg as [_ ->].
  match type of H with
  | (if ?b then _ else _) _ = _ => destruct b
  end.
  { apply ret_Ok in H as [H _]. discriminate. }
  bind_inv H as rt d Hrt H. apply gets_Ok in Hrt as [_ ->].
  bind_inv H as local_txn db2 Hlocal H.
  bind_inv H as st db3 Hst H.
  bind_inv H as u db4 Hnil H.
  apply finalize_Ok in H as (Est & -> & _). subst st.
  change (negb (failed HAM_SUCCESS)) with true in Hnil. simpl in Hnil.
  apply update_cursor_lookup in Hnil as (cur & _ & Hl).
  eexists. split; [exact Hl|]. repeat split.
Qed.

(** ** cursor_move *)

Lemma status_not_erased st :
  (if status_eqb st HAM_KEY_ERASED_IN_TXN then HAM_KEY_NOT_FOUND else st)
  <> HAM_KEY_ERASED_IN_TXN.
Proof. destruct st; simpl; discriminate. Qed.

(** X24.  With transactions [cursor_move] never reports
    [HAM_KEY_ERASED_IN_TXN]: the status is the one of the cursor's move, with
    [HAM_KEY_NOT_FOUND] in its place.  After a failure the cursor remembers
    no direction; after a success it remembers NEXT or PREVIOUS when the
    flags the move was made with hold one, NEXT first, and nothing
    otherwise. *)
Theorem cursor_move_hides_erased_keys
  (c : nat) (key : ham_key_t) (record : option ham_record_t) (flags : Z)
  (db db' : LocalDatabase Btree) (r : find_result) (cur : Cursor) :
  issetany (m_rt_flags db) HAM_ENABLE_TRANSACTIONS = true ->
  m_cursor_list db !! c = Some cur ->
  cursor_move c key record flags db = Ok r db' ->
  let purged := with_env (env_log EvPurgeCache) db in
  let flags' := cursor_move_flags (is_nil kAny cur) (is_first_use purged c)
                  flags in
  let answer := cursor_move_both purged c key record flags' in
  fr_status r <> HAM_KEY_ERASED_IN_TXN
  /\ fr_status r = (if status_eqb (mv_status answer) HAM_KEY_ERASED_IN_TXN
                    then HAM_KEY_NOT_FOUND else mv_status answer)
  /\ fr_key r = mv_key answer /\ fr_record r = mv_record answer
  /\ exists cur',
       m_cursor_list db' !! c = Some cur'
       /\ cursor_lastop cur'
          = (if failed (fr_status r) then 0 else direction flags').
Proof.
  intros Htxn Hcur H purged flags' answer. unfold cursor_move in H.
  unfold purge_cache, log in H.
  bind_inv H as u d Hp H. apply modify_Ok in Hp as ->. fold purged in H.
  bind_inv H as cur0 d Hc H. apply get_cursor_Ok in Hc as [Hc ->].
  change (m_cursor_list purged) with (m_cursor_list db) in Hc.
  rewrite Hcur in Hc. injection Hc as <-.
  bind_inv H as d0 d Hd H. apply gets_Ok in Hd as [-> ->].
  unfold id in H. fold flags' in H.
  bind_inv H as rt d Hrt H. apply gets_Ok in Hrt as [-> ->].
  change (m_rt_flags purged) with (m_rt_flags db) in H.
  rewrite Htxn in H. simpl negb in H. cbv iota in H.
  bind_inv H as d0 d Hd H. apply gets_Ok in Hd as [-> ->].
  fold answer in H.
  bind_inv H as r1 db1 Hmoved H. unfold moved in Hmoved.
  bind_inv Hmoved as u1 d Hm Hmoved. apply modify_Ok in Hm as ->.
  apply ret_Ok in Hmoved as [-> ->].
  bind_inv H as u2 db2 Hdir H. cbn [fr_status fr_key fr_record] in H.
  apply update_cursor_lookup in Hdir as (cur1 & Hcur1 & Hl2).
  destruct (failed (mv_status answer)) eqn:Hf.
  - bind_inv H as u3 db3 Hsync H.
    apply update_cursor_lookup in Hsync as (cur2 & Hcur2 & Hl3).
    apply ret_Ok in H as [-> ->]. simpl.
    split; [apply status_not_erased|]. repeat split.
    exists (set_lastop cur2 0). split; [exact Hl3|].
    apply failed_true in Hf.
    destruct (mv_status answer); try reflexivity. exfalso. apply Hf.
    reflexivity.
  - apply ret_Ok in H as [-> ->]. simpl.
    apply failed_false in Hf. rewrite Hf. simpl.
    split; [discriminate|]. repeat split.
    exists (set_lastop cur1 (direction flags')). split; [exact Hl2|].
    reflexivity.
Qed.

Lemma issetany_comm_zero a b : Z.land a b = 0 -> issetany a b = false.
Proof. unfold issetany. intros ->. reflexivity. Qed.

Lemma issetany_lor_l a b m :
  issetany (Z.lor a b) m = issetany a m || issetany b m.
Proof.
  unfold issetany. rewrite Z.land_lor_distr_l.
  destruct (Z.eqb_spec (Z.land a m) 0) as [Ha|Ha];
    destruct (Z.eqb_spec (Z.land b m) 0) as [Hb|Hb]; simpl.
  - rewrite Ha, Hb. reflexivity.
  - apply negb_true_iff, Z.eqb_neq. intros E.
    apply Z.lor_eq_0_iff in E. tauto.
  - apply negb_true_iff, Z.eqb_neq. intros E.
    apply Z.lor_eq_0_iff in E. tauto.
  - apply negb_true_iff, Z.eqb_neq. intros E.
    apply Z.lor_eq_0_iff in E. tauto.
Qed.

(** X25.  On a nil cursor [cursor_move] turns NEXT and PREVIOUS around
    before anything moves: NEXT becomes FIRST on a cursor that was never
    used and LAST on one that was, PREVIOUS becomes LAST and FIRST, and NEXT
    goes first when both are asked for.  Without transactions the result is
    the answer of the B-tree cursor to the flags so changed.  On a cursor
    that is not nil the flags go through as they are. *)
Theorem cursor_move_turns_a_nil_cursor
  (c : nat) (key : ham_key_t) (record : option ham_record_t) (flags : Z)
  (db : LocalDatabase Btree) (cur : Cursor) :
  directions_are_bits ->
  issetany (m_rt_flags db) HAM_ENABLE_TRANSACTIONS = false ->
  m_cursor_list db !! c = Some cur ->
  let purged := with_env (env_log EvPurgeCache) db in
  exists flags',
    let answer := btree_cursor_move purged c key record flags' in
    cursor_move c key record flags db
    = Ok {| fr_status := mv_status answer; fr_key := mv_key answer;
            fr_record := mv_record answer |} (mv_db answer)
    /\ (is_nil kAny cur = false -> flags' = flags)
    /\ (is_nil kAny cur = true ->
        issetany flags HAM_CURSOR_NEXT
        || issetany flags HAM_CURSOR_PREVIOUS = true ->
        issetany flags' (turned (is_first_use purged c) flags) = true
        /\ issetany flags' HAM_CURSOR_NEXT = false
        /\ issetany flags' HAM_CURSOR_PREVIOUS
           = issetany flags HAM_CURSOR_NEXT
             && issetany flags HAM_CURSOR_PREVIOUS
        /\ direction flags'
           = (if issetany flags HAM_CURSOR_NEXT
                 && issetany flags HAM_CURSOR_PREVIOUS
              then HAM_CURSOR_PREVIOUS else 0)).
Proof.
  intros (Hfn & Hln & Hfp & Hlp & Hnp & Hf0 & Hl0 & Hn32 & Hp32) Htxn Hcur
    purged.
  exists (cursor_move_flags (is_nil kAny cur) (is_first_use purged c) flags).
  split; [|split].
  - unfold cursor_move, purge_cache, log.
    rewrite (bind_eq _ _ db tt purged) by reflexivity.
    rewrite (bind_eq _ _ purged cur purged)
      by (unfold get_cursor, bind, gets; simpl; rewrite Hcur; reflexivity).
    rewrite (bind_eq _ _ purged purged purged) by reflexivity.
    rewrite (bind_eq _ _ purged (m_rt_flags db) purged) by reflexivity.
    rewrite Htxn. change (negb false) with true. cbv iota.
    rewrite (bind_eq _ _ purged purged purged) by reflexivity.
    reflexivity.
  - intros ->. reflexivity.
  - intros -> Hdir. unfold cursor_move_flags, turned, direction.
    set (first_use := is_first_use purged c).
    assert (Hpn : Z.land HAM_CURSOR_PREVIOUS HAM_CURSOR_NEXT = 0)
      by (rewrite Z.land_comm; exact Hnp).
    destruct (issetany flags HAM_CURSOR_NEXT) eqn:Hn; cbv zeta.
    + assert (Hnext : forall dir, Z.land dir HAM_CURSOR_NEXT = 0 ->
                issetany (Z.lor (Z.land flags (not32 HAM_CURSOR_NEXT)) dir)
                  HAM_CURSOR_NEXT = false).
      { intros dir Hdn. rewrite issetany_lor_l, issetany_land_not32.
        apply issetany_comm_zero, Hdn. }
      assert (Hprev : forall dir, Z.land dir HAM_CURSOR_PREVIOUS = 0 ->
                issetany (Z.lor (Z.land flags (not32 HAM_CURSOR_NEXT)) dir)
                  HAM_CURSOR_PREVIOUS = issetany flags HAM_CURSOR_PREVIOUS).
      { intros dir Hdp.
        rewrite issetany_lor_l, (issetany_comm_zero _ _ Hdp), orb_false_r.
        apply (issetany_land_not32_other flags _ _ Hnp Hp32). }
      simpl andb.
      destruct first_use.
      * rewrite (Hnext _ Hfn), (Hprev _ Hfp).
        split; [apply issetany_lor_self, Hf0|].
        split; [reflexivity|]. split; reflexivity.
      * rewrite (Hnext _ Hln), (Hprev _ Hlp).
        split; [apply issetany_lor_self, Hl0|].
        split; [reflexivity|]. split; reflexivity.
    + simpl in Hdir. rewrite Hdir. simpl andb.
      assert (Hnext : forall dir, Z.land dir HAM_CURSOR_NEXT = 0 ->
                issetany (Z.lor (Z.land flags (not32 HAM_CURSOR_PREVIOUS)) dir)
                  HAM_CURSOR_NEXT = false).
      { intros dir Hdn.
        rewrite issetany_lor_l, (issetany_comm_zero _ _ Hdn), orb_false_r.
        rewrite (issetany_land_not32_other flags _ _ Hpn Hn32). exact Hn. }
      assert (Hprev : forall dir, Z.land dir HAM_CURSOR_PREVIOUS = 0 ->
                issetany (Z.lor (Z.land flags (not32 HAM_CURSOR_PREVIOUS)) dir)
                  HAM_CURSOR_PREVIOUS = false).
      { intros dir Hdp. rewrite issetany_lor_l, issetany_land_not32.
        apply issetany_comm_zero, Hdp. }
      destruct first_use.
      * rewrite (Hnext _ Hln), (Hprev _ Hlp).
        split; [apply issetany_lor_self, Hl0|].
        split; [reflexivity|]. split; reflexivity.
      * rewrite (Hnext _ Hfn), (Hprev _ Hfp).
        split; [apply issetany_lor_self, Hf0|].
        split; [reflexivity|]. split; reflexivity.
Qed.

(** ** Lists of nodes and operations *)

Lemma forallb_take {A} (f : A -> bool) (l : list A) n :
  forallb f l = true -> forallb f (take n l) = true.
Proof.
  revert n. induction l as [|x l IH]; intros [|n] H; try reflexivity.
  simpl in *. apply andb_true_iff in H as [Hx Hl]. rewrite Hx. simpl.
  apply IH, Hl.
Qed.

Lemma forallb_drop {A} (f : A -> bool) (l : list A) n :
  forallb f l = true -> forallb f (drop n l) = true.
Proof.
  revert n. induction l as [|x l IH]; intros [|n] H; try reflexivity.
  - exact H.
  - simpl in *. apply andb_true_iff in H as [_ Hl]. apply IH, Hl.
Qed.

Lemma forallb_list_insert {A} (f : A -> bool) (l : list A) i x :
  forallb f l = true -> f x = true -> forallb f (<[i := x]> l) = true.
Proof.
  revert i. induction l as [|y l IH]; intros [|i] H Hx; try reflexivity.
  - simpl in *. apply andb_true_iff in H as [_ Hl]. rewrite Hx. exact Hl.
  - simpl in *. apply andb_true_iff in H as [Hy Hl]. rewrite Hy. simpl.
    apply IH; assumption.
Qed.

Lemma forallb_list_delete {A} (f : A -> bool) (l : list A) i :
  forallb f l = true -> forallb f (delete i l) = true.
Proof.
  revert i. induction l as [|y l IH]; intros [|i] H; try reflexivity.
  - simpl in *. apply andb_true_iff in H as [_ Hl]. exact Hl.
  - simpl in *. apply andb_true_iff in H as [Hy Hl]. rewrite Hy. simpl.
    apply IH, Hl.
Qed.

Lemma forallb_list_lookup {A} (f : A -> bool) (l : list A) i x :
  forallb f l = true -> l !! i = Some x -> f x = true.
Proof.
  revert i. induction l as [|y l IH]; intros [|i] H Hl; try discriminate.
  - simpl in *. injection Hl as <-. apply andb_true_iff in H as [Hy _].
    exact Hy.
  - simpl in *. apply andb_true_iff in H as [_ H]. eapply IH; eauto.
Qed.

Lemma forallb_weaken {A} (f g : A -> bool) (l : list A) :
  (forall x, f x = true -> g x = true) ->
  forallb f l = true -> forallb g l = true.
Proof.
  intros Hfg. induction l as [|x l IH]; intros H; [reflexivity|].
  simpl in *. apply andb_true_iff in H as [Hx Hl].
  rewrite (Hfg x Hx). simpl. apply IH, Hl.
Qed.

Lemma forallb_map_at {A} (f : A -> bool) (g : A -> A) (l : list A) :
  (forall x, f x = true -> f (g x) = true) ->
  forallb f l = true -> forallb f (map g l) = true.
Proof.
  intros Hg. induction l as [|x l IH]; intros H; [reflexivity|].
  simpl in *. apply andb_true_iff in H as [Hx Hl].
  rewrite (Hg x Hx). simpl. apply IH, Hl.
Qed.

(** ** What the operations of a transaction do to the index *)

Section RunsWith.

Variable P : TransactionOperation -> bool.
Hypothesis P_txn : forall op op', op_txn op = op_txn op' -> P op = P op'.

Lemma runs_with_refl db : runs_with P db db.
Proof. repeat split. intros H. exact H. Qed.

Lemma runs_with_trans a b c :
  runs_with P a b -> runs_with P b c -> runs_with P a c.
Proof.
  intros (A1 & A2 & A3 & A4 & A5 & A6) (B1 & B2 & B3 & B4 & B5 & B6).
  repeat split; try congruence. intros H. apply B6, A6, H.
Qed.

Lemma runs_with_looks_up db db' : only_looks_up db db' -> runs_with P db db'.
Proof.
  intros [E _]. unfold beyond_cursors in E.
  injection E as E1 E2 E3 E4 E5 E6 E7 E8 E9 E10 E11 E12.
  repeat split; try assumption. rewrite E1. intros H. exact H.
Qed.

Lemma runs_with_cursors db cs : runs_with P db (with_cursor_list cs db).
Proof. repeat split. intros H. exact H. Qed.

Lemma runs_with_env db f :
  env_flags (f (m_env db)) = env_flags (m_env db) ->
  env_txn_manager (f (m_env db)) = env_txn_manager (m_env db) ->
  env_next_txn_id (f (m_env db)) = env_next_txn_id (m_env db) ->
  runs_with P db (with_env f db).
Proof. intros H1 H2 H3. repeat split; try assumption. intros H. exact H. Qed.

Lemma runs_with_index db (idx : TransactionIndex) :
  (every_op P (m_txn_index db) = true -> every_op P (Some idx) = true) ->
  runs_with P db (with_txn_index (Some idx) db).
Proof. intros H. repeat split. exact H. Qed.

Ltac runs_tac :=
  repeat keeps_pre runs_with_refl runs_with_trans.

Lemma keeps_looks_up {A} (m : M A) :
  keeps only_looks_up m -> keeps (runs_with P) m.
Proof. intros H db a db' Hm. apply runs_with_looks_up, (H db a db' Hm). Qed.

Lemma get_or_create_node_runs key :
  keeps (runs_with P) (get_or_create_node key).
Proof.
  intros db [node created] db' H. unfold get_or_create_node in H.
  bind_inv H as idx d Hidx H. apply get_txn_index_Ok in Hidx as [Hidx ->].
  destruct (txn_index_get idx key 0) as [i|].
  - apply ret_Ok in H as [_ ->]. apply runs_with_refl.
  - unfold txn_index_store in H. bind_inv H as u d Hset H.
    apply set_txn_index_Ok in Hset as ->. apply ret_Ok in H as [_ ->].
    apply runs_with_index. rewrite Hidx. simpl. intros Hall.
    rewrite forallb_app. rewrite forallb_take by exact Hall. simpl.
    apply forallb_drop, Hall.
Qed.

Lemma remove_node_runs node : keeps (runs_with P) (remove_node node).
Proof.
  intros db u db' H. unfold remove_node in H.
  bind_inv H as idx d Hidx H. apply get_txn_index_Ok in Hidx as [Hidx ->].
  apply set_txn_index_Ok in H as ->.
  apply runs_with_index. rewrite Hidx. simpl. intros Hall.
  apply forallb_list_delete, Hall.
Qed.

Lemma append_op_runs node txn orig_flags flags lsn record :
  (forall op, op_txn op = txn -> P op = true) ->
  keeps (runs_with P) (append_op node txn orig_flags flags lsn record).
Proof.
  intros Hown db op db' H. unfold append_op in H.
  bind_inv H as idx d Hidx H. apply get_txn_index_Ok in Hidx as [Hidx ->].
  bind_inv H as n d Hn H. apply deref_Ok in Hn as [Hn ->].
  unfold node_append in H. bind_inv H as u d Hset H.
  apply set_txn_index_Ok in Hset as ->. apply ret_Ok in H as [_ ->].
  apply runs_with_index. rewrite Hidx. simpl. intros Hall.
  apply forallb_list_insert; [exact Hall|]. simpl.
  rewrite Hown by reflexivity. simpl.
  apply (forallb_list_lookup _ _ _ _ Hall Hn).
Qed.

Lemma update_op_runs node lsn f :
  (forall op, op_txn (f op) = op_txn op) ->
  keeps (runs_with P) (update_op node lsn f).
Proof.
  intros Hf db u db' H. unfold update_op in H.
  bind_inv H as idx d Hidx H. apply get_txn_index_Ok in Hidx as [Hidx ->].
  bind_inv H as n d Hn H. apply deref_Ok in Hn as [Hn ->].
  apply set_txn_index_Ok in H as ->.
  apply runs_with_index. rewrite Hidx. simpl. intros Hall.
  apply forallb_list_insert; [exact Hall|]. simpl.
  apply forallb_map_at.
  - intros op Hop. destruct (op_lsn op =? lsn); [|exact Hop].
    rewrite (P_txn (f op) op (Hf op)). exact Hop.
  - apply (forallb_list_lookup _ _ _ _ Hall Hn).
Qed.

Lemma nil_all_cursors_in_node_runs txn current node :
  keeps (runs_with P) (nil_all_cursors_in_node txn current node).
Proof.
  intros db u db' H.
  apply nil_all_cursors_in_node_cursors in H as [cs ->].
  apply runs_with_cursors.
Qed.

Lemma nil_all_cursors_in_btree_runs current key :
  keeps (runs_with P) (nil_all_cursors_in_btree current key).
Proof.
  intros db u db' H.
  apply nil_all_cursors_in_btree_cursors in H as [cs ->].
  apply runs_with_cursors.
Qed.

Lemma get_incremented_lsn_runs : keeps (runs_with P) get_incremented_lsn.
Proof.
  intros db l db' H. apply get_incremented_lsn_spec in H as [_ ->].
  apply runs_with_env; reflexivity.
Qed.

Lemma update_cursor_runs c f : keeps (runs_with P) (update_cursor c f).
Proof. apply keeps_looks_up, update_cursor_looks_up. Qed.

Lemma if_cursor_runs cursor f : keeps (runs_with P) (if_cursor cursor f).
Proof. apply keeps_looks_up, if_cursor_looks_up. Qed.

Lemma erase_txn_runs txn key flags cursor :
  (forall op, op_txn op = txn -> P op = true) ->
  keeps (runs_with P) (erase_txn txn key flags cursor).
Proof.
  intros Hown. unfold erase_txn. cbv zeta.
  apply keeps_bind; [exact runs_with_trans|apply get_or_create_node_runs|].
  intros [node created].
  apply keeps_bind; [exact runs_with_trans| |intros dupe].
  { apply keeps_current_dupecache_index;
      [exact runs_with_refl | exact runs_with_trans]. }
  apply keeps_bind; [exact runs_with_trans| |intros st].
  { destruct (is_null cursor || (dupe =? 0)).
    - apply keeps_bind; [exact runs_with_trans| |intros idx].
      { apply keeps_get_txn_index;
          [exact runs_with_refl | exact runs_with_trans]. }
      apply keeps_bind; [exact runs_with_trans| |intros n].
      { apply keeps_deref. exact runs_with_refl. }
      apply keeps_looks_up, check_erase_conflicts_looks_up.
    - apply keeps_ret. exact runs_with_refl. }
  destruct (failed st).
  { apply keeps_bind; [exact runs_with_trans| |intros u].
    - apply keeps_when; [exact runs_with_refl | apply remove_node_runs].
    - apply keeps_ret. exact runs_with_refl. }
  apply keeps_bind; [exact runs_with_trans|apply get_incremented_lsn_runs|].
  intros lsn.
  apply keeps_bind; [exact runs_with_trans|apply append_op_runs, Hown|].
  intros op.
  apply keeps_bind; [exact runs_with_trans| |intros u].
  { apply keeps_when; [exact runs_with_refl|].
    apply update_op_runs. reflexivity. }
  apply keeps_bind;
    [exact runs_with_trans|apply nil_all_cursors_in_node_runs|].
  intros u1.
  apply keeps_bind; [exact runs_with_trans| |intros idx].
  { apply keeps_get_txn_index;
      [exact runs_with_refl | exact runs_with_trans]. }
  apply keeps_bind; [exact runs_with_trans| |intros n].
  { apply keeps_deref. exact runs_with_refl. }
  apply keeps_bind;
    [exact runs_with_trans|apply nil_all_cursors_in_btree_runs|].
  intros u2.
  apply keeps_bind; [exact runs_with_trans| |intros env].
  { apply keeps_gets. exact runs_with_refl. }
  apply keeps_bind; [exact runs_with_trans| |intros u3].
  { apply keeps_when; [exact runs_with_refl|].
    apply keeps_modify. intros db. apply runs_with_env; reflexivity. }
  apply keeps_ret. exact runs_with_refl.
Qed.

Lemma get_coupled_op_runs cur : keeps (runs_with P) (get_coupled_op cur).
Proof. unfold get_coupled_op. runs_tac. Qed.

Lemma btree_index_erase_runs cursor key dupe flags :
  keeps (runs_with P) (btree_index_erase cursor key dupe flags).
Proof.
  unfold btree_index_erase, log. runs_tac.
  all: first [ apply runs_with_env; reflexivity
             | repeat split; intros Hall; exact Hall ].
Qed.

(** The operations [erase_impl] makes for the transaction [txn]. *)
Lemma erase_impl_work_runs txn cursor key flags (local_txn : option Transaction) :
  (forall op, op_txn op = txn -> P op = true) ->
  keeps (runs_with P)
    (match cursor with
     | Some c =>
         cur <- get_cursor c ;;
         st <- (if is_coupled_to_btree cur then
                  update_cursor c (set_to_nil kTxn) ;;;
                  k <- deref (cursor_btree cur) ;;
                  erase_txn txn k 0 (Some c)
                else
                  op <- get_coupled_op cur ;;
                  erase_txn txn (op_node_key op) 0 (Some c)) ;;
         when (negb (is_null local_txn))
           (update_cursor c (fun c => with_cursor_txn c None)) ;;;
         ret st
     | None =>
         k <- deref key ;;
         erase_txn txn k flags None
     end).
Proof.
  intros Hown. destruct cursor as [c|].
  - apply keeps_bind; [exact runs_with_trans| |intros cur].
    { apply keeps_get_cursor; [exact runs_with_refl|exact runs_with_trans]. }
    apply keeps_bind; [exact runs_with_trans| |intros st].
    { destruct (is_coupled_to_btree cur).
      - apply keeps_bind; [exact runs_with_trans|apply update_cursor_runs|].
        intros u.
        apply keeps_bind; [exact runs_with_trans| |intros k].
        { apply keeps_deref. exact runs_with_refl. }
        apply erase_txn_runs, Hown.
      - apply keeps_bind; [exact runs_with_trans|apply get_coupled_op_runs|].
        intros op. apply erase_txn_runs, Hown. }
    apply keeps_bind; [exact runs_with_trans| |intros u].
    { apply keeps_when; [exact runs_with_refl|apply update_cursor_runs]. }
    apply keeps_ret. exact runs_with_refl.
  - apply keeps_bind; [exact runs_with_trans| |intros k].
    { apply keeps_deref. exact runs_with_refl. }
    apply erase_txn_runs, Hown.
Qed.

End RunsWith.

(** ** The temporary transaction *)

Lemma txn_manager_begin_Ok flags db t db' :
  txn_manager_begin flags db = Ok t db' ->
  t = {| txn_id := env_next_txn_id (m_env db); txn_flags := flags;
         txn_committed := false; txn_aborted := false |}
  /\ env_txn_manager (m_env db) = true
  /\ db' = with_env (env_log (EvTxnBegin (env_next_txn_id (m_env db))))
             (with_env (env_set_next_txn_id (S (env_next_txn_id (m_env db))))
                db).
Proof.
  unfold txn_manager_begin, txn_manager, log, bind, gets, modify, ret.
  intros H. destruct (env_txn_manager (m_env db)); [|discriminate].
  injection H as <- <-. repeat split.
Qed.

Lemma ended_or_of_txn id op op' :
  op_txn op = op_txn op' -> ended_or_of id op = ended_or_of id op'.
Proof. unfold ended_or_of, is_terminated. intros ->. reflexivity. Qed.

Lemma ended_or_of_own id txn op :
  txn_id txn = id -> op_txn op = txn -> ended_or_of id op = true.
Proof.
  intros <- Hop. unfold ended_or_of. rewrite Hop, Nat.eqb_refl.
  apply orb_true_r.
Qed.

Lemma every_op_weaken (P Q : TransactionOperation -> bool) idx :
  (forall op, P op = true -> Q op = true) ->
  every_op P idx = true -> every_op Q idx = true.
Proof.
  intros HPQ. destruct idx as [nodes|]; [|reflexivity]. simpl.
  apply forallb_weaken. intros n. apply forallb_weaken, HPQ.
Qed.

Lemma end_txn_terminates committed aborted id idx :
  committed || aborted = true ->
  every_op (ended_or_of id) idx = true ->
  no_active_txn (end_txn committed aborted id idx) = true.
Proof.
  intros Hend. destruct idx as [nodes|]; [|reflexivity]. simpl.
  induction nodes as [|n nodes IH]; intros H; [reflexivity|].
  simpl in *. apply andb_true_iff in H as [Hn Hrest].
  rewrite (IH Hrest), andb_true_r. clear IH Hrest.
  induction (node_ops n) as [|op ops IH]; [reflexivity|].
  simpl in *. apply andb_true_iff in Hn as [Hop Hops].
  rewrite (IH Hops), andb_true_r.
  unfold with_txn_state, ended_or_of in *.
  destruct (Nat.eqb (txn_id (op_txn op)) id).
  - exact Hend.
  - rewrite orb_false_r in Hop. exact Hop.
Qed.

(** X26.  A temporary transaction does not outlive the call that began
    it.  When no operation in the index belongs to a running transaction,
    none does after [erase_impl] or [find_impl] has returned for a caller
    without a transaction, whatever the status: the operations the call has
    added belong to a transaction that is committed or aborted. *)
Theorem temporary_txn_ends_with_the_call (db : LocalDatabase Btree) :
  no_active_txn (m_txn_index db) = true ->
  (forall cursor key flags st db',
     erase_impl cursor None key flags db = Ok st db' ->
     no_active_txn (m_txn_index db') = true)
  /\ (forall fuel cursor key record flags r db',
        find_impl fuel cursor None key record flags db = Ok r db' ->
        no_active_txn (m_txn_index db') = true).
Proof.
  intros Hquiet. split.
  - intros cursor key flags st db' H. unfold erase_impl in H.
    apply FINALIZE_ON_SCOPE_EXIT_Ok in H as (db1 & H & ->).
    rewrite (proj1 (scope_exit_fields db1)).
    cbv zeta in H. bind_inv H as cfg d Hcfg H.
    apply gets_Ok in Hcfg as [_ ->].
    match type of H with
    | (if ?b then _ else _) _ = _ => destruct b
    end.
    { apply ret_Ok in H as [_ ->]. exact Hquiet. }
    bind_inv H as rt d Hrt H. apply gets_Ok in Hrt as [-> ->].
    change (is_null (@None Transaction)) with true in H.
    cbn [andb] in H.
    destruct (issetany (m_rt_flags db) HAM_ENABLE_TRANSACTIONS).
    + bind_inv H as local db2 Hlocal H.
      bind_inv Hlocal as t db0 Hbegin Hlocal.
      apply txn_manager_begin_Ok in Hbegin as (_ & _ & ->).
      bind_inv Hlocal as u d Hcur Hret. apply ret_Ok in Hret as [-> ->].
      apply (if_cursor_runs (ended_or_of (txn_id t))) in Hcur
        as (_ & _ & _ & _ & _ & Hcur).
      bind_inv H as st0 db3 Hwork H.
      apply (erase_impl_work_runs (ended_or_of (txn_id t))
               (ended_or_of_txn _) t cursor key flags (Some t)
               (fun op => ended_or_of_own _ t op eq_refl)) in Hwork
        as (_ & _ & _ & _ & _ & Hwork).
      bind_inv H as u1 db4 Hnil H.
      apply (keeps_when _ (runs_with_refl (ended_or_of (txn_id t))) _ _
               (if_cursor_runs (ended_or_of (txn_id t)) _ _)) in Hnil
        as (_ & _ & _ & _ & _ & Hnil).
      apply finalize_Ok in H as (_ & _ & _ & _ & _ & _ & _ & _ & ->).
      apply end_txn_terminates.
      * destruct (failed st0); reflexivity.
      * apply Hnil, Hwork, Hcur.
        apply (every_op_weaken is_terminated); [|exact Hquiet].
        intros op Hop. unfold ended_or_of. rewrite Hop. reflexivity.
    + bind_inv H as local db2 Hlocal H. apply ret_Ok in Hlocal as [-> ->].
      bind_inv H as st0 db3 Hwork H.
      apply (btree_index_erase_runs is_terminated) in Hwork
        as (_ & _ & _ & _ & _ & Hwork).
      bind_inv H as u1 db4 Hnil H.
      apply (keeps_when _ (runs_with_refl is_terminated) _ _
               (if_cursor_runs is_terminated _ _)) in Hnil
        as (_ & _ & _ & _ & _ & Hnil).
      apply finalize_Ok in H as (_ & _ & _ & _ & _ & _ & _ & _ & ->).
      apply Hnil, Hwork, Hquiet.
  - intros fuel cursor key record flags r db' H. unfold find_impl in H.
    apply FINALIZE_ON_SCOPE_EXIT_Ok in H as (db1 & H & ->).
    rewrite (proj1 (scope_exit_fields db1)).
    cbv zeta in H. bind_inv H as cfg d Hcfg H.
    apply gets_Ok in Hcfg as [_ ->].
    match type of H with
    | (if ?b then _ else _) _ = _ => destruct b
    end.
    { apply ret_Ok in H as [_ ->]. exact Hquiet. }
    bind_inv H as u0 purged Hpurge H. unfold purge_cache, log in Hpurge.
    apply modify_Ok in Hpurge as ->.
    bind_inv H as rt d Hrt H. apply gets_Ok in Hrt as [-> ->].
    change (is_null (@None Transaction)) with true in H.
    cbn [andb] in H.
    match type of H with
    | context [issetany ?f HAM_ENABLE_TRANSACTIONS] =>
        destruct (issetany f HAM_ENABLE_TRANSACTIONS)
    end.
    + bind_inv H as local db2 Hlocal H.
      bind_inv Hlocal as t db0 Hbegin Hlocal.
      apply txn_manager_begin_Ok in Hbegin as (_ & _ & ->).
      bind_inv Hlocal as u d Hcur Hret. apply ret_Ok in Hret as [-> ->].
      apply (if_cursor_runs (ended_or_of (txn_id t))) in Hcur
        as (_ & _ & _ & _ & _ & Hcur).
      bind_inv H as found db3 Hwork H.
      apply (keeps_looks_up (ended_or_of (txn_id t)) _
               (find_txn_looks_up fuel cursor (Some t) key record flags))
        in Hwork as (_ & _ & _ & _ & _ & Hwork).
      bind_inv H as u1 db4 Hnil H.
      apply (keeps_when _ (runs_with_refl (ended_or_of (txn_id t))) _ _
               (if_cursor_runs (ended_or_of (txn_id t)) _ _)) in Hnil
        as (_ & _ & _ & _ & _ & Hnil).
      bind_inv H as st1 db5 Hfin H. apply ret_Ok in H as [_ ->].
      apply finalize_Ok in Hfin as (_ & _ & _ & _ & _ & _ & _ & _ & ->).
      apply end_txn_terminates.
      * destruct (failed (fr_status found)); reflexivity.
      * apply Hnil, Hwork, Hcur.
        apply (every_op_weaken is_terminated); [|exact Hquiet].
        intros op Hop. unfold ended_or_of. rewrite Hop. reflexivity.
    + bind_inv H as local db2 Hlocal H. apply ret_Ok in Hlocal as [-> ->].
      bind_inv H as found db3 Hwork H.
      apply (keeps_looks_up is_terminated _
               (btree_find_into_looks_up cursor key record flags))
        in Hwork as (_ & _ & _ & _ & _ & Hwork).
      bind_inv H as u1 db4 Hnil H. apply ret_Ok in Hnil as [_ ->].
      bind_inv H as st1 db5 Hfin H. apply ret_Ok in H as [_ ->].
      apply finalize_Ok in Hfin as (_ & _ & _ & _ & _ & _ & _ & _ & ->).
      apply Hwork, Hquiet.
Qed.

(** ** An erase that was committed *)











End MoreProperties.

(** * More of the facade on concrete databases *)

(** An equation between closed terms, by running both sides. *)
Ltac by_evaluation :=
  try match goal with
      | |- ?l = _ => let v := eval vm_compute in l in change l with v
      end;
  try match goal with
      | |- _ = ?r => let v := eval vm_compute in r in change r with v
      end;
  reflexivity.

Lemma hamsterdb_op_kinds_are_bits :
  op_kinds_are_bits (K := hamsterdb_constants).
Proof. unfold op_kinds_are_bits. simpl. repeat split; discriminate. Qed.

Lemma hamsterdb_directions_are_bits :
  directions_are_bits (KC := hamsterdb_cursor_constants).
Proof.
  unfold directions_are_bits. simpl.
  repeat split; try discriminate; try reflexivity.
Qed.

(** Instance of X3: key 3 was inserted by transaction 2, which is still
    running; transaction 9 asks. *)
Lemma foreign_active_op_is_a_conflict_witness :
  node_ops Scenario.node3_active = [] ++ Scenario.insert3_active :: []
  /\ forallb (is_skipped (Some (Reference.active 9))) [] = true
  /\ is_foreign_active (Some (Reference.active 9)) Scenario.insert3_active
     = true
  /\ check_insert_conflicts (Some (Reference.active 9)) Scenario.node3_active
       (Reference.key 3) HAM_OVERWRITE Scenario.db_active
     = Ok HAM_TXN_CONFLICT Scenario.db_active
  /\ check_erase_conflicts (Some (Reference.active 9)) Scenario.node3_active
       (Reference.key 3) HAM_OVERWRITE Scenario.db_active
     = Ok HAM_TXN_CONFLICT Scenario.db_active.
Proof.
  split; [by_evaluation|]. split; [by_evaluation|]. split; [by_evaluation|].
  eapply (foreign_active_op_is_a_conflict (K := hamsterdb_constants)
           (C := Reference.collaborators) (Some (Reference.active 9))
           Scenario.node3_active (Reference.key 3) HAM_OVERWRITE
           Scenario.db_active [] [] Scenario.insert3_active);
    by_evaluation.
Defined.

(** Instance of X4: key 5 is in the B-tree. *)
Lemma insert_txn_never_key_not_found_witness :
  exists st db',
    insert_txn (Reference.active 2) (Reference.key 5) (Reference.record 1) 0
      None Scenario.db_btree5 = Ok st db'
    /\ st <> HAM_KEY_NOT_FOUND.
Proof.
  eexists _, _. split; [by_evaluation|].
  eapply (insert_txn_never_key_not_found (K := hamsterdb_constants)
           (C := Reference.collaborators) (Reference.active 2)
           (Reference.key 5) (Reference.record 1) 0 None Scenario.db_btree5
           _ _).
  by_evaluation.
Defined.

(** Instance of X7: transactions and recovery are enabled. *)
Lemma create_keeps_session_flags_from_btree_witness :
  In HAM_ENABLE_TRANSACTIONS session_flags
  /\ Z.land HAM_FORCE_RECORDS_INLINE HAM_ENABLE_TRANSACTIONS = 0
  /\ issetany (stripped_flags
                 (Z.lor HAM_ENABLE_RECOVERY HAM_ENABLE_TRANSACTIONS))
       HAM_ENABLE_TRANSACTIONS = false
  /\ issetany (create_persistent_flags
                 (Z.lor HAM_ENABLE_RECOVERY HAM_ENABLE_TRANSACTIONS)
                 16384 16 8) HAM_ENABLE_TRANSACTIONS = false.
Proof.
  assert (Hin : In (HAM_ENABLE_TRANSACTIONS (ham_constants := hamsterdb_constants))
                  (session_flags (K := hamsterdb_constants))).
  { unfold session_flags. simpl. tauto. }
  split; [exact Hin|]. split; [by_evaluation|].
  eapply (create_keeps_session_flags_from_btree (K := hamsterdb_constants)
           (Z.lor HAM_ENABLE_RECOVERY HAM_ENABLE_TRANSACTIONS) 16384 16 8
           HAM_ENABLE_TRANSACTIONS Hin).
  by_evaluation.
Defined.

(** Instance of X8: a temporary transaction is aborted. *)
Lemma finalize_returns_its_status_witness :
  exists db',
    finalize HAM_KEY_NOT_FOUND (Some (Reference.active 2)) Scenario.db_active
    = Ok HAM_KEY_NOT_FOUND db'
    /\ m_txn_index db'
       = end_txn false true 2 (m_txn_index Scenario.db_active)
    /\ no_active_txn (m_txn_index db') = true.
Proof.
  eexists. split; [by_evaluation|].
  destruct (finalize_returns_its_status (K := hamsterdb_constants)
              (C := Reference.collaborators) HAM_KEY_NOT_FOUND
              (Some (Reference.active 2)) Scenario.db_active _
              HAM_KEY_NOT_FOUND eq_refl) as (_ & _ & _ & _ & E & _).
  split; [exact E | by_evaluation].
Defined.

(** Instance of X9: a lookup of key 5, which is in the B-tree. *)
Lemma find_txn_only_looks_up_witness :
  let db' := with_env (env_log (EvBtreeFind (Reference.key 5) 0))
               Scenario.db_btree5 in
  find_txn 2 None None (Reference.key 5) None 0 Scenario.db_btree5
  = Ok {| fr_status := HAM_SUCCESS; fr_key := Reference.key 5;
          fr_record := None |} db'
  /\ only_looks_up Scenario.db_btree5 db'
  /\ m_txn_index db' = m_txn_index Scenario.db_btree5
  /\ m_btree_index db' = m_btree_index Scenario.db_btree5
  /\ env_journal (m_env db') = env_journal (m_env Scenario.db_btree5)
  /\ env_lsn (m_env db') = env_lsn (m_env Scenario.db_btree5).
Proof.
  intros db'. split; [by_evaluation|].
  eapply (find_txn_only_looks_up (K := hamsterdb_constants)
           (C := Reference.collaborators) 2 None None (Reference.key 5) None 0
           Scenario.db_btree5 db'
           {| fr_status := HAM_SUCCESS; fr_key := Reference.key 5;
              fr_record := None |}).
  by_evaluation.
Defined.

(** Instance of X10. *)
Lemma find_txn_empty_overlay_asks_btree_witness :
  m_txn_index Scenario.db_btree5 = Some []
  /\ find_txn 1 None None (Reference.key 5) None 0 Scenario.db_btree5
     = btree_find_into None
         (ham_key_set_intflags (Reference.key 5)
            (Z.land (ham_key_get_intflags (Reference.key 5))
               (not32 kApproximate)))
         None 0 Scenario.db_btree5.
Proof.
  split; [by_evaluation|].
  eapply (find_txn_empty_overlay_asks_btree (K := hamsterdb_constants)
           (C := Reference.collaborators) 0 None None (Reference.key 5) None 0
           Scenario.db_btree5).
  by_evaluation.
Defined.

(** Instance of X11: transaction 2 inserts key 9 and reads it. *)
Lemma insert_txn_then_find_txn_witness :
  exists db',
    insert_txn (Reference.active 2) (Reference.key 9) (Reference.record 1) 0
      None Scenario.db_btree5 = Ok HAM_SUCCESS db'
    /\ find_txn 1 None (Some (Reference.active 2)) (Reference.key 9)
         (Some (Reference.record 0)) 0 db'
       = Ok {| fr_status := HAM_SUCCESS; fr_key := Reference.key 9;
               fr_record := record_found (Some (Reference.record 0))
                              (record_data (Reference.record 1)) |} db'.
Proof.
  eexists. split; [by_evaluation|].
  eapply (insert_txn_then_find_txn (K := hamsterdb_constants)
           (C := Reference.collaborators) 0 (Reference.active 2)
           (Reference.key 9) (Reference.record 1) 0
           (Some (Reference.record 0)) Scenario.db_btree5 _
           hamsterdb_op_kinds_are_bits eq_refl eq_refl eq_refl).
  by_evaluation.
Defined.


(** Instance of X13: transaction 2 erases key 5, which is in the B-tree. *)
Lemma erase_txn_then_key_not_found_witness :
  exists db',
    erase_txn (Reference.active 2) (Reference.key 5) 0 None
      Scenario.db_btree5 = Ok HAM_SUCCESS db'
    /\ find_txn 1 None (Some (Reference.active 2)) (Reference.key 5) None 0
         db'
       = Ok {| fr_status := HAM_KEY_NOT_FOUND; fr_key := Reference.key 5;
               fr_record := None |} db'
    /\ erase_txn (Reference.active 2) (Reference.key 5) 0 None db'
       = Ok HAM_KEY_NOT_FOUND db'.
Proof.
  eexists. split; [by_evaluation|].
  eapply (erase_txn_then_key_not_found (K := hamsterdb_constants)
           (C := Reference.collaborators) 0 (Reference.active 2)
           (Reference.key 5) 0 0 None Scenario.db_btree5 _
           hamsterdb_op_kinds_are_bits eq_refl eq_refl eq_refl).
  by_evaluation.
Defined.


(** Instance of X15: the node of key 3, no cursor coupled to it. *)
Lemma nil_all_cursors_in_node_uncouples_witness :
  exists db',
    nil_all_cursors_in_node (Reference.active 2) None 0 Scenario.db_erased3
    = Ok tt db'
    /\ (forall op, In op (node_ops {| node_key := Reference.key 3;
                                      node_ops := [Scenario.erase3] |}) ->
          get_cursor_list op (m_cursor_list db') = [])
    /\ length (m_cursor_list db') = length (m_cursor_list Scenario.db_erased3).
Proof.
  eexists. split; [by_evaluation|].
  destruct (nil_all_cursors_in_node_uncouples (K := hamsterdb_constants)
              (C := Reference.collaborators) (Reference.active 2) None 0%nat
              Scenario.db_erased3 _ Scenario.overlay_erased3
              {| node_key := Reference.key 3;
                 node_ops := [Scenario.erase3] |}
              eq_refl eq_refl eq_refl eq_refl) as (H1 & H2 & _).
  split; [exact H1 | exact H2].
Defined.

(** Instance of X16: the cursor on key 3 is taken off it. *)
Lemma nil_all_cursors_in_btree_clears_key_witness :
  exists db',
    nil_all_cursors_in_btree None (Reference.key 3) Scenario.db_journaled
    = Ok tt db'
    /\ length (m_cursor_list db') = length (m_cursor_list Scenario.db_journaled)
    /\ (forall i c', m_cursor_list db' !! i = Some c' ->
          None <> Some i -> is_coupled_to_txnop c' = false ->
          points_to c' (Reference.key 3) = false).
Proof.
  eexists. split; [by_evaluation|].
  destruct (nil_all_cursors_in_btree_clears_key
              (C := Reference.collaborators) None (Reference.key 3)
              Scenario.db_journaled _ eq_refl eq_refl) as (H1 & H2 & _).
  split; [exact H1 | exact H2].
Defined.

(** Instance of X17: recovery and transactions are enabled. *)
Lemma insert_txn_journal_record_witness :
  exists db',
    insert_txn (Reference.active 2) (Reference.key 9) (Reference.record 1) 0
      None Scenario.db_journaled = Ok HAM_SUCCESS db'
    /\ env_lsn (m_env db') = 11
    /\ env_journal (m_env db')
       = [JournalInsert 2 (Reference.key 9) (Reference.record 1)
            HAM_OVERWRITE 11].
Proof.
  eexists. split; [by_evaluation|].
  destruct (insert_txn_journal_record (K := hamsterdb_constants)
              (C := Reference.collaborators) (Reference.active 2)
              (Reference.key 9) (Reference.record 1) 0 None
              Scenario.db_journaled _ eq_refl) as (H1 & H2 & _).
  split; [exact H1 | exact H2].
Defined.

(** Instance of X18: the insert of key 5 fails against the B-tree. *)
Lemma failed_txn_op_leaves_no_trace_witness :
  exists db',
    HAM_DUPLICATE_KEY <> HAM_SUCCESS
    /\ insert_txn (Reference.active 2) (Reference.key 5) (Reference.record 1)
         0 None Scenario.db_btree5 = Ok HAM_DUPLICATE_KEY db'
    /\ only_looks_up Scenario.db_btree5 db'
    /\ m_cursor_list db' = m_cursor_list Scenario.db_btree5
    /\ env_lsn (m_env db') = env_lsn (m_env Scenario.db_btree5)
    /\ env_journal (m_env db') = env_journal (m_env Scenario.db_btree5).
Proof.
  eexists. split; [discriminate|]. split; [by_evaluation|].
  eapply (failed_txn_op_leaves_no_trace (K := hamsterdb_constants)
           (C := Reference.collaborators) (Reference.active 2)
           (Reference.key 5) (Reference.record 1) 0 None Scenario.db_btree5 _
           HAM_DUPLICATE_KEY).
  - discriminate.
  - left. by_evaluation.
Defined.

(** Instance of X19: the committed insert of key 7 goes to the B-tree. *)
Lemma flush_txn_operation_insert_witness :
  has_insert_kind Scenario.insert7 = true
  /\ m_btree_index Scenario2.db_overlay7_btree5 = Some [(5, [50])]
  /\ exists db',
       flush_txn_operation (Reference.committed 1) Scenario.insert7
         Scenario2.db_overlay7_btree5 = Ok HAM_SUCCESS db'
       /\ m_btree_index db' = Some [(5, [50]); (7, [70])].
Proof.
  split; [by_evaluation|]. split; [by_evaluation|].
  destruct (flush_txn_operation_insert (K := hamsterdb_constants)
              (C := Reference.collaborators) (Reference.committed 1)
              Scenario.insert7 Scenario2.db_overlay7_btree5 [(5, [50])]
              eq_refl eq_refl) as (db' & Hrun & Hbt & _).
  exists db'. split; [exact Hrun | exact Hbt].
Defined.

(** Instance of X20: a key of two bytes, with recovery and without
    transactions. *)
Lemma wrong_key_size_is_refused_witness :
  key_size_fits (m_config Scenario.db_recovery) Scenario2.long_key = false
  /\ erase_impl None None (Some Scenario2.long_key) 0 Scenario.db_recovery
     = Ok HAM_INV_KEY_SIZE (scope_exit Scenario.db_recovery)
  /\ env_trace (m_env (scope_exit Scenario.db_recovery))
     = [EvChangesetFlush 11].
Proof.
  split; [by_evaluation|].
  destruct (wrong_key_size_is_refused (K := hamsterdb_constants)
              (C := Reference.collaborators) 0 None None Scenario2.long_key
              None 0 Scenario.db_recovery eq_refl)
    as (H1 & _ & _ & _ & _ & _ & H7).
  split; [exact H1 | exact H7].
Defined.

(** Instance of X21: key 5 is not in the B-tree; the changeset is flushed
    all the same. *)
Lemma erase_impl_without_transactions_witness :
  key_size_fits (m_config Scenario.db_recovery) (Reference.key 5) = true
  /\ issetany (m_rt_flags Scenario.db_recovery) HAM_ENABLE_TRANSACTIONS
     = false
  /\ m_btree_index Scenario.db_recovery = Some []
  /\ exists db',
       erase_impl None None (Some (Reference.key 5)) 0 Scenario.db_recovery
       = Ok HAM_KEY_NOT_FOUND db'
       /\ env_trace (m_env db')
          = [EvBtreeErase (Some (Reference.key 5)) 0 0; EvChangesetFlush 11].
Proof.
  split; [by_evaluation|]. split; [by_evaluation|]. split; [by_evaluation|].
  destruct (erase_impl_without_transactions (K := hamsterdb_constants)
              (C := Reference.collaborators) (Reference.key 5) 0
              Scenario.db_recovery [] eq_refl eq_refl eq_refl)
    as (db' & Hrun & _ & _ & _ & Htrace).
  exists db'. split; [exact Hrun | exact Htrace].
Defined.

(** Instance of X22: key 3 is in the B-tree. *)
Lemma find_impl_without_transactions_witness :
  key_size_fits (m_config Scenario2.db_recovery3) (Reference.key 3) = true
  /\ issetany (m_rt_flags Scenario2.db_recovery3) HAM_ENABLE_TRANSACTIONS
     = false
  /\ m_btree_index Scenario2.db_recovery3 = Some [(3, [30])]
  /\ valid_cursor None Scenario2.db_recovery3
  /\ exists db',
       find_impl 0 None None (Reference.key 3) (Some (Reference.record 0)) 0
         Scenario2.db_recovery3
       = Ok {| fr_status := HAM_SUCCESS; fr_key := Reference.key 3;
               fr_record := Some (Reference.record 30) |} db'
       /\ m_txn_index db' = m_txn_index Scenario2.db_recovery3.
Proof.
  split; [by_evaluation|]. split; [by_evaluation|]. split; [by_evaluation|].
  split; [exact I|].
  destruct (find_impl_without_transactions (K := hamsterdb_constants)
              (C := Reference.collaborators) 0 None (Reference.key 3)
              (Some (Reference.record 0)) 0 Scenario2.db_recovery3
              [(3, [30])] eq_refl eq_refl eq_refl I)
    as (db' & Hrun & Hidx & _).
  exists db'. split; [exact Hrun | exact Hidx].
Defined.

(** Instance of X23: the erase through the cursor on key 3. *)
Lemma erase_impl_resets_the_cursor_witness :
  exists db',
    erase_impl (Some 0%nat) None None 0 Scenario2.db_cursor_on3
    = Ok HAM_SUCCESS db'
    /\ exists cur', m_cursor_list db' !! 0%nat = Some cur' /\ is_reset cur'.
Proof.
  eexists. split; [by_evaluation|].
  eapply (erase_impl_resets_the_cursor (K := hamsterdb_constants)
           (C := Reference.collaborators) 0 None None 0
           Scenario2.db_cursor_on3 _).
  by_evaluation.
Defined.

(** Instance of X24: the nil cursor is moved to the first key, key 3, which
    a committed transaction has erased. *)
Lemma cursor_move_hides_erased_keys_witness :
  issetany (m_rt_flags Scenario.db_erased3) HAM_ENABLE_TRANSACTIONS = true
  /\ m_cursor_list Scenario.db_erased3 !! 0%nat = Some Reference.nil_cursor
  /\ exists r db',
       cursor_move 0 (Reference.key 0) None HAM_CURSOR_NEXT
         Scenario.db_erased3 = Ok r db'
       /\ mv_status (cursor_move_both
                       (with_env (env_log EvPurgeCache) Scenario.db_erased3)
                       0 (Reference.key 0) None HAM_CURSOR_FIRST)
          = HAM_KEY_ERASED_IN_TXN
       /\ fr_status r = HAM_KEY_NOT_FOUND
       /\ fr_status r <> HAM_KEY_ERASED_IN_TXN.
Proof.
  split; [by_evaluation|]. split; [by_evaluation|].
  eexists _, _. split; [by_evaluation|]. split; [by_evaluation|].
  split; [by_evaluation|].
  eapply (cursor_move_hides_erased_keys (K := hamsterdb_constants)
           (KC := hamsterdb_cursor_constants) (C := Reference.collaborators)
           (MV := ReferenceMovers.movers) 0 (Reference.key 0) None
           HAM_CURSOR_NEXT Scenario.db_erased3 _ _ Reference.nil_cursor
           eq_refl eq_refl).
  by_evaluation.
Defined.

(** Instance of X25: NEXT on a nil cursor that was never used goes to the
    first key. *)
Lemma cursor_move_turns_a_nil_cursor_witness :
  directions_are_bits
  /\ issetany (m_rt_flags Scenario2.db_recovery3) HAM_ENABLE_TRANSACTIONS
     = false
  /\ m_cursor_list Scenario2.db_recovery3 !! 0%nat = Some Reference.nil_cursor
  /\ exists flags',
       cursor_move 0 (Reference.key 0) None HAM_CURSOR_NEXT
         Scenario2.db_recovery3
       = (let answer := btree_cursor_move
                          (with_env (env_log EvPurgeCache)
                             Scenario2.db_recovery3)
                          0 (Reference.key 0) None flags' in
          Ok {| fr_status := mv_status answer; fr_key := mv_key answer;
                fr_record := mv_record answer |} (mv_db answer))
       /\ issetany flags' HAM_CURSOR_NEXT = false.
Proof.
  split; [exact hamsterdb_directions_are_bits|].
  split; [by_evaluation|]. split; [by_evaluation|].
  destruct (cursor_move_turns_a_nil_cursor (K := hamsterdb_constants)
              (KC := hamsterdb_cursor_constants)
              (C := Reference.collaborators) (MV := ReferenceMovers.movers)
              0 (Reference.key 0) None HAM_CURSOR_NEXT Scenario2.db_recovery3
              Reference.nil_cursor hamsterdb_directions_are_bits eq_refl
              eq_refl) as (flags' & Hrun & _ & Hnil).
  exists flags'. split; [exact Hrun|].
  eapply (Hnil eq_refl eq_refl).
Defined.

(** Instance of X26: nothing is in the overlay; an erase of key 5 and a
    lookup of it, each in a temporary transaction. *)
Lemma temporary_txn_ends_with_the_call_witness :
  no_active_txn (m_txn_index Scenario.db_btree5) = true
  /\ exists db',
       erase_impl None None (Some (Reference.key 5)) 0 Scenario.db_btree5
       = Ok HAM_SUCCESS db'
       /\ m_txn_index db' <> m_txn_index Scenario.db_btree5
       /\ no_active_txn (m_txn_index db') = true.
Proof.
  split; [by_evaluation|].
  eexists. split; [by_evaluation|]. split; [discriminate|].
  destruct (temporary_txn_ends_with_the_call (K := hamsterdb_constants)
              (C := Reference.collaborators) Scenario.db_btree5 eq_refl)
    as [Herase _].
  eapply (Herase None (Some (Reference.key 5)) 0 HAM_SUCCESS).
  by_evaluation.
Defined.

